(** * Preprocessing.py: header detection, cleaning pipeline, reduction wrappers

    A shallow embedding of [check_header], [preprocessing], [pca] and [tsne],
    and of the script that runs them.
    Python built-ins ([int], [str], [round], [str.replace], [range]) and the
    pandas operations the module calls are modelled next to the functions
    that use them, as pandas 2 and a current numpy behave: [str.replace]
    compares literally, [get_dummies] gives boolean columns, [round] of a
    float gives an integer and refuses NaN and the infinities, [int]
    refuses more than 4300 digits, and [to_numpy] gives integers next to
    floats the dtype float64.  The cells of a floating-point column are
    rational numbers; the mean of such a column is a float64, computed by
    the library.  Strings are sequences of code points below 256; an
    exception is a value of [exn] carried by [result]. *)

From Stdlib Require Import List String Ascii Bool Arith ZArith.
From Stdlib Require Import QArith Qround Qabs Lia Lqa DecimalString DecimalZ.
From Stdlib Require Import DecimalPos Sorted.
From Stdlib Require DecimalFacts.
Import ListNotations.

Local Close Scope Q_scope.
Local Open Scope string_scope.
Local Open Scope list_scope.
Local Open Scope nat_scope.

(* ================================================================== *)
(** ** Exceptions and fallible computations *)

Inductive exn : Type :=
| ValueError
| KeyError
| IndexError
| AttributeError
| EmptyDataError
| OverflowError
| Unsupported.   (* input outside the part of the library modelled here *)

Inductive result (A : Type) : Type :=
| OK (a : A)
| Raised (e : exn).

Arguments OK {A} a.
Arguments Raised {A} e.

Definition bind {A B : Type} (m : result A) (k : A -> result B) : result B :=
  match m with
  | OK a => k a
  | Raised e => Raised e
  end.

Notation "x <- m ;; k" := (bind m (fun x => k))
  (at level 61, m at next level, right associativity).

(* ================================================================== *)
(** ** Python built-ins *)

Definition code (a : ascii) : nat := nat_of_ascii a.

(** The blanks [int] skips at both ends of its argument: the C locale's
    white space and, above 127, the Unicode spaces. *)
Definition is_space (a : ascii) : bool :=
  let n := code a in
  ((9 <=? n) && (n <=? 13)) || (n =? 32) || (n =? 133) || (n =? 160).

Definition is_digit (a : ascii) : bool :=
  let n := code a in (48 <=? n) && (n <=? 57).

(** [str.isalpha] on code points below 256. *)
Definition is_alpha (a : ascii) : bool :=
  let n := code a in
  ((65 <=? n) && (n <=? 90)) || ((97 <=? n) && (n <=? 122))
  || (n =? 170) || (n =? 181) || (n =? 186)
  || ((192 <=? n) && (n <=? 214)) || ((216 <=? n) && (n <=? 246))
  || ((248 <=? n) && (n <=? 255)).

Definition digit_value (a : ascii) : Z := Z.of_nat (code a - 48).

Fixpoint lstrip (s : string) : string :=
  match s with
  | String a r => if is_space a then lstrip r else s
  | EmptyString => EmptyString
  end.

Fixpoint rstrip (s : string) : string :=
  match s with
  | EmptyString => EmptyString
  | String a r =>
      match rstrip r with
      | EmptyString => if is_space a then EmptyString else String a EmptyString
      | r' => String a r'
      end
  end.

Definition strip (s : string) : string := rstrip (lstrip s).

(** Decimal digits with single underscores between digits, as [int]
    accepts them; [prev] tells whether the previous character was a digit. *)
Fixpoint int_digits (acc : Z) (prev : bool) (s : string) : option Z :=
  match s with
  | EmptyString => if prev then Some acc else None
  | String a r =>
      if is_digit a then int_digits (10 * acc + digit_value a)%Z true r
      else if Ascii.eqb a "_"%char then
             (if prev then int_digits acc false r else None)
      else None
  end.

(** The most digits of one number that [int] reads and [str] prints:
    [sys.int_info.default_max_str_digits]. *)
Definition max_str_digits : nat := 4300.

Fixpoint count_digits (s : string) : nat :=
  match s with
  | EmptyString => 0
  | String a r => (if is_digit a then 1 else 0) + count_digits r
  end.

(** A sign, if any, and digits. *)
Definition int_literal (t : string) : option Z :=
  match t with
  | String "+"%char r => int_digits 0 false r
  | String "-"%char r => option_map Z.opp (int_digits 0 false r)
  | _ => int_digits 0 false t
  end.

(** [int(s)] for a string [s]: [None] stands for [ValueError].  A string
    of more than [max_str_digits] digits is refused; the sign, the
    underscores and the blanks around do not count. *)
Definition py_int (s : string) : option Z :=
  let t := strip s in
  if max_str_digits <? count_digits t then None else int_literal t.

(** [str(i)] for an integer [i] written with at most [max_str_digits]
    digits; of a longer one [str] raises [ValueError]. *)
Definition py_str (i : Z) : string := NilEmpty.string_of_int (Z.to_int i).

(** [range(a, b)]. *)
Definition py_range (a b : Z) : list Z :=
  map (fun k => (a + Z.of_nat k)%Z) (seq 0 (Z.to_nat (b - a))).

(** [round(x)] with one argument: the nearest integer, a tie going to the
    even neighbour. *)
Definition py_round (x : Q) : Z :=
  let f := Qfloor x in
  match Qcompare (x - inject_Z f) (1 # 2) with
  | Lt => f
  | Gt => (f + 1)%Z
  | Eq => if Z.even f then f else (f + 1)%Z
  end.

(** [v.replace(c, '')]: scan [v] from the left and delete each copy of [c]
    met; [skip] counts the characters of the current copy still to delete.
    An empty [c] leaves [v] as it is. *)
Fixpoint delete_from (c : string) (skip : nat) (v : string) : string :=
  match v with
  | EmptyString => EmptyString
  | String a r =>
      match skip with
      | S k => delete_from c k r
      | O => if prefix c v then delete_from c (String.length c - 1) r
             else String a (delete_from c 0 r)
      end
  end.

Definition str_replace (v c : string) : string :=
  match c with
  | EmptyString => v
  | _ => delete_from c 0 v
  end.

(* ================================================================== *)
(** ** Series and DataFrame *)

(** A column with its dtype: [float64] (missing entries allowed), [int64],
    [bool], and [object] holding either strings or booleans next to
    missing entries.  A float is taken as the rational number it stands
    for, and arithmetic on floats as exact. *)
Inductive Series : Type :=
| FloatCol (xs : list (option Q))
| IntCol (xs : list Z)
| BoolCol (xs : list bool)
| StrCol (xs : list (option string))
| ObjBoolCol (xs : list (option bool)).

Record DataFrame : Type := mkDataFrame {
  nrows : nat;
  cols : list (string * Series)
}.

Definition columns (df : DataFrame) : list string := map fst (cols df).

Definition size (s : Series) : nat :=
  match s with
  | FloatCol xs => List.length xs
  | IntCol xs => List.length xs
  | BoolCol xs => List.length xs
  | StrCol xs => List.length xs
  | ObjBoolCol xs => List.length xs
  end.

(** [s.dtypes == float] and [s.dtypes == object]. *)
Definition dtype_is_float (s : Series) : bool :=
  match s with FloatCol _ => true | _ => false end.

Definition dtype_is_object (s : Series) : bool :=
  match s with StrCol _ | ObjBoolCol _ => true | _ => false end.

(** The entries that are not missing. *)
Definition dropna {A : Type} (xs : list (option A)) : list A :=
  flat_map (fun x => match x with Some a => [a] | None => [] end) xs.

Definition isna {A : Type} (x : option A) : bool :=
  match x with Some _ => false | None => true end.

(** [Series.fillna(v)]. *)
Definition fillna {A : Type} (xs : list (option A)) (v : A)
  : list (option A) :=
  map (fun x => match x with Some _ => x | None => Some v end) xs.

(** What a computation in float64 gives: a number, an infinity or NaN. *)
Inductive float64 : Type :=
| Finite (q : Q)
| Infinite
| NotANumber.

(** [Series.mean()] of a float64 column.  pandas adds the entries that are
    present, in float64 and in an order that depends on how the library
    was built, and divides by their number: every step rounds, and the sum
    may overflow.  The result is the library's; what is fixed here is that
    a column without a value has NaN for its mean. *)
Class Arithmetic : Type := {
  Series_mean : list (option Q) -> float64;
  Series_mean_empty : forall xs, dropna xs = [] -> Series_mean xs = NotANumber
}.

Section Levels.
Context {A : Type} (eqb leb : A -> A -> bool).

(** Distinct values, first occurrences kept. *)
Fixpoint dedup (xs : list A) : list A :=
  match xs with
  | [] => []
  | x :: r => x :: filter (fun y => negb (eqb x y)) (dedup r)
  end.

Fixpoint insert_sorted (x : A) (ys : list A) : list A :=
  match ys with
  | [] => [x]
  | y :: r => if leb x y then x :: ys else y :: insert_sorted x r
  end.

Definition sort (xs : list A) : list A := fold_right insert_sorted [] xs.

(** The distinct values of a column in ascending order: the categories
    pandas builds for it. *)
Definition levels (xs : list A) : list A := sort (dedup xs).

Definition occurrences (x : A) (xs : list A) : nat :=
  List.length (filter (eqb x) xs).

(** [Series.mode()]: the most frequent values, ascending. *)
Definition mode (xs : list A) : list A :=
  let ls := levels xs in
  let m := list_max (map (fun l => occurrences l xs) ls) in
  filter (fun l => occurrences l xs =? m) ls.
End Levels.

Definition Q_eqb (x y : Q) : bool :=
  Z.eqb (Qnum x) (Qnum y) && Pos.eqb (Qden x) (Qden y).

Definition bool_leb (a b : bool) : bool := implb a b.

Definition bool_repr (b : bool) : string := if b then "True" else "False".

(** What the library decides about text: how the CSV reader names the
    columns from the first record ([header_names]: the tokens themselves,
    except that empty and repeated ones are renamed), which tokens it reads
    as integers, floats and booleans, and how a float is printed. *)
Class Literals : Type := {
  header_names : list string -> list string;
  header_names_length : forall toks,
    List.length (header_names toks) = List.length toks;
  header_names_plain : forall toks,
    NoDup toks -> Forall (fun t => t <> "") toks -> header_names toks = toks;
  parse_int : string -> option Z;
  parse_float : string -> option Q;
  parse_bool : string -> option bool;
  repr_float : Q -> string;
  repr_float_inj : forall x y, repr_float x = repr_float y -> Qeq x y
}.

(** [df[f]]: the column labelled [f]; a frame of all of them when the label
    is carried by several columns. *)
Inductive Selection : Type :=
| OneSeries (s : Series)
| Frame (d : DataFrame).

Definition labelled (f : string) (c : string * Series) : bool :=
  String.eqb (fst c) f.

Definition getitem (df : DataFrame) (f : string) : result Selection :=
  match filter (labelled f) (cols df) with
  | [] => Raised KeyError
  | [c] => OK (OneSeries (snd c))
  | cs => OK (Frame (mkDataFrame (nrows df) cs))
  end.

(** [df[f] = s]: every column labelled [f] is replaced; a new label is
    appended. *)
Definition setitem (df : DataFrame) (f : string) (s : Series) : DataFrame :=
  if existsb (labelled f) (cols df)
  then mkDataFrame (nrows df)
         (map (fun c => if labelled f c then (fst c, s) else c) (cols df))
  else mkDataFrame (nrows df) (cols df ++ [(f, s)]).

(** [df.drop(f, axis=1)]: all the columns labelled [f] go. *)
Definition drop (df : DataFrame) (f : string) : result DataFrame :=
  if existsb (labelled f) (cols df)
  then OK (mkDataFrame (nrows df)
             (filter (fun c => negb (labelled f c)) (cols df)))
  else Raised KeyError.

(** [df.columns = header]. *)
Definition set_columns (df : DataFrame) (header : list string)
  : result DataFrame :=
  if List.length header =? List.length (cols df)
  then OK (mkDataFrame (nrows df) (combine header (map snd (cols df))))
  else Raised ValueError.

(** [pd.concat([a, b], axis=1)] of two frames over the same rows. *)
Definition pd_concat (a b : DataFrame) : DataFrame :=
  mkDataFrame (nrows a) (cols a ++ cols b).

(** Values of a numpy array. *)
Inductive scalar : Type :=
| NaN
| Float (q : Q)
| Int (z : Z)
| Bool (b : bool)
| Str (s : string).

Inductive ndarray : Type :=
| Arr1 (v : list scalar)
| Arr2 (n m : nat) (rows : list (list scalar)).

Definition shape (a : ndarray) : list nat :=
  match a with
  | Arr1 v => [List.length v]
  | Arr2 n m _ => [n; m]
  end.

Definition wrap {A : Type} (f : A -> scalar) (x : option A) : scalar :=
  match x with Some a => f a | None => NaN end.

Definition Series_values (s : Series) : list scalar :=
  match s with
  | FloatCol xs => map (wrap Float) xs
  | IntCol xs => map Int xs
  | BoolCol xs => map Bool xs
  | StrCol xs => map (wrap Str) xs
  | ObjBoolCol xs => map (wrap Bool) xs
  end.

Definition dtype_is_int (s : Series) : bool :=
  match s with IntCol _ => true | _ => false end.

(** The float64 nearest to an integer, a tie going to the even
    significand: an integer of at most 53 bits is a float64, of a longer
    one the last bits are rounded away. *)
Definition Z_to_float64 (z : Z) : Q :=
  let a := Z.abs z in
  let e := (Z.log2 a - 52)%Z in
  if (e <=? 0)%Z then inject_Z z
  else
    let m := Z.shiftr a e in
    let rest := (a - Z.shiftl m e)%Z in
    let half := Z.shiftl 1 (e - 1) in
    let m' := if (half <? rest)%Z || ((rest =? half)%Z && Z.odd m)
              then (m + 1)%Z else m in
    inject_Z (Z.sgn z * Z.shiftl m' e).

(** Whether the array made of several columns is a float64 array:
    integer columns next to floating-point columns, and no other.  The
    columns' own dtype is kept when they share it, and any other mix
    gives an object array, where every entry stays what it is. *)
Definition upcast_to_float (cs : list (string * Series)) : bool :=
  existsb (fun c => dtype_is_float (snd c)) cs
  && existsb (fun c => dtype_is_int (snd c)) cs
  && forallb (fun c => dtype_is_float (snd c) || dtype_is_int (snd c)) cs.

Definition as_float64 (x : scalar) : scalar :=
  match x with
  | Int z => Float (Z_to_float64 z)
  | _ => x
  end.

(** [df.to_numpy()]. *)
Definition DataFrame_to_numpy (df : DataFrame) : ndarray :=
  let cast := if upcast_to_float (cols df) then as_float64 else fun x => x in
  Arr2 (nrows df) (List.length (cols df))
    (map (fun i =>
            map (fun c => cast (nth i (Series_values (snd c)) NaN)) (cols df))
         (seq 0 (nrows df))).

Definition to_numpy (sel : Selection) : ndarray :=
  match sel with
  | OneSeries s => Arr1 (Series_values s)
  | Frame d => DataFrame_to_numpy d
  end.

(** [s.str.replace(c, '')].  The accessor exists for object columns whose
    values are strings; missing entries stay missing. *)
Definition Series_str_replace (s : Series) (c : string) : result Series :=
  match s with
  | StrCol xs => OK (StrCol (map (option_map (fun v => str_replace v c)) xs))
  | ObjBoolCol xs =>
      match dropna xs with
      | [] => OK (ObjBoolCol xs)
      | _ => Raised AttributeError
      end
  | _ => Raised AttributeError
  end.

(** [df[f]] where the code goes on to test [.dtypes == t] in an [if]:
    for the frame of several columns under one label the comparison is
    element-wise and has no truth value. *)
Definition single (sel : Selection) : result Series :=
  match sel with
  | OneSeries s => OK s
  | Frame _ => Raised ValueError
  end.

(** A [for] loop whose body may raise. *)
Fixpoint for_each {S A : Type} (body : S -> A -> result S) (xs : list A)
  (st : S) : result S :=
  match xs with
  | [] => OK st
  | x :: rest => st' <- body st x ;; for_each body rest st'
  end.

Definition indicator {A : Type} (eqb : A -> A -> bool) (l : A) (x : option A)
  : bool :=
  match x with Some a => eqb a l | None => false end.

(** One indicator column per level, named [prefix_level]. *)
Definition indicator_columns {A : Type} (eqb leb : A -> A -> bool)
  (repr : A -> string) (prefix : string) (cells : list (option A))
  : list (string * Series) :=
  map (fun l => ((prefix ++ "_" ++ repr l)%string,
                 BoolCol (map (indicator eqb l) cells)))
      (levels eqb leb (dropna cells)).

Section Pandas.
Context {L : Literals}.

(** [pd.get_dummies] of one column: every dtype is encoded. *)
Definition get_dummies_1d (s : Series) (prefix : string)
  : list (string * Series) :=
  match s with
  | FloatCol xs =>
      indicator_columns Q_eqb Qle_bool repr_float prefix
        (map (option_map Qred) xs)
  | IntCol xs =>
      indicator_columns Z.eqb Z.leb py_str prefix (map Some xs)
  | BoolCol xs =>
      indicator_columns Bool.eqb bool_leb bool_repr prefix (map Some xs)
  | StrCol xs =>
      indicator_columns String.eqb String.leb (fun v => v) prefix xs
  | ObjBoolCol xs =>
      indicator_columns Bool.eqb bool_leb bool_repr prefix xs
  end.

(** [pd.get_dummies(df[f], prefix=...)]: of a frame only the object
    columns are encoded, the others come first and unchanged. *)
Definition pd_get_dummies (sel : Selection) (prefix : string) : DataFrame :=
  match sel with
  | OneSeries s => mkDataFrame (size s) (get_dummies_1d s prefix)
  | Frame d =>
      mkDataFrame (nrows d)
        (filter (fun c => negb (dtype_is_object (snd c))) (cols d)
         ++ flat_map (fun c => get_dummies_1d (snd c) prefix)
              (filter (fun c => dtype_is_object (snd c)) (cols d)))
  end.

(** *** read_csv *)

(** A file as the tokenizer leaves it: one list of fields per record,
    blank lines gone. *)
Definition csv : Type := list (list string).

Definition default_na : list string :=
  [""; "#N/A"; "#N/A N/A"; "#NA"; "-1.#IND"; "-1.#QNAN"; "-NaN"; "-nan";
   "1.#IND"; "1.#QNAN"; "<NA>"; "N/A"; "NA"; "NULL"; "NaN"; "None"; "n/a";
   "nan"; "null"].

Definition is_na (na_values : list string) (t : string) : bool :=
  existsb (String.eqb t) (na_values ++ default_na).

(** Convert every entry that is present, or give up. *)
Fixpoint convert {A B : Type} (f : A -> option B) (xs : list (option A))
  : option (list (option B)) :=
  match xs with
  | [] => Some []
  | None :: r => option_map (cons None) (convert f r)
  | Some a :: r =>
      match f a, convert f r with
      | Some b, Some r' => Some (Some b :: r')
      | _, _ => None
      end
  end.

Definition parse_number (t : string) : option Q :=
  match parse_int t with
  | Some z => Some (inject_Z z)
  | None => parse_float t
  end.

(** The numbers that the missing tokens read as. *)
Definition na_fvalues (na_values : list string) : list Q :=
  dropna (map parse_number na_values).

(** In a column read as floating-point numbers the reader also takes for
    missing every number equal to one of [na_fvalues]. *)
Definition mask_fvalues (fs : list Q) (qs : list (option Q))
  : list (option Q) :=
  map (fun x => match x with
                | Some q => if existsb (Qeq_bool q) fs then None else Some q
                | None => None
                end) qs.

(** The dtype the reader gives a column of tokens.  A column of integers
    with a gap is read as integers and then made a float64 column. *)
Definition infer_column (na_values : list string) (toks : list string)
  : Series :=
  let cells :=
    map (fun t => if is_na na_values t then None else Some t) toks in
  let has_na := existsb isna cells in
  match toks with
  | [] => StrCol []
  | _ =>
      match convert parse_int cells with
      | Some zs =>
          if has_na then FloatCol (map (option_map inject_Z) zs)
          else IntCol (dropna zs)
      | None =>
          match convert parse_number cells with
          | Some qs => FloatCol (mask_fvalues (na_fvalues na_values) qs)
          | None =>
              match convert parse_bool cells with
              | Some bs =>
                  if has_na then ObjBoolCol bs else BoolCol (dropna bs)
              | None => StrCol cells
              end
          end
      end
  end.

(** [pd.read_csv(f, na_values=...)]: the first record names the columns,
    the others are the rows.  Records of another length than the first
    are outside the model. *)
Definition pd_read_csv (f : csv) (na_values : list string)
  : result DataFrame :=
  match f with
  | [] => Raised EmptyDataError
  | first :: records =>
      if forallb (fun r => List.length r =? List.length first) records
      then OK (mkDataFrame (List.length records)
                 (combine (header_names first)
                    (map (fun j => infer_column na_values
                                     (map (fun r => nth j r "") records))
                         (seq 0 (List.length first)))))
      else Raised Unsupported
  end.
End Pandas.

(* ================================================================== *)
(** ** check_header *)

(** The loop of [check_header]: [i] counts the numerical labels and the
    loop stops at the first one. *)
Fixpoint check_header_loop (labels : list string) (i : nat) : nat :=
  match labels with
  | [] => i
  | f :: rest =>
      match py_int f with
      | Some _ => i + 1
      | None => check_header_loop rest i
      end
  end.

Definition check_header (df : DataFrame) : bool :=
  let i := check_header_loop (columns df) 0 in
  if negb (i =? 0) then false else true.

(* ================================================================== *)
(** ** preprocessing *)

(** What [preprocessing] returns: the message, or the list
    [[data, label, names]]. *)
Inductive returned : Type :=
| Message (s : string)
| Datalist (data label : ndarray) (names : list string).

Section Imputation.
Context {F : Arithmetic}.

(** Lines 84-88 for one column: the value to fill with is computed first,
    whether or not anything is missing. *)
Definition fill_column (s : Series) : result Series :=
  match s with
  | FloatCol xs =>
      match Series_mean xs with
      | NotANumber => Raised ValueError                 (* round(nan) *)
      | Infinite => Raised OverflowError                (* round(inf) *)
      | Finite m => OK (FloatCol (fillna xs (inject_Z (py_round m))))
      end
  | IntCol xs =>
      match mode Z.eqb Z.leb xs with
      | [] => Raised KeyError                           (* mode()[0] *)
      | _ :: _ => OK (IntCol xs)
      end
  | BoolCol xs =>
      match mode Bool.eqb bool_leb xs with
      | [] => Raised KeyError
      | _ :: _ => OK (BoolCol xs)
      end
  | StrCol xs =>
      match mode String.eqb String.leb (dropna xs) with
      | [] => Raised KeyError
      | v :: _ => OK (StrCol (fillna xs v))
      end
  | ObjBoolCol xs =>
      match mode Bool.eqb bool_leb (dropna xs) with
      | [] => Raised KeyError
      | v :: _ => OK (ObjBoolCol (fillna xs v))
      end
  end.

(** Line 77: [[f for f in names if df[f].dtypes==object]]. *)
Fixpoint str_features (df : DataFrame) (names : list string)
  : result (list string) :=
  match names with
  | [] => OK []
  | f :: rest =>
      sel <- getitem df f ;;
      s <- single sel ;;
      r <- str_features df rest ;;
      OK (if dtype_is_object s then f :: r else r)
  end.

(** Line 80: [df[feature] = df[feature].str.replace(c, '')]. *)
Definition strip_feature (c : string) (df : DataFrame) (feature : string)
  : result DataFrame :=
  sel <- getitem df feature ;;
  match sel with
  | OneSeries s => s' <- Series_str_replace s c ;; OK (setitem df feature s')
  | Frame _ => Raised AttributeError
  end.

(** Lines 78-80. *)
Definition remove_chars (chars features : list string) (df : DataFrame)
  : result DataFrame :=
  for_each (fun df c => for_each (strip_feature c) features df) chars df.

(** Lines 83-88; [fillna(..., inplace=True)] writes into the frame. *)
Definition fill_feature (df : DataFrame) (feature : string)
  : result DataFrame :=
  sel <- getitem df feature ;;
  s <- single sel ;;
  s' <- fill_column s ;;
  OK (setitem df feature s').

Definition fill_missing (names : list string) (df : DataFrame)
  : result DataFrame :=
  for_each fill_feature names df.
End Imputation.

(** [l[-1]]. *)
Definition last_item {A : Type} (l : list A) : result A :=
  match rev l with
  | [] => Raised IndexError
  | x :: _ => OK x
  end.

(** [l[0]]. *)
Definition first_item {A : Type} (l : list A) : result A :=
  match l with
  | [] => Raised IndexError
  | x :: _ => OK x
  end.

(** Lines 98-104. *)
Definition separate (df : DataFrame) : result returned :=
  let names := columns df in
  l <- last_item (columns df) ;;
  sel <- getitem df l ;;
  let label := to_numpy sel in
  rest <- drop df l ;;
  let data := DataFrame_to_numpy rest in
  OK (Datalist data label names).

Section Preprocessing.
Context {L : Literals} {F : Arithmetic}.

(** Lines 92-95 for one categorical feature. *)
Definition encode_feature (df : DataFrame) (f : string) : result DataFrame :=
  sel <- getitem df f ;;
  let dummies := pd_get_dummies sel f in
  let df := pd_concat df dummies in
  df <- drop df f ;;
  d0 <- first_item (columns dummies) ;;
  drop df d0.

(** Lines 69-104: everything after the header is settled. *)
Definition clean (df : DataFrame)
  (irrelevant_features chars categorical_features : list string)
  : result returned :=
  df <- for_each drop irrelevant_features df ;;
  let names := columns df in
  features <- str_features df names ;;
  df <- remove_chars chars features df ;;
  df <- fill_missing names df ;;
  df <- for_each encode_feature categorical_features df ;;
  separate df.

(** Lines 61-104 on the loaded frame. *)
Definition preprocess (df : DataFrame)
  (irrelevant_features chars categorical_features header : list string)
  : result returned :=
  if check_header df then
    clean df irrelevant_features chars categorical_features
  else if negb (List.length header =? 0) then
    df <- set_columns df header ;;
    clean df irrelevant_features chars categorical_features
  else
    OK (Message
          "Error: the dataset has no header, please enter the columns names").

Definition preprocessing (f : csv)
  (missing_values irrelevant_features chars categorical_features
     header : list string) : result returned :=
  df <- pd_read_csv f missing_values ;;
  preprocess df irrelevant_features chars categorical_features header.
End Preprocessing.

(* ================================================================== *)
(** ** pca and tsne *)

(** The two projection routines of scikit-learn, as far as the wrappers
    rely on them: asked for [n] components of a matrix, a routine that
    returns gives a matrix with the rows of its input and [n] columns.
    The embedding draws on a random state. *)
Class Reducers : Type := {
  random_state : Type;
  PCA_fit_transform : Z -> ndarray -> result ndarray;
  TSNE_fit_transform : random_state -> Z -> ndarray -> result ndarray;
  PCA_shape : forall n X Y, PCA_fit_transform n X = OK Y ->
    exists r c, shape X = [r; c] /\ (0 <= n)%Z /\ shape Y = [r; Z.to_nat n];
  TSNE_shape : forall g n X Y, TSNE_fit_transform g n X = OK Y ->
    exists r c, shape X = [r; c] /\ (0 <= n)%Z /\ shape Y = [r; Z.to_nat n]
}.

(** [datalist[0]] and [datalist[1]]; a message is a string, indexed by
    character. *)
Definition item0 (datalist : returned) : result ndarray :=
  match datalist with
  | Datalist data _ _ => OK data
  | Message s =>
      match s with
      | EmptyString => Raised IndexError
      | String a _ => OK (Arr1 [Str (String a EmptyString)])
      end
  end.

Definition item1 (datalist : returned) : result ndarray :=
  match datalist with
  | Datalist _ label _ => OK label
  | Message s =>
      match s with
      | String _ (String a _) => OK (Arr1 [Str (String a EmptyString)])
      | _ => Raised IndexError
      end
  end.

(** [["feature_"+str(i) for i in range(1,n+1)]]. *)
Definition feature_names (n : Z) : list string :=
  map (fun i => ("feature_" ++ py_str i)%string) (py_range 1 (n + 1)).

Section Reduction.
Context {R : Reducers}.

Definition pca (datalist : returned) (n : Z) : result returned :=
  X <- item0 datalist ;;
  data_transformed <- PCA_fit_transform n X ;;
  y <- item1 datalist ;;
  OK (Datalist data_transformed y (feature_names n)).

Definition tsne (g : random_state) (datalist : returned) (n : Z)
  : result returned :=
  X <- item0 datalist ;;
  data_transformed <- TSNE_fit_transform g n X ;;
  y <- item1 datalist ;;
  OK (Datalist data_transformed y (feature_names n)).
End Reduction.

(* ================================================================== *)
(** ** The script *)

(** The tabulation, ['\t']. *)
Definition tab : string := String "009"%char EmptyString.

Section Script.
Context {L : Literals} {F : Arithmetic} {R : Reducers}.

(** Lines 140-151, run on the file found at [kidney_disease.csv]; what
    the script prints is what [main] returns. *)
Definition main (kidney_disease : csv) : result returned :=
  let f := kidney_disease in
  let missing_values := ["NaN"; "nan"; (tab ++ "?")%string] in
  let irrelevant_features := ["id"] in
  let chars := [tab; " "] in
  let categorical_features :=
    ["pc"; "rbc"; "pcc"; "ba"; "htn"; "dm"; "cad"; "appet"; "pe"; "ane";
     "classification"] in
  l <- preprocessing f missing_values irrelevant_features chars
         categorical_features [] ;;
  l2 <- pca l 2 ;;
  OK l2.
End Script.

(* ================================================================== *)
(** ** A reader for plain files *)

(** An instance of [Literals] for files without repeated or empty names in
    the first record: integers are digits with an optional minus sign,
    floats have a decimal point, booleans are spelled as Python spells
    them, and a float is printed as its fraction in lowest terms. *)

Fixpoint plain_digits (acc : option Z) (s : string) : option Z :=
  match s with
  | EmptyString => acc
  | String a r =>
      if is_digit a
      then plain_digits
             (Some (10 * match acc with Some z => z | None => 0 end
                    + digit_value a)%Z) r
      else None
  end.

Definition plain_int (t : string) : option Z :=
  match t with
  | String "-"%char r => option_map Z.opp (plain_digits None r)
  | _ => plain_digits None t
  end.

Fixpoint plain_decimal (acc : Z) (scale : option positive) (seen : bool)
  (s : string) : option Q :=
  match s with
  | EmptyString =>
      match scale with
      | Some d => if seen then Some (Qmake acc d) else None
      | None => None
      end
  | String a r =>
      if is_digit a
      then plain_decimal (10 * acc + digit_value a)%Z
             (option_map (Pos.mul 10) scale) true r
      else if Ascii.eqb a "."%char
           then match scale with
                | None => plain_decimal acc (Some 1%positive) seen r
                | Some _ => None
                end
           else None
  end.

Definition plain_float (t : string) : option Q :=
  match t with
  | String "-"%char r => option_map Qopp (plain_decimal 0 None false r)
  | _ => plain_decimal 0 None false t
  end.

Definition plain_bool (t : string) : option bool :=
  if existsb (String.eqb t) ["True"; "TRUE"; "true"] then Some true
  else if existsb (String.eqb t) ["False"; "FALSE"; "false"] then Some false
  else None.

Definition plain_repr (q : Q) : string :=
  (py_str (Qnum (Qred q)) ++ "/" ++ py_str (Zpos (Qden (Qred q))))%string.

(* ================================================================== *)
(** ** Float64 arithmetic with one order of summation *)

(** An instance of [Arithmetic]: the entries that are present are added
    from the first row to the last, every sum and the quotient being
    rounded to the nearest float64, a tie going to the even significand
    and a result of size [2^1024] or more being an infinity. *)

(** The float64 nearest to a rational number. *)
Definition round_float64 (q : Q) : float64 :=
  let a := Z.abs (Qnum q) in
  let d := Zpos (Qden q) in
  if (a =? 0)%Z then Finite 0%Q
  else
    let e0 := (Z.log2 a - Z.log2 d - 52)%Z in
    let scaled (e : Z) : Z * Z :=
      if (0 <=? e)%Z then (a, d * 2 ^ e)%Z else (a * 2 ^ (- e), d)%Z in
    let e1 := if (fst (scaled e0) / snd (scaled e0) <? 2 ^ 52)%Z
              then (e0 - 1)%Z else e0 in
    let e := Z.max e1 (-1074) in
    let '(n, k) := scaled e in
    let m := (n / k)%Z in
    let r := (n mod k)%Z in
    let m' := if (k <? 2 * r)%Z || ((2 * r =? k)%Z && Z.odd m)
              then (m + 1)%Z else m in
    if (0 <=? e)%Z
    then if (2 ^ 1024 <=? m' * 2 ^ e)%Z then Infinite
         else Finite (inject_Z (Z.sgn (Qnum q) * m' * 2 ^ e))
    else Finite (Qmake (Z.sgn (Qnum q) * m') (Z.to_pos (2 ^ (- e)))).

Fixpoint float64_sum (acc : Q) (xs : list Q) : float64 :=
  match xs with
  | [] => Finite acc
  | x :: r =>
      match round_float64 (acc + x) with
      | Finite a => float64_sum a r
      | other => other
      end
  end.

Definition sequential_mean (xs : list (option Q)) : float64 :=
  match dropna xs with
  | [] => NotANumber
  | ys =>
      match float64_sum 0 ys with
      | Finite s => round_float64 (s / inject_Z (Z.of_nat (List.length ys)))
      | other => other
      end
  end.

(* ================================================================== *)
(** ** A stand-in for the projection routines *)

(** Keeps the first [n] columns; it has the shape contract of [Reducers]
    and serves where a concrete routine is needed. *)
Definition first_columns (n : Z) (X : ndarray) : result ndarray :=
  match X with
  | Arr2 r c rows =>
      if (0 <=? n)%Z && (Z.to_nat n <=? c)
      then OK (Arr2 r (Z.to_nat n) (map (firstn (Z.to_nat n)) rows))
      else Raised ValueError
  | Arr1 _ => Raised ValueError
  end.

(* ================================================================== *)
(** ** Vocabulary of the statements *)

Fixpoint all_chars (p : ascii -> bool) (s : string) : bool :=
  match s with
  | EmptyString => true
  | String a r => p a && all_chars p r
  end.

(** Every column has one entry per row. *)
Definition frame_ok (df : DataFrame) : Prop :=
  Forall (fun c => size (snd c) = nrows df) (cols df).

(** [r] is an integer nearest to [m]. *)
Definition nearest (r : Z) (m : Q) : Prop :=
  forall k : Z, (Qabs (m - inject_Z r) <= Qabs (m - inject_Z k))%Q.

(** [v] is a value of [l] that occurs at least as often as any other. *)
Definition most_frequent {A : Type} (eqb : A -> A -> bool) (v : A)
  (l : list A) : Prop :=
  In v l /\ forall w, occurrences eqb w l <= occurrences eqb v l.

(** Entry [y] is entry [x] when [x] is present, and [v] when it is missing. *)
Definition fills {A : Type} (v : A) (x y : option A) : Prop :=
  y = Some (match x with Some a => a | None => v end).

Section Filling.
Context {F : Arithmetic}.

(** What imputation makes of a column, in the words of the specification:
    the gaps of a floating-point column take the mean pandas computes for
    it, rounded to a nearest integer, those of any other column take a most
    frequent value. *)
Inductive imputed : Series -> Series -> Prop :=
| imputed_float xs ys m r :
    Series_mean xs = Finite m -> nearest r m ->
    Forall2 (fills (inject_Z r)) xs ys ->
    imputed (FloatCol xs) (FloatCol ys)
| imputed_int xs : xs <> [] -> imputed (IntCol xs) (IntCol xs)
| imputed_bool xs : xs <> [] -> imputed (BoolCol xs) (BoolCol xs)
| imputed_str xs ys v :
    most_frequent String.eqb v (dropna xs) ->
    Forall2 (fills v) xs ys ->
    imputed (StrCol xs) (StrCol ys)
| imputed_objbool xs ys v :
    most_frequent Bool.eqb v (dropna xs) ->
    Forall2 (fills v) xs ys ->
    imputed (ObjBoolCol xs) (ObjBoolCol ys).
End Filling.

(** No entry of the column is missing. *)
Definition complete (s : Series) : Prop :=
  ~ In NaN (Series_values s).

Definition no_nan (a : ndarray) : Prop :=
  match a with
  | Arr1 v => ~ In NaN v
  | Arr2 _ _ rows => Forall (fun r => ~ In NaN r) rows
  end.

(** The label [f] names an object column of [df]. *)
Definition object_label (df : DataFrame) (f : string) : bool :=
  existsb (fun c => labelled f c && dtype_is_object (snd c)) (cols df).

(** [len(a)]: the length of the first axis. *)
Definition len (a : ndarray) : nat := hd 0 (shape a).

(** A frame of [n] rows whose columns have [n] entries, none missing. *)
Definition tidy (n : nat) (df : DataFrame) : Prop :=
  nrows df = n
  /\ Forall (fun c => size (snd c) = n /\ complete (snd c)) (cols df).

(** The rows of a matrix are there, each with one value per column. *)
Definition well_shaped (a : ndarray) : Prop :=
  match a with
  | Arr1 _ => True
  | Arr2 n m rows =>
      List.length rows = n /\ Forall (fun r => List.length r = m) rows
  end.

(** How many entries of a column are not missing. *)
Definition present (s : Series) : nat :=
  match s with
  | FloatCol xs => List.length (dropna xs)
  | IntCol xs => List.length xs
  | BoolCol xs => List.length xs
  | StrCol xs => List.length (dropna xs)
  | ObjBoolCol xs => List.length (dropna xs)
  end.

(** Lines 84-88 have something to fill the column with: a floating-point
    column has a mean that is a number, any other column holds a value. *)
Definition fillable {F : Arithmetic} (s : Series) : Prop :=
  match s with
  | FloatCol xs => exists m, Series_mean xs = Finite m
  | _ => present s <> 0
  end.

(** What lines 84-88 raise on a column that is not [fillable]: [round]
    refuses a mean that is NaN with [ValueError] and an infinite one with
    [OverflowError]; [mode()[0]] finds nothing with [KeyError]. *)
Definition fill_error {F : Arithmetic} (s : Series) : exn :=
  match s with
  | FloatCol xs =>
      match Series_mean xs with
      | Infinite => OverflowError
      | _ => ValueError
      end
  | _ => KeyError
  end.

(** The file of the specification's example and the frame loaded from it. *)
Definition example_csv : csv :=
  [["id"; "age"; "class"]; ["1"; "25"; "yes"]; ["2"; ""; "no"]].

Definition example_frame : DataFrame :=
  mkDataFrame 2
    [("id", IntCol [1%Z; 2%Z]);
     ("age", FloatCol [Some (25 # 1)%Q; None]);
     ("class", StrCol [Some "yes"; Some "no"])].

(** The label ['1' * n]. *)
Fixpoint ones (n : nat) : string :=
  match n with
  | 0 => ""
  | S k => String "1"%char (ones k)
  end.

(** [c] occurs in [p]. *)
Definition occurs (c p : string) : Prop :=
  exists l r, p = (l ++ c ++ r)%string.

(** The pieces put end to end. *)
Definition glue (pieces : list string) : string :=
  fold_right String.append EmptyString pieces.

(** The characters of [s] that satisfy [p]. *)
Fixpoint keep (p : ascii -> bool) (s : string) : string :=
  match s with
  | EmptyString => EmptyString
  | String a r => if p a then String a (keep p r) else keep p r
  end.

(** The values of a column that are not missing, floats in lowest terms so
    that equal numbers are equal values. *)
Definition values_present (s : Series) : list scalar :=
  match s with
  | FloatCol xs => map Float (map Qred (dropna xs))
  | IntCol xs => map Int xs
  | BoolCol xs => map Bool xs
  | StrCol xs => map Str (dropna xs)
  | ObjBoolCol xs => map Bool (dropna xs)
  end.

(** [ls] lists the distinct values of the column, each once. *)
Definition distinct_values (s : Series) (ls : list scalar) : Prop :=
  NoDup ls /\ forall v, In v ls <-> In v (values_present s).

(** The column with its floats in lowest terms. *)
Definition canonical (s : Series) : Series :=
  match s with
  | FloatCol xs => FloatCol (map (option_map Qred) xs)
  | _ => s
  end.

(** [bs] marks the rows of the column whose value is [v]. *)
Definition marks (s : Series) (v : scalar) (bs : list bool) : Prop :=
  Forall2 (fun x b => b = true <-> x = v) (Series_values (canonical s)) bs.

(** An indicator column of [s] named after [prefix]: it marks the rows
    holding one of the values of [s]. *)
Definition indicator_of (prefix : string) (s : Series) (c : string * Series)
  : Prop :=
  exists r v bs, fst c = (prefix ++ "_" ++ r)%string
                 /\ snd c = BoolCol bs
                 /\ In v (values_present s) /\ marks s v bs.

(** A file with a column named like an indicator column of another. *)
Definition collision_csv : csv :=
  [["c_b"; "c"]; ["1"; "a"]; ["2"; "b"]].

(** [names] lists the label [f]. *)
Definition mentions (names : list string) (f : string) : bool :=
  existsb (String.eqb f) names.

(** The shape shared by lines 80 and 84-88: replace the one column
    labelled [f] by what [g] makes of it. *)
Definition update_column (g : Series -> result Series) (df : DataFrame)
  (f : string) : result DataFrame :=
  sel <- getitem df f ;;
  s <- single sel ;;
  s' <- g s ;;
  OK (setitem df f s').

(** The string has no slash. *)
Fixpoint no_slash (s : string) : Prop :=
  match s with
  | EmptyString => True
  | String a r => a <> "/"%char /\ no_slash r
  end.

(** The column is one [.str.replace] accepts: strings, or nothing at all. *)
Definition strippable (s : Series) : Prop :=
  match s with
  | StrCol _ => True
  | ObjBoolCol xs => dropna xs = []
  | _ => False
  end.

(** [a[i][j]] of a matrix. *)
Definition entry (a : ndarray) (i j : nat) : scalar :=
  match a with
  | Arr1 _ => NaN
  | Arr2 _ _ rows => nth j (nth i rows []) NaN
  end.

(** The characters a string accepted by [int] is made of. *)
Definition int_char (a : ascii) : bool :=
  is_digit a || is_space a || Ascii.eqb a "_" || Ascii.eqb a "+"
  || Ascii.eqb a "-".

(** The name is [f_...] for one of the features [fs]. *)
Definition prefixed_by (fs : list string) (name : string) : Prop :=
  exists f r, In f fs /\ name = (f ++ "_" ++ r)%string.

(** The string holds an underscore. *)
Fixpoint has_underscore (s : string) : bool :=
  match s with
  | EmptyString => false
  | String a r => Ascii.eqb a "_" || has_underscore r
  end.

(** [x] is at most [y] for the order [leb]. *)
Definition leb_le {A : Type} (leb : A -> A -> bool) (x y : A) : Prop :=
  leb x y = true.

(** The value is no string. *)
Definition not_str (x : scalar) : bool :=
  match x with Str _ => false | _ => true end.

(** No entry of the array is a string. *)
Definition no_str (a : ndarray) : Prop :=
  match a with
  | Arr1 v => Forall (fun x => not_str x = true) v
  | Arr2 _ _ rows => Forall (Forall (fun x => not_str x = true)) rows
  end.

(** What the loop of lines 91-95 keeps when no name it starts from holds
    an underscore: the labels are distinct, each is a name without
    underscore or a name [g_...] for a feature [g] already encoded, and no
    feature already encoded labels a column. *)
Definition encoding_invariant (done : list string) (df : DataFrame) : Prop :=
  NoDup (columns df)
  /\ (forall name, In name (columns df) ->
        has_underscore name = false \/ prefixed_by done name)
  /\ (forall g, In g done -> ~ In g (columns df)).

(* ================================================================== *)
(** * Properties *)

(** ** Fallible computations *)

Lemma bind_OK {A B} (m : result A) (k : A -> result B) (b : B) :
  bind m k = OK b -> exists a, m = OK a /\ k a = OK b.
Proof. destruct m as [a|e]; simpl; intros H; [eauto | discriminate]. Qed.

Ltac bind_inv H :=
  let a := fresh "a" in
  let Ha := fresh "Ha" in
  apply bind_OK in H; destruct H as (a & Ha & H).

(** A property kept by the body of a loop is kept by the loop. *)
Lemma for_each_invariant {S A} (P : S -> Prop) (body : S -> A -> result S) :
  (forall st x st', P st -> body st x = OK st' -> P st') ->
  forall xs st st', P st -> for_each body xs st = OK st' -> P st'.
Proof.
  intros Hbody xs; induction xs as [|x rest IH]; simpl; intros st st' HP H.
  - now inversion H; subst.
  - bind_inv H. eauto.
Qed.

(** ** Lists *)

Lemma Forall2_In_l {A B} (R : A -> B -> Prop) (l : list A) (l' : list B)
  (a : A) :
  Forall2 R l l' -> In a l -> exists b, In b l' /\ R a b.
Proof.
  induction 1 as [|x y l l' Hxy _ IH]; simpl; [easy|].
  intros [<-|Ha]; [exists y; auto|].
  destruct (IH Ha) as (b & Hb & HR). exists b. auto.
Qed.

Lemma NoDup_app_disjoint {A} (l l' : list A) :
  NoDup (l ++ l') -> forall a, In a l -> ~ In a l'.
Proof.
  induction l as [|x l IH]; simpl; intros Hnd a Ha Ha'; [easy|].
  inversion Hnd as [|? ? Hx Hnd']; subst. destruct Ha as [->|Ha].
  - apply Hx. apply in_or_app. now right.
  - now apply (IH Hnd' a).
Qed.

Lemma for_each_app {S A} (body : S -> A -> result S) (xs ys : list A)
  (st : S) :
  for_each body (xs ++ ys) st
  = (st' <- for_each body xs st ;; for_each body ys st').
Proof.
  revert st. induction xs as [|x xs IH]; intros st; simpl; [reflexivity|].
  destruct (body st x) as [st1|e]; simpl; [apply IH | reflexivity].
Qed.

(** ** The header detector *)

Lemma alpha_not_special (a : ascii) :
  is_alpha a = true ->
  is_space a = false /\ is_digit a = false /\ Ascii.eqb a "_" = false
  /\ a <> "+"%char /\ a <> "-"%char.
Proof.
  destruct a as [[] [] [] [] [] [] [] []]; vm_compute;
    intros H; try discriminate H; repeat split; discriminate.
Qed.

Lemma digit_not_special (a : ascii) :
  is_digit a = true ->
  is_space a = false /\ a <> "+"%char /\ a <> "-"%char.
Proof.
  destruct a as [[] [] [] [] [] [] [] []]; vm_compute;
    intros H; try discriminate H; repeat split; discriminate.
Qed.

Lemma rstrip_id (s : string) :
  all_chars (fun a => negb (is_space a)) s = true -> rstrip s = s.
Proof.
  induction s as [|a r IH]; simpl; intros H; [reflexivity|].
  apply andb_true_iff in H as [Ha Hr]. rewrite (IH Hr).
  destruct r; [|reflexivity].
  now destruct (is_space a).
Qed.

Lemma lstrip_id (s : string) :
  all_chars (fun a => negb (is_space a)) s = true -> lstrip s = s.
Proof.
  destruct s as [|a r]; simpl; intros H; [reflexivity|].
  apply andb_true_iff in H as [Ha _]. now destruct (is_space a).
Qed.

Lemma all_chars_impl (p q : ascii -> bool) (s : string) :
  (forall a, p a = true -> q a = true) ->
  all_chars p s = true -> all_chars q s = true.
Proof.
  intros Hpq; induction s as [|a r IH]; simpl; intros H; [reflexivity|].
  apply andb_true_iff in H as [Ha Hr]. now rewrite (Hpq a Ha), (IH Hr).
Qed.

Lemma strip_id (p : ascii -> bool) (s : string) :
  (forall a, p a = true -> is_space a = false) ->
  all_chars p s = true -> strip s = s.
Proof.
  intros Hp H. unfold strip.
  assert (Hs : all_chars (fun a => negb (is_space a)) s = true).
  { apply (all_chars_impl p); [|exact H]. intros a Ha. now rewrite (Hp a Ha). }
  now rewrite (lstrip_id s Hs), (rstrip_id s Hs).
Qed.

(** [int] rejects a label made of letters. *)
Lemma py_int_alpha (s : string) :
  all_chars is_alpha s = true -> py_int s = None.
Proof.
  intros H. unfold py_int. cbv zeta.
  rewrite (strip_id is_alpha s (fun a Ha => proj1 (alpha_not_special a Ha)) H).
  destruct (max_str_digits <? count_digits s); [reflexivity|].
  destruct s as [|a r]; [reflexivity|].
  cbn [all_chars] in H. apply andb_true_iff in H as [Ha _].
  destruct (alpha_not_special a Ha) as (_ & Hd & Hu & Hp & Hm).
  assert (Hgo : int_digits 0 false (String a r) = None)
    by (cbn [int_digits]; now rewrite Hd, Hu).
  unfold int_literal.
  destruct a as [[] [] [] [] [] [] [] []]; try exact Hgo;
    solve [now elim Hp | now elim Hm].
Qed.

Lemma int_digits_all_digits (s : string) :
  all_chars is_digit s = true ->
  forall acc prev, (s <> "" \/ prev = true) ->
  exists z, int_digits acc prev s = Some z.
Proof.
  induction s as [|a r IH]; simpl; intros H acc prev Hne.
  - destruct Hne as [Hne | ->]; [now elim Hne | eauto].
  - apply andb_true_iff in H as [Ha Hr]. rewrite Ha.
    apply (IH Hr). now right.
Qed.

Lemma count_digits_le (s : string) : count_digits s <= String.length s.
Proof.
  induction s as [|a r IH]; cbn [count_digits String.length]; [lia|].
  destruct (is_digit a); lia.
Qed.

Lemma count_all_digits (s : string) :
  all_chars is_digit s = true -> count_digits s = String.length s.
Proof.
  induction s as [|a r IH]; cbn [count_digits String.length all_chars];
    intros H; [reflexivity|].
  apply andb_true_iff in H as [-> Hr]. now rewrite (IH Hr).
Qed.

Lemma digits_literal (s : string) :
  s <> "" -> all_chars is_digit s = true ->
  int_literal s = int_digits 0 false s.
Proof.
  intros Hne H. destruct s as [|a r]; [reflexivity|].
  cbn [all_chars] in H. apply andb_true_iff in H as [Ha _].
  destruct (digit_not_special a Ha) as (_ & Hp & Hm). unfold int_literal.
  destruct a as [[] [] [] [] [] [] [] []]; try reflexivity;
    solve [now elim Hp | now elim Hm].
Qed.

(** [int] accepts a label made of digits, [max_str_digits] of them at
    most, and refuses a label made of more. *)
Lemma py_int_digits (s : string) :
  s <> "" -> all_chars is_digit s = true ->
  (String.length s <= max_str_digits -> exists z, py_int s = Some z)
  /\ (max_str_digits < String.length s -> py_int s = None).
Proof.
  intros Hne H. unfold py_int. cbv zeta.
  rewrite (strip_id is_digit s (fun a Ha => proj1 (digit_not_special a Ha)) H).
  rewrite (count_all_digits s H). split; intros Hlen.
  - apply Nat.ltb_ge in Hlen. rewrite Hlen, (digits_literal s Hne H).
    now apply int_digits_all_digits; [|left].
  - apply Nat.ltb_lt in Hlen. now rewrite Hlen.
Qed.

Lemma check_header_loop_zero (labels : list string) :
  check_header_loop labels 0 = 0 <-> Forall (fun f => py_int f = None) labels.
Proof.
  induction labels as [|f rest IH]; simpl.
  - split; [constructor | reflexivity].
  - destruct (py_int f) eqn:E.
    + split; [discriminate | intros H; inversion H; congruence].
    + rewrite IH. split; [now constructor | now inversion 1].
Qed.

Lemma check_header_true (df : DataFrame) :
  check_header df = true <-> Forall (fun f => py_int f = None) (columns df).
Proof.
  unfold check_header. rewrite <- check_header_loop_zero.
  destruct (check_header_loop (columns df) 0); simpl; split;
    congruence || discriminate.
Qed.

(** A frame whose labels are all made of letters has a header; a frame
    with a label made of digits, [max_str_digits] of them at most, has
    none; and [check_header] answers "no header" exactly when [int]
    accepts one of the labels. *)
Lemma check_header_decides (df : DataFrame) :
  ((forall f, In f (columns df) -> all_chars is_alpha f = true) ->
   check_header df = true)
  /\ ((exists f, In f (columns df) /\ f <> "" /\ all_chars is_digit f = true
                 /\ String.length f <= max_str_digits) ->
      check_header df = false)
  /\ (check_header df = false <->
      exists f, In f (columns df) /\ py_int f <> None).
Proof.
  assert (Hiff : check_header df = false <->
                 exists f, In f (columns df) /\ py_int f <> None).
  { rewrite <- not_true_iff_false, check_header_true.
    rewrite <- Exists_Forall_neg
      by (intros f; destruct (py_int f); [right|left]; congruence).
    now rewrite Exists_exists. }
  split; [|split].
  - intros H. apply check_header_true, Forall_forall.
    intros f Hf. now apply py_int_alpha, H.
  - intros (f & Hf & Hne & Hd & Hlen). apply Hiff. exists f.
    split; [exact Hf|].
    destruct (proj1 (py_int_digits f Hne Hd) Hlen) as [z ->]. discriminate.
  - exact Hiff.
Qed.

Lemma check_header_decides_witness :
  check_header (mkDataFrame 0 [("age", IntCol []); ("class", StrCol [])])
  = true
  /\ check_header (mkDataFrame 0 [("variance", IntCol []); ("0", IntCol [])])
     = false.
Proof.
  split.
  - apply (proj1 (check_header_decides
             (mkDataFrame 0 [("age", IntCol []); ("class", StrCol [])]))).
    intros f [<-|[<-|[]]]; reflexivity.
  - apply (proj1 (proj2 (check_header_decides
             (mkDataFrame 0 [("variance", IntCol []); ("0", IntCol [])])))).
    exists "0". split; [right; now left|]. split; [discriminate|].
    split; [reflexivity | apply Nat.leb_le; reflexivity].
Defined.

Lemma int_digits_chars (s : string) :
  forall acc prev z, int_digits acc prev s = Some z ->
  all_chars int_char s = true.
Proof.
  induction s as [|a r IH]; simpl; intros acc prev z H; [reflexivity|].
  unfold int_char at 1. destruct (is_digit a); simpl.
  - now apply IH in H.
  - destruct (Ascii.eqb a "_"); [|discriminate].
    rewrite orb_true_r. simpl. destruct prev; [|discriminate].
    now apply IH in H.
Qed.

Lemma space_int_char (a : ascii) : is_space a = true -> int_char a = true.
Proof.
  unfold int_char. intros ->. now rewrite orb_true_r.
Qed.

Lemma lstrip_chars (s : string) :
  all_chars int_char (lstrip s) = true -> all_chars int_char s = true.
Proof.
  induction s as [|a r IH]; simpl; [reflexivity|].
  destruct (is_space a) eqn:E; [|exact (fun H => H)].
  intros H. now rewrite (space_int_char a E), (IH H).
Qed.

Lemma rstrip_chars (s : string) :
  all_chars int_char (rstrip s) = true -> all_chars int_char s = true.
Proof.
  induction s as [|a r IH]; simpl; [reflexivity|].
  destruct (rstrip r) as [|b r'].
  - destruct (is_space a) eqn:E; simpl; intros H.
    + now rewrite (space_int_char a E), IH.
    + apply andb_true_iff in H as [-> _]. now rewrite IH.
  - simpl. intros H. apply andb_true_iff in H as [-> H]. now rewrite IH.
Qed.

Lemma py_int_chars (s : string) (z : Z) :
  py_int s = Some z -> all_chars int_char s = true.
Proof.
  unfold py_int, strip. cbv zeta. intros H.
  apply lstrip_chars, rstrip_chars.
  destruct (max_str_digits <? count_digits (rstrip (lstrip s)));
    [discriminate|].
  unfold int_literal in H.
  destruct (rstrip (lstrip s)) as [|a r]; [reflexivity|].
  assert (Hgo : forall z', int_digits 0 false r = Some z' ->
                           int_char a = true ->
                           all_chars int_char (String a r) = true).
  { intros z' Hz Ha. simpl. rewrite Ha. now apply int_digits_chars in Hz. }
  destruct (Ascii.eqb_spec a "+") as [->|Hp].
  { now apply (Hgo z). }
  destruct (Ascii.eqb_spec a "-") as [->|Hm].
  { destruct (int_digits 0 false r) as [z'|] eqn:E; [|discriminate].
    now apply (Hgo z'). }
  assert (Hd : int_digits 0 false (String a r) = Some z).
  { destruct a as [[] [] [] [] [] [] [] []]; try exact H;
      solve [now elim Hp | now elim Hm]. }
  now apply int_digits_chars in Hd.
Qed.

(** A label that holds a decimal point is no integer for [int]. *)
Lemma py_int_decimal (a b : string) : py_int (a ++ "." ++ b) = None.
Proof.
  destruct (py_int (a ++ "." ++ b)) as [z|] eqn:E; [|reflexivity].
  apply py_int_chars in E. exfalso. revert E. clear.
  induction a as [|c a IH]; simpl; [discriminate|].
  destruct (int_char c); [exact IH | discriminate].
Qed.

(** C2.  [check_header] counts a label as numerical only when [int]
    accepts it.  A label with a decimal point and a label made of more
    than [max_str_digits] digits are numerical and [int] raises
    [ValueError] on both: a frame whose labels are all of these two kinds
    is found to have a header.  So is the frame read from a file that
    begins with the record 3.5,2.5, and the frame with the one label made
    of 4301 digits; with 4300 digits the answer is "no header". *)
Theorem numerical_labels_found_header :
  (forall df,
     (forall f, In f (columns df) ->
        (exists a b, f = (a ++ "." ++ b)%string)
        \/ (all_chars is_digit f = true
            /\ max_str_digits < String.length f)) ->
     check_header df = true)
  /\ check_header
       (mkDataFrame 1 [("3.5", FloatCol [Some (Qmake 15 10)]);
                       ("2.5", FloatCol [Some (Qmake 5 10)])]) = true
  /\ py_int "3.5" = None
  /\ check_header (mkDataFrame 0 [(ones 4301, IntCol [])]) = true
  /\ check_header (mkDataFrame 0 [(ones 4300, IntCol [])]) = false.
Proof.
  split; [|split; [|split; [|split]]]; try (vm_compute; reflexivity).
  intros df H. apply check_header_true, Forall_forall. intros f Hf.
  destruct (H f Hf) as [(a & b & ->)|[Hd Hlen]]; [apply py_int_decimal|].
  apply (py_int_digits f); [|exact Hd|exact Hlen].
  intros ->. simpl in Hlen. lia.
Qed.

(** ** Printing integers *)

Lemma py_str_inj (x y : Z) : py_str x = py_str y -> x = y.
Proof.
  unfold py_str. intros H. apply DecimalZ.to_int_inj.
  assert (E : Some (Z.to_int x) = Some (Z.to_int y))
    by (rewrite <- !NilEmpty.isi; now rewrite H).
  now inversion E.
Qed.

Lemma uint_no_slash (d : Decimal.uint) : no_slash (NilEmpty.string_of_uint d).
Proof. induction d; simpl; auto; split; auto; discriminate. Qed.

Lemma py_str_no_slash (z : Z) : no_slash (py_str z).
Proof.
  unfold py_str. destruct (Z.to_int z); simpl;
    [|split; [discriminate|]]; apply uint_no_slash.
Qed.

Lemma slash_split (a a' b b' : string) :
  no_slash a -> no_slash a' ->
  (a ++ "/" ++ b)%string = (a' ++ "/" ++ b')%string -> a = a' /\ b = b'.
Proof.
  revert a'. induction a as [|x a IH]; intros [|x' a']; simpl;
    intros Ha Ha' H.
  - now inversion H.
  - inversion H; subst. now destruct Ha'.
  - inversion H; subst. now destruct Ha.
  - inversion H; subst. destruct Ha, Ha'.
    destruct (IH a') as [-> ->]; auto.
Qed.

Lemma plain_repr_inj (x y : Q) : plain_repr x = plain_repr y -> Qeq x y.
Proof.
  unfold plain_repr. intros H.
  apply slash_split in H as [Hn Hd]; try apply py_str_no_slash.
  apply py_str_inj in Hn. apply py_str_inj in Hd.
  rewrite <- (Qred_correct x), <- (Qred_correct y).
  destruct (Qred x) as [nx dx], (Qred y) as [ny dy]; simpl in *.
  inversion Hd; subst. reflexivity.
Qed.

#[export] Instance plain_literals : Literals := {|
  header_names := fun toks => toks;
  header_names_length := fun toks => eq_refl;
  header_names_plain := fun toks _ _ => eq_refl;
  parse_int := plain_int;
  parse_float := plain_float;
  parse_bool := plain_bool;
  repr_float := plain_repr;
  repr_float_inj := plain_repr_inj
|}.

(** ** Float64 arithmetic *)

Lemma sequential_mean_empty (xs : list (option Q)) :
  dropna xs = [] -> sequential_mean xs = NotANumber.
Proof. unfold sequential_mean. now intros ->. Qed.

#[export] Instance sequential_float64 : Arithmetic := {|
  Series_mean := sequential_mean;
  Series_mean_empty := sequential_mean_empty
|}.

(** ** Frames *)

Lemma map_fst_combine {A B} (l : list A) (l' : list B) :
  List.length l = List.length l' -> map fst (combine l l') = l.
Proof.
  revert l'; induction l as [|a l IH]; intros [|b l']; simpl; intros H;
    try discriminate; [reflexivity|]. f_equal. apply IH. now inversion H.
Qed.

Lemma map_snd_combine {A B} (l : list A) (l' : list B) :
  List.length l = List.length l' -> map snd (combine l l') = l'.
Proof.
  revert l'; induction l as [|a l IH]; intros [|b l']; simpl; intros H;
    try discriminate; [reflexivity|]. f_equal. apply IH. now inversion H.
Qed.

Lemma set_columns_OK (df df' : DataFrame) (header : list string) :
  set_columns df header = OK df' ->
  columns df' = header /\ map snd (cols df') = map snd (cols df)
  /\ nrows df' = nrows df.
Proof.
  unfold set_columns, columns.
  destruct (Nat.eqb_spec (List.length header) (List.length (cols df)));
    intros H; inversion H; subst; clear H; simpl.
  assert (E : List.length header = List.length (map snd (cols df)))
    by now rewrite length_map.
  now rewrite (map_fst_combine _ _ E), (map_snd_combine _ _ E).
Qed.

Lemma set_columns_total (df : DataFrame) (header : list string) :
  List.length header = List.length (columns df) ->
  exists df', set_columns df header = OK df'.
Proof.
  unfold set_columns, columns. rewrite length_map. intros ->.
  rewrite Nat.eqb_refl. eauto.
Qed.

Lemma set_columns_mismatch (df : DataFrame) (header : list string) :
  List.length header <> List.length (columns df) ->
  set_columns df header = Raised ValueError.
Proof.
  unfold set_columns, columns. rewrite length_map. intros H.
  now apply Nat.eqb_neq in H as ->.
Qed.

(** C1.  On a loaded frame that [check_header] finds headerless, an empty
    [header] argument makes [preprocessing] return the message, never the
    list of arrays; a header that is not empty is assigned to [df.columns]
    (the assignment goes through when it has one name per column, and then
    the labels are exactly the header); a frame found to have a header
    keeps it whatever [header] is. *)
Theorem header_cases {L : Literals} {F : Arithmetic} (f : csv)
  (missing_values irrelevant_features chars categorical_features
     header : list string) (df : DataFrame) :
  pd_read_csv f missing_values = OK df ->
  (check_header df = false -> header = [] ->
   preprocessing f missing_values irrelevant_features chars
     categorical_features header
   = OK (Message
           "Error: the dataset has no header, please enter the columns names")
   /\ forall data label names,
       preprocessing f missing_values irrelevant_features chars
         categorical_features header <> OK (Datalist data label names))
  /\ (check_header df = false -> header <> [] ->
      preprocessing f missing_values irrelevant_features chars
        categorical_features header
      = (df' <- set_columns df header ;;
         clean df' irrelevant_features chars categorical_features)
      /\ (forall df', set_columns df header = OK df' ->
          columns df' = header /\ map snd (cols df') = map snd (cols df)
          /\ nrows df' = nrows df)
      /\ (List.length header = List.length (columns df) ->
          exists df', set_columns df header = OK df'))
  /\ (check_header df = true ->
      preprocessing f missing_values irrelevant_features chars
        categorical_features header
      = clean df irrelevant_features chars categorical_features).
Proof.
  intros Hload. unfold preprocessing, preprocess. rewrite Hload. simpl.
  split; [|split].
  - intros -> ->. simpl. split; [reflexivity | discriminate].
  - intros -> Hne. destruct header as [|h header]; [now elim Hne|]. simpl.
    split; [reflexivity|]. split.
    + intros df'. apply set_columns_OK.
    + apply (set_columns_total df (h :: header)).
  - now intros ->.
Qed.

Lemma header_cases_witness :
  preprocessing [["1"; "2"]; ["3"; "4"]] [] [] [] [] []
  = OK (Message
          "Error: the dataset has no header, please enter the columns names")
  /\ (exists df',
        set_columns
          (mkDataFrame 1 [("1", IntCol [3%Z]); ("2", IntCol [4%Z])])
          ["a"; "b"] = OK df')
  /\ preprocessing [["a"; "b"]; ["3"; "4"]] [] [] [] [] ["x"; "y"]
     = OK (Datalist (Arr2 1 1 [[Int 3]]) (Arr1 [Int 4]) ["a"; "b"]).
Proof.
  split; [|split].
  - apply (header_cases (L := plain_literals)
             [["1"; "2"]; ["3"; "4"]] [] [] [] [] []
             (mkDataFrame 1 [("1", IntCol [3%Z]); ("2", IntCol [4%Z])])
             eq_refl); reflexivity.
  - apply (header_cases (L := plain_literals)
             [["1"; "2"]; ["3"; "4"]] [] [] [] [] ["a"; "b"]
             (mkDataFrame 1 [("1", IntCol [3%Z]); ("2", IntCol [4%Z])])
             eq_refl); [reflexivity | discriminate | reflexivity].
  - rewrite (proj2 (proj2 (header_cases (L := plain_literals)
             [["a"; "b"]; ["3"; "4"]] [] [] [] []
             ["x"; "y"]
             (mkDataFrame 1 [("a", IntCol [3%Z]); ("b", IntCol [4%Z])])
             eq_refl)) eq_refl).
    reflexivity.
Defined.

(** ** Columns selected by their label *)

Lemma labelled_iff (f : string) (c : string * Series) :
  labelled f c = true <-> fst c = f.
Proof. unfold labelled. apply String.eqb_eq. Qed.

Lemma existsb_labelled (f : string) (l : list (string * Series)) :
  existsb (labelled f) l = true <-> In f (map fst l).
Proof.
  rewrite existsb_exists, in_map_iff. split.
  - intros (c & Hc & Hl). exists c. now apply labelled_iff in Hl.
  - intros (c & Hl & Hc). exists c. now apply labelled_iff in Hl.
Qed.

Lemma count_labelled (f : string) (l : list (string * Series)) :
  count_occ string_dec (map fst l) f = List.length (filter (labelled f) l).
Proof.
  induction l as [|c l IH]; simpl; [reflexivity|].
  unfold labelled at 1.
  destruct (string_dec (fst c) f) as [->|Hne].
  - rewrite String.eqb_refl. simpl. now rewrite IH.
  - apply String.eqb_neq in Hne as ->. exact IH.
Qed.

(** [df[f]] is one series exactly when one column carries the label. *)
Lemma getitem_single (df : DataFrame) (f : string) (sel : Selection)
  (s : Series) :
  getitem df f = OK sel -> single sel = OK s ->
  filter (labelled f) (cols df) = [(f, s)].
Proof.
  unfold getitem.
  destruct (filter (labelled f) (cols df)) as [|c [|c' l]] eqn:E;
    intros H; inversion H; subst; clear H; simpl; intros H; inversion H; subst.
  assert (Hc : In c (filter (labelled f) (cols df))) by (rewrite E; now left).
  apply filter_In in Hc as [_ Hc]. apply labelled_iff in Hc.
  destruct c; simpl in *; now subst.
Qed.

Lemma getitem_one (df : DataFrame) (f : string) (s : Series) :
  filter (labelled f) (cols df) = [(f, s)] ->
  getitem df f = OK (OneSeries s).
Proof. unfold getitem. now intros ->. Qed.

Lemma filter_labelled_NoDup (l : list (string * Series)) (f : string)
  (s : Series) :
  NoDup (map fst l) -> In (f, s) l -> filter (labelled f) l = [(f, s)].
Proof.
  induction l as [|c l IH]; simpl; intros Hnd Hin; [easy|].
  inversion Hnd as [|? ? Hnotin Hnd']; subst.
  destruct Hin as [->|Hin].
  - unfold labelled at 1; simpl. rewrite String.eqb_refl. f_equal.
    destruct (filter (labelled f) l) as [|c' l'] eqn:E; [reflexivity|].
    assert (Hc : In c' (filter (labelled f) l)) by (rewrite E; now left).
    apply filter_In in Hc as [Hc Hl]. apply labelled_iff in Hl.
    elim Hnotin. simpl. rewrite <- Hl. now apply in_map.
  - destruct (labelled f c) eqn:El.
    + apply labelled_iff in El. elim Hnotin. rewrite El.
      now apply (in_map fst l (f, s)).
    + now apply IH.
Qed.

Lemma one_each_NoDup (l : list (string * Series)) :
  (forall f, In f (map fst l) -> List.length (filter (labelled f) l) = 1) ->
  NoDup (map fst l).
Proof.
  intros H. apply (NoDup_count_occ' string_dec).
  intros f Hf. rewrite count_labelled. now apply H.
Qed.

(** Assigning to a label that is there keeps the labels. *)
Lemma setitem_present (df : DataFrame) (f : string) (s : Series) :
  In f (columns df) ->
  setitem df f s
  = mkDataFrame (nrows df)
      (map (fun c => if labelled f c then (fst c, s) else c) (cols df)).
Proof.
  unfold setitem, columns. intros H.
  now apply existsb_labelled in H as ->.
Qed.

Lemma map_relabel_fst (f : string) (s : Series) (l : list (string * Series)) :
  map fst (map (fun c => if labelled f c then (fst c, s) else c) l)
  = map fst l.
Proof.
  rewrite map_map. apply map_ext. intros c. now destruct (labelled f c).
Qed.

Lemma Forall2_map_weaken {A B} (h : A -> A) (R R' : A -> B -> Prop)
  (l : list A) (l' : list B) :
  (forall a b, In a l -> R (h a) b -> R' a b) ->
  Forall2 R (map h l) l' -> Forall2 R' l l'.
Proof.
  revert l'. induction l as [|a l IH]; simpl; intros l' Himp H;
    inversion H; subst; constructor; auto.
Qed.

Lemma Forall2_compose {A B C} (R1 : A -> B -> Prop) (R2 : B -> C -> Prop)
  (R3 : A -> C -> Prop) (l1 : list A) (l2 : list B) (l3 : list C) :
  (forall a b c, R1 a b -> R2 b c -> R3 a c) ->
  Forall2 R1 l1 l2 -> Forall2 R2 l2 l3 -> Forall2 R3 l1 l3.
Proof.
  intros Himp H12. revert l3. induction H12; intros l3 H23;
    inversion H23; subst; constructor; eauto.
Qed.

Lemma Forall2_fst_eq {B} (R : string * B -> string * B -> Prop)
  (l l' : list (string * B)) :
  Forall2 (fun c c' => fst c' = fst c /\ R c c') l l' ->
  map fst l' = map fst l.
Proof. induction 1 as [|c c' l l' [E _] _ IH]; simpl; congruence. Qed.

Lemma mentions_In (names : list string) (f : string) :
  mentions names f = true <-> In f names.
Proof.
  unfold mentions. rewrite existsb_exists. split.
  - intros (g & Hg & E). now apply String.eqb_eq in E as ->.
  - intros H. exists f. split; [exact H | apply String.eqb_refl].
Qed.

Lemma update_columns_spec (g : Series -> result Series) (names : list string) :
  NoDup names ->
  forall df df',
  for_each (update_column g) names df = OK df' ->
  nrows df' = nrows df
  /\ Forall2 (fun c c' => fst c' = fst c
                /\ if mentions names (fst c) then g (snd c) = OK (snd c')
                   else snd c' = snd c) (cols df) (cols df').
Proof.
  induction names as [|f rest IH]; intros Hnd df df' H; simpl in H.
  - inversion H; subst. split; [reflexivity|].
    induction (cols df'); constructor; [now split | assumption].
  - inversion Hnd as [|? ? Hnotin Hnd']; subst.
    apply bind_OK in H as (df1 & H1 & H).
    unfold update_column in H1.
    apply bind_OK in H1 as (sel & Hsel & H1).
    apply bind_OK in H1 as (s & Hs & H1).
    apply bind_OK in H1 as (s' & Hg & H1).
    inversion H1; subst df1; clear H1.
    pose proof (getitem_single _ _ _ _ Hsel Hs) as Hone.
    assert (Hf : In f (columns df)).
    { unfold columns. apply existsb_labelled. apply existsb_exists.
      exists (f, s). split; [|apply String.eqb_refl].
      eapply proj1, filter_In. rewrite Hone. now left. }
    rewrite (setitem_present _ _ _ Hf) in H.
    destruct (IH Hnd' _ _ H) as [Hrows Hcols]. simpl in Hrows, Hcols.
    split; [exact Hrows|].
    eapply Forall2_map_weaken; [|exact Hcols].
    intros c c' Hc. simpl.
    unfold mentions; simpl.
    destruct (labelled f c) eqn:El; simpl.
    + apply labelled_iff in El.
      assert (Ec : c = (f, s)).
      { assert (Hin : In c (filter (labelled f) (cols df)))
          by (apply filter_In; split; [exact Hc | now apply labelled_iff]).
        rewrite Hone in Hin. destruct Hin as [<-|[]]. reflexivity. }
      subst c; simpl. rewrite String.eqb_refl; simpl.
      destruct (existsb (String.eqb f) rest) eqn:Em.
      * apply (proj1 (mentions_In rest f)) in Em. now elim Hnotin.
      * intros [E1 E2]. split; [exact E1 | now rewrite E2].
    + unfold labelled in El. rewrite El. simpl. tauto.
Qed.

(** ** Levels and the most frequent value *)

Section LevelFacts.
Context {A : Type} (eqb leb : A -> A -> bool).
Hypothesis eqb_spec : forall x y, reflect (x = y) (eqb x y).

Lemma insert_sorted_In (x y : A) (l : list A) :
  In y (insert_sorted leb x l) <-> y = x \/ In y l.
Proof.
  induction l as [|z l IH]; simpl; [intuition|].
  destruct (leb x z); simpl; [intuition|]. rewrite IH. intuition.
Qed.

Lemma sort_In (y : A) (l : list A) : In y (sort leb l) <-> In y l.
Proof.
  induction l as [|x l IH]; simpl; [tauto|].
  rewrite insert_sorted_In, IH. intuition.
Qed.

Lemma insert_sorted_length (x : A) (l : list A) :
  List.length (insert_sorted leb x l) = S (List.length l).
Proof.
  induction l as [|z l IH]; simpl; [reflexivity|].
  destruct (leb x z); simpl; congruence.
Qed.

Lemma sort_length (l : list A) : List.length (sort leb l) = List.length l.
Proof.
  induction l as [|x l IH]; simpl; [reflexivity|].
  now rewrite insert_sorted_length, IH.
Qed.

Lemma insert_sorted_NoDup (x : A) (l : list A) :
  ~ In x l -> NoDup l -> NoDup (insert_sorted leb x l).
Proof.
  induction l as [|z l IH]; simpl; intros Hx Hnd.
  - constructor; [easy | constructor].
  - destruct (leb x z).
    + constructor; [exact Hx | exact Hnd].
    + inversion Hnd; subst. constructor.
      * rewrite insert_sorted_In. intuition.
      * apply IH; [intuition | assumption].
Qed.

Lemma sort_NoDup (l : list A) : NoDup l -> NoDup (sort leb l).
Proof.
  induction 1 as [|x l Hx Hnd IH]; simpl; [constructor|].
  apply insert_sorted_NoDup; [now rewrite sort_In | exact IH].
Qed.

Lemma dedup_In (y : A) (l : list A) : In y (dedup eqb l) <-> In y l.
Proof.
  induction l as [|x l IH]; simpl; [tauto|].
  rewrite filter_In, IH. split.
  - intuition.
  - intros [->|H]; [now left|].
    destruct (eqb_spec x y) as [->|Hne]; [now left | right; now split].
Qed.

Lemma dedup_NoDup (l : list A) : NoDup (dedup eqb l).
Proof.
  induction l as [|x l IH]; simpl; constructor.
  - rewrite filter_In. intros [_ H].
    destruct (eqb_spec x x); [discriminate | congruence].
  - now apply NoDup_filter.
Qed.

Lemma levels_In (y : A) (l : list A) : In y (levels eqb leb l) <-> In y l.
Proof. unfold levels. now rewrite sort_In, dedup_In. Qed.

Lemma levels_NoDup (l : list A) : NoDup (levels eqb leb l).
Proof. apply sort_NoDup, dedup_NoDup. Qed.

Lemma occurrences_absent (w : A) (l : list A) :
  ~ In w l -> occurrences eqb w l = 0.
Proof.
  unfold occurrences. induction l as [|x l IH]; simpl; intros H; [reflexivity|].
  destruct (eqb_spec w x) as [->|_]; [elim H; now left|].
  apply IH. intuition.
Qed.

Lemma list_max_In (l : list nat) : l <> [] -> In (list_max l) l.
Proof.
  induction l as [|x l IH]; [easy|]. intros _.
  destruct l as [|y l]; [left; simpl; lia|].
  change (list_max (x :: y :: l)) with (Nat.max x (list_max (y :: l))).
  destruct (Nat.max_spec x (list_max (y :: l))) as [[_ ->]|[_ ->]];
    [right; now apply IH | now left].
Qed.

(** The first mode is a value of the column that no other value beats. *)
Lemma mode_head (l : list A) (v : A) (r : list A) :
  mode eqb leb l = v :: r ->
  In v l /\ forall w, occurrences eqb w l <= occurrences eqb v l.
Proof.
  unfold mode. intros H.
  assert (Hv : In v (filter (fun x => occurrences eqb x l =?
       list_max (map (fun x => occurrences eqb x l) (levels eqb leb l)))
       (levels eqb leb l))) by (rewrite H; now left).
  apply filter_In in Hv as [Hv Hm]. apply Nat.eqb_eq in Hm.
  split; [exact (proj1 (levels_In v l) Hv)|].
  intros w. destruct (in_dec (fun x y => reflect_dec _ _ (eqb_spec x y)) w l)
    as [Hw|Hw].
  - rewrite Hm.
    pose proof (proj1 (list_max_le (map (fun x => occurrences eqb x l)
                  (levels eqb leb l)) _) (le_n _)) as Hall.
    rewrite Forall_forall in Hall. apply Hall.
    apply in_map_iff. exists w. split; [reflexivity | now apply levels_In].
  - rewrite (occurrences_absent w l Hw). lia.
Qed.

Lemma mode_nil (l : list A) : mode eqb leb l = [] <-> l = [].
Proof.
  split; [|now intros ->].
  destruct l as [|x l]; [reflexivity|]. intros H. exfalso.
  assert (Hne : map (fun y => occurrences eqb y (x :: l))
                  (levels eqb leb (x :: l)) <> []).
  { intros E. apply map_eq_nil in E.
    assert (Hx : In x (levels eqb leb (x :: l))) by (apply levels_In; now left).
    now rewrite E in Hx. }
  apply list_max_In, in_map_iff in Hne as (y & Hy & Hin).
  assert (Hf : In y (mode eqb leb (x :: l))).
  { unfold mode. apply filter_In. split; [exact Hin | now apply Nat.eqb_eq]. }
  now rewrite H in Hf.
Qed.
End LevelFacts.

(** ** Rounding, the mean, filling *)

Lemma py_round_nearest (x : Q) : nearest (py_round x) x.
Proof.
  intros k.
  pose proof (Qfloor_le x) as Hlo. pose proof (Qlt_floor x) as Hhi.
  rewrite inject_Z_plus in Hhi.
  assert (Hup : (x - inject_Z k <= Qabs (x - inject_Z k))%Q)
    by apply Qle_Qabs.
  assert (Hdn : (inject_Z k - x <= Qabs (x - inject_Z k))%Q).
  { rewrite <- Qabs_opp.
    setoid_replace (- (x - inject_Z k))%Q with (inject_Z k - x)%Q by ring.
    apply Qle_Qabs. }
  assert (Hk : (inject_Z k <= inject_Z (Qfloor x)
                \/ inject_Z (Qfloor x) + inject_Z 1 <= inject_Z k)%Q).
  { destruct (Z_le_gt_dec k (Qfloor x)) as [H|H].
    - left. now rewrite <- Zle_Qle.
    - right. rewrite <- inject_Z_plus, <- Zle_Qle. lia. }
  change (inject_Z 1) with 1%Q in *.
  unfold py_round.
  destruct (Qcompare_spec (x - inject_Z (Qfloor x)) (1 # 2)) as [E|E|E].
  - destruct (Z.even (Qfloor x)); rewrite ?inject_Z_plus;
      change (inject_Z 1) with 1%Q;
      apply Qabs_Qle_condition; split; destruct Hk; lra.
  - apply Qabs_Qle_condition; split; destruct Hk; lra.
  - rewrite inject_Z_plus. change (inject_Z 1) with 1%Q.
    apply Qabs_Qle_condition; split; destruct Hk; lra.
Qed.

(** A mean that is a number is the mean of some value. *)
Lemma finite_mean_present {F : Arithmetic} (xs : list (option Q)) (m : Q) :
  Series_mean xs = Finite m -> dropna xs <> [].
Proof.
  intros H E. rewrite (Series_mean_empty xs E) in H. discriminate H.
Qed.

Lemma fillna_fills {A} (v : A) (xs : list (option A)) :
  Forall2 (fills v) xs (fillna xs v).
Proof.
  induction xs as [|x xs IH]; simpl; constructor; [|exact IH].
  unfold fills. now destruct x.
Qed.

Lemma string_eqb_reflect (x y : string) : reflect (x = y) (String.eqb x y).
Proof. apply String.eqb_spec. Qed.

Lemma bool_eqb_reflect (x y : bool) : reflect (x = y) (Bool.eqb x y).
Proof. apply Bool.eqb_spec. Qed.

Lemma Z_eqb_reflect (x y : Z) : reflect (x = y) (Z.eqb x y).
Proof. apply Z.eqb_spec. Qed.

(** Lines 84-88 do to a column what the specification says. *)
Lemma fill_column_imputed {F : Arithmetic} (s s' : Series) :
  fill_column s = OK s' -> imputed s s'.
Proof.
  destruct s as [xs|xs|xs|xs|xs]; simpl.
  - destruct (Series_mean xs) as [m| |] eqn:E; intros H; inversion H; subst.
    eapply imputed_float; [exact E
                          | apply py_round_nearest | apply fillna_fills].
  - destruct (mode Z.eqb Z.leb xs) eqn:E; intros H; inversion H; subst.
    apply imputed_int. intros ->. discriminate E.
  - destruct (mode Bool.eqb bool_leb xs) eqn:E; intros H; inversion H; subst.
    apply imputed_bool. intros ->. discriminate E.
  - destruct (mode String.eqb String.leb (dropna xs)) as [|v r] eqn:E;
      intros H; inversion H; subst.
    eapply imputed_str; [|apply fillna_fills].
    exact (mode_head _ _ string_eqb_reflect _ _ _ E).
  - destruct (mode Bool.eqb bool_leb (dropna xs)) as [|v r] eqn:E;
      intros H; inversion H; subst.
    eapply imputed_objbool; [|apply fillna_fills].
    exact (mode_head _ _ bool_eqb_reflect _ _ _ E).
Qed.

(** ** Sizes are kept *)

Lemma Series_values_length (s : Series) :
  List.length (Series_values s) = size s.
Proof. destruct s; simpl; apply length_map. Qed.

Lemma drop_OK (df df' : DataFrame) (f : string) :
  drop df f = OK df' ->
  In f (columns df) /\ nrows df' = nrows df
  /\ cols df' = filter (fun c => negb (labelled f c)) (cols df).
Proof.
  unfold drop. destruct (existsb (labelled f) (cols df)) eqn:E;
    intros H; inversion H; subst; simpl.
  split; [now apply existsb_labelled|]. now split.
Qed.

Lemma drop_frame_ok (df df' : DataFrame) (f : string) :
  frame_ok df -> drop df f = OK df' -> frame_ok df'.
Proof.
  unfold frame_ok. intros Hok H. apply drop_OK in H as (_ & -> & ->).
  apply Forall_forall. intros c Hc. apply filter_In in Hc as [Hc _].
  revert c Hc. now apply Forall_forall.
Qed.

Lemma drop_total (df : DataFrame) (f : string) :
  In f (columns df) -> exists df', drop df f = OK df'.
Proof.
  unfold drop, columns. intros H. apply existsb_labelled in H as ->. eauto.
Qed.

Lemma setitem_frame_ok (df : DataFrame) (f : string) (s : Series) :
  frame_ok df -> size s = nrows df -> frame_ok (setitem df f s).
Proof.
  unfold frame_ok, setitem. intros Hok Hs.
  destruct (existsb (labelled f) (cols df)); simpl.
  - apply Forall_forall. intros c Hc. apply in_map_iff in Hc as (c0 & <- & Hc0).
    destruct (labelled f c0); [exact Hs|].
    revert c0 Hc0. now apply Forall_forall.
  - apply Forall_app. split; [exact Hok | now constructor].
Qed.

Lemma setitem_nrows (df : DataFrame) (f : string) (s : Series) :
  nrows (setitem df f s) = nrows df.
Proof. unfold setitem. now destruct (existsb (labelled f) (cols df)). Qed.

Lemma Series_str_replace_size (s s' : Series) (c : string) :
  Series_str_replace s c = OK s' -> size s' = size s.
Proof.
  destruct s as [xs|xs|xs|xs|xs]; simpl; try discriminate.
  - intros H; inversion H; subst; simpl. apply length_map.
  - destruct (dropna xs); intros H; inversion H; now subst.
Qed.

Lemma fills_no_gap {A} (f : A -> scalar) (v : A) (xs ys : list (option A)) :
  (forall a, f a <> NaN) ->
  Forall2 (fills v) xs ys -> ~ In NaN (map (wrap f) ys).
Proof.
  intros Hf. induction 1 as [|x y xs ys Hxy _ IH]; simpl; [tauto|].
  intros [E|E]; [|now apply IH].
  unfold fills in Hxy. subst y. simpl in E. now apply Hf in E.
Qed.

Lemma constructor_not_NaN {A} (f : A -> scalar) (l : list A) :
  (forall a, f a <> NaN) -> ~ In NaN (map f l).
Proof.
  intros Hf H. apply in_map_iff in H as (a & E & _). now apply Hf in E.
Qed.

Lemma imputed_complete {F : Arithmetic} (s s' : Series) :
  imputed s s' -> complete s'.
Proof.
  unfold complete.
  destruct 1; simpl;
    try (eapply fills_no_gap; [|eassumption]; discriminate);
    apply constructor_not_NaN; discriminate.
Qed.

Lemma imputed_size {F : Arithmetic} (s s' : Series) :
  imputed s s' -> size s' = size s.
Proof.
  destruct 1; simpl; try reflexivity; symmetry;
    eapply Forall2_length; eassumption.
Qed.

(** A loop of updates goes through only when each label it names is carried
    by one column. *)
Lemma update_columns_one_each (g : Series -> result Series)
  (names : list string) :
  forall df df',
  for_each (update_column g) names df = OK df' ->
  forall f, In f names -> List.length (filter (labelled f) (cols df)) = 1.
Proof.
  induction names as [|f0 rest IH]; intros df df' H f Hf; [easy|].
  simpl in H. apply bind_OK in H as (df1 & H1 & H).
  unfold update_column in H1.
  apply bind_OK in H1 as (sel & Hsel & H1).
  apply bind_OK in H1 as (s & Hs & H1).
  apply bind_OK in H1 as (s' & Hg & H1).
  inversion H1; subst df1; clear H1.
  pose proof (getitem_single _ _ _ _ Hsel Hs) as Hone.
  destruct Hf as [->|Hf]; [now rewrite Hone|].
  assert (Hf0 : In f0 (columns df)).
  { unfold columns. apply existsb_labelled. apply existsb_exists.
    exists (f0, s). split; [|apply String.eqb_refl].
    eapply proj1, filter_In. rewrite Hone. now left. }
  rewrite (setitem_present _ _ _ Hf0) in H.
  specialize (IH _ _ H f Hf). simpl in IH.
  now rewrite <- count_labelled, map_relabel_fst, count_labelled in IH.
Qed.

Lemma fill_missing_NoDup {F : Arithmetic} (df df' : DataFrame) :
  fill_missing (columns df) df = OK df' -> NoDup (columns df).
Proof.
  intros H. apply one_each_NoDup.
  exact (update_columns_one_each fill_column _ _ _ H).
Qed.

Lemma fill_missing_imputed {F : Arithmetic} (df df' : DataFrame) :
  fill_missing (columns df) df = OK df' ->
  nrows df' = nrows df
  /\ Forall2 (fun c c' => fst c' = fst c /\ imputed (snd c) (snd c'))
       (cols df) (cols df').
Proof.
  intros H. pose proof (fill_missing_NoDup _ _ H) as Hnd.
  destruct (update_columns_spec fill_column _ Hnd _ _ H) as [Hrows Hcols].
  split; [exact Hrows|].
  rewrite <- (map_id (cols df)) in Hcols.
  eapply Forall2_map_weaken; [|exact Hcols].
  intros c c' Hc [E Hg]. split; [exact E|].
  apply fill_column_imputed.
  rewrite (proj2 (mentions_In (columns df) (fst c))) in Hg; [exact Hg|].
  now apply in_map.
Qed.

(** ** Lines 77-80 *)

Lemma existsb_filter {A} (p q : A -> bool) (l : list A) :
  existsb (fun c => p c && q c) l = existsb q (filter p l).
Proof.
  induction l as [|a l IH]; simpl; [reflexivity|].
  destruct (p a); simpl; now rewrite IH.
Qed.

Lemma str_features_OK (df : DataFrame) (names fs : list string) :
  str_features df names = OK fs ->
  (forall f, In f names -> List.length (filter (labelled f) (cols df)) = 1)
  /\ fs = filter (object_label df) names.
Proof.
  revert fs. induction names as [|f rest IH]; intros fs H; simpl in H.
  - inversion H. now split.
  - apply bind_OK in H as (sel & Hsel & H).
    apply bind_OK in H as (s & Hs & H).
    apply bind_OK in H as (r & Hr & H).
    inversion H; subst fs; clear H.
    destruct (IH r Hr) as [Hone ->].
    pose proof (getitem_single _ _ _ _ Hsel Hs) as Hf.
    assert (Ho : object_label df f = dtype_is_object s).
    { unfold object_label. rewrite existsb_filter, Hf. simpl.
      apply orb_false_r. }
    split.
    + intros g [<-|Hg]; [now rewrite Hf | now apply Hone].
    + cbn [filter]. now rewrite Ho.
Qed.

Lemma str_features_NoDup (df : DataFrame) (fs : list string) :
  str_features df (columns df) = OK fs ->
  NoDup (columns df) /\ NoDup fs.
Proof.
  intros H. apply str_features_OK in H as [Hone ->].
  assert (Hnd : NoDup (columns df)) by now apply one_each_NoDup.
  split; [exact Hnd | now apply NoDup_filter].
Qed.

Lemma for_each_body_impl {S A} (body body' : S -> A -> result S) :
  (forall st x st', body st x = OK st' -> body' st x = OK st') ->
  forall xs st st', for_each body xs st = OK st' ->
                    for_each body' xs st = OK st'.
Proof.
  intros Himp xs. induction xs as [|x rest IH]; simpl; intros st st' H;
    [exact H|].
  apply bind_OK in H as (st1 & H1 & H).
  rewrite (Himp _ _ _ H1). simpl. now apply IH.
Qed.

Lemma strip_feature_update (c : string) (df : DataFrame) (f : string)
  (df' : DataFrame) :
  strip_feature c df f = OK df' ->
  update_column (fun s => Series_str_replace s c) df f = OK df'.
Proof.
  unfold strip_feature, update_column.
  destruct (getitem df f) as [[s|d]|e]; simpl; [tauto | discriminate ..].
Qed.

(** Lines 78-80: the columns named in [features] go through
    [str.replace] once for every string of [chars], in order; the other
    columns stay. *)
Lemma remove_chars_spec (features : list string) :
  NoDup features ->
  forall chars df df',
  remove_chars chars features df = OK df' ->
  nrows df' = nrows df
  /\ Forall2 (fun c c' => fst c' = fst c
                /\ if mentions features (fst c)
                   then for_each Series_str_replace chars (snd c)
                        = OK (snd c')
                   else snd c' = snd c) (cols df) (cols df').
Proof.
  intros Hnd. unfold remove_chars.
  induction chars as [|c rest IH]; simpl; intros df df' H.
  - inversion H; subst. split; [reflexivity|].
    induction (cols df') as [|a l IHl]; constructor; [|exact IHl].
    split; [reflexivity|]. now destruct (mentions features (fst a)).
  - apply bind_OK in H as (df1 & H1 & H).
    apply (for_each_body_impl _ _ (strip_feature_update c)) in H1.
    destruct (update_columns_spec _ _ Hnd _ _ H1) as [Hr1 Hc1].
    destruct (IH _ _ H) as [Hr2 Hc2].
    split; [congruence|].
    eapply Forall2_compose; [|exact Hc1|exact Hc2].
    intros a b d [E1 H1'] [E2 H2']. simpl in *.
    split; [congruence|]. rewrite E1 in H2'.
    destruct (mentions features (fst a)); [|congruence].
    rewrite H1'. simpl. exact H2'.
Qed.

Lemma for_each_str_replace_size (chars : list string) :
  forall s s', for_each Series_str_replace chars s = OK s' -> size s' = size s.
Proof.
  induction chars as [|c rest IH]; simpl; intros s s' H.
  - now inversion H.
  - apply bind_OK in H as (s1 & H1 & H).
    rewrite (IH _ _ H). now apply Series_str_replace_size in H1.
Qed.

Lemma Forall2_keeps {A} (P : A -> Prop) (R : A -> A -> Prop) (l l' : list A) :
  (forall a b, P a -> R a b -> P b) ->
  Forall2 R l l' -> Forall P l -> Forall P l'.
Proof.
  intros Himp. induction 1; intros HP; inversion HP; subst; constructor;
    eauto.
Qed.

Lemma remove_chars_frame_ok (chars features : list string)
  (df df' : DataFrame) :
  NoDup features -> frame_ok df ->
  remove_chars chars features df = OK df' ->
  frame_ok df' /\ nrows df' = nrows df /\ columns df' = columns df.
Proof.
  intros Hnd Hok H.
  destruct (remove_chars_spec _ Hnd _ _ _ H) as [Hr Hc].
  split; [|split; [exact Hr|]].
  - unfold frame_ok in *. rewrite Hr.
    eapply Forall2_keeps; [|exact Hc|exact Hok].
    intros a b Ha [_ Hb]. simpl in *.
    destruct (mentions features (fst a)); [|congruence].
    apply for_each_str_replace_size in Hb. congruence.
  - unfold columns. eapply Forall2_fst_eq. exact Hc.
Qed.

(** ** Lines 91-104 *)

Lemma getitem_OK (df : DataFrame) (f : string) (sel : Selection) :
  getitem df f = OK sel ->
  match sel with
  | OneSeries s => filter (labelled f) (cols df) = [(f, s)]
  | Frame d => nrows d = nrows df /\ cols d = filter (labelled f) (cols df)
                /\ 2 <= List.length (cols d)
  end.
Proof.
  intros H. destruct sel as [s|d].
  - now apply (getitem_single df f (OneSeries s) s).
  - unfold getitem in H.
    destruct (filter (labelled f) (cols df)) as [|c [|c' l]];
      inversion H; subst. simpl. repeat split. lia.
Qed.

Lemma indicator_columns_entries {A} (eqb leb : A -> A -> bool)
  (repr : A -> string) (prefix : string) (cells : list (option A))
  (c : string * Series) :
  In c (indicator_columns eqb leb repr prefix cells) ->
  exists bs, snd c = BoolCol bs /\ List.length bs = List.length cells.
Proof.
  unfold indicator_columns. intros H.
  apply in_map_iff in H as (l & <- & _). simpl.
  eexists. split; [reflexivity | apply length_map].
Qed.

Lemma get_dummies_1d_entries {L : Literals} (s : Series) (prefix : string)
  (c : string * Series) :
  In c (get_dummies_1d s prefix) ->
  exists bs, snd c = BoolCol bs /\ List.length bs = size s.
Proof.
  destruct s as [xs|xs|xs|xs|xs]; simpl; intros H;
    apply indicator_columns_entries in H as (bs & E & Hl);
    exists bs; (split; [exact E|]); rewrite Hl, ?length_map; reflexivity.
Qed.

Lemma pd_get_dummies_entries {L : Literals} (df : DataFrame) (f : string)
  (sel : Selection) (c : string * Series) :
  frame_ok df -> getitem df f = OK sel ->
  In c (cols (pd_get_dummies sel f)) ->
  In c (cols df)
  \/ exists bs, snd c = BoolCol bs /\ List.length bs = nrows df.
Proof.
  unfold frame_ok. rewrite Forall_forall. intros Hok Hsel Hc.
  apply getitem_OK in Hsel. destruct sel as [s|d]; simpl in Hc.
  - right. apply get_dummies_1d_entries in Hc as (bs & E & Hl).
    exists bs. split; [exact E|]. rewrite Hl.
    apply (Hok (f, s)). eapply proj1, filter_In. rewrite Hsel. now left.
  - destruct Hsel as (_ & Hd & _). rewrite Hd in Hc.
    apply in_app_iff in Hc as [Hc|Hc].
    + left. apply filter_In in Hc as [Hc _]. now apply filter_In in Hc.
    + right. apply in_flat_map in Hc as (c0 & Hc0 & Hc).
      apply filter_In in Hc0 as [Hc0 _]. apply filter_In in Hc0 as [Hc0 _].
      apply get_dummies_1d_entries in Hc as (bs & E & Hl).
      exists bs. split; [exact E|]. rewrite Hl. now apply Hok.
Qed.

(** Encoding keeps the rows; a column of the result is an old column or an
    indicator column with one boolean per row. *)
Lemma encode_feature_cols {L : Literals} (df df' : DataFrame) (f : string) :
  frame_ok df -> encode_feature df f = OK df' ->
  nrows df' = nrows df
  /\ forall c, In c (cols df') ->
       In c (cols df)
       \/ exists bs, snd c = BoolCol bs /\ List.length bs = nrows df.
Proof.
  intros Hok H. unfold encode_feature in H.
  apply bind_OK in H as (sel & Hsel & H).
  apply bind_OK in H as (df1 & H1 & H).
  apply bind_OK in H as (d0 & _ & H).
  apply drop_OK in H1 as (_ & Hr1 & Hc1).
  apply drop_OK in H as (_ & Hr2 & Hc2).
  simpl in Hr1. split; [congruence|].
  intros c Hc. rewrite Hc2 in Hc. apply filter_In in Hc as [Hc _].
  rewrite Hc1 in Hc. apply filter_In in Hc as [Hc _]. simpl in Hc.
  apply in_app_iff in Hc as [Hc|Hc]; [now left|].
  now apply (pd_get_dummies_entries df f sel).
Qed.

Lemma tidy_frame_ok (n : nat) (df : DataFrame) : tidy n df -> frame_ok df.
Proof.
  unfold tidy, frame_ok. intros [-> H].
  eapply Forall_impl; [|exact H]. now intros c [Hc _].
Qed.

Lemma encode_feature_tidy {L : Literals} (n : nat) (df : DataFrame)
  (f : string) (df' : DataFrame) :
  tidy n df -> encode_feature df f = OK df' -> tidy n df'.
Proof.
  intros Ht H. pose proof (tidy_frame_ok _ _ Ht) as Hok.
  destruct (encode_feature_cols _ _ _ Hok H) as [Hr Hc].
  destruct Ht as [Hn Hall]. split; [congruence|].
  apply Forall_forall. intros c Hin.
  destruct (Hc c Hin) as [Hold|(bs & E & Hl)].
  - exact (proj1 (Forall_forall _ _) Hall c Hold).
  - rewrite E. simpl. split; [congruence|].
    unfold complete. simpl. apply constructor_not_NaN. discriminate.
Qed.

Lemma separate_OK (df : DataFrame) (out : returned) :
  separate df = OK out ->
  exists l sel rest,
    last_item (columns df) = OK l /\ getitem df l = OK sel
    /\ drop df l = OK rest
    /\ out = Datalist (DataFrame_to_numpy rest) (to_numpy sel) (columns df).
Proof.
  unfold separate. intros H.
  apply bind_OK in H as (l & Hl & H).
  apply bind_OK in H as (sel & Hsel & H).
  apply bind_OK in H as (rest & Hrest & H).
  inversion H; subst. now exists l, sel, rest.
Qed.

(** The common dtype of a matrix turns no value into a missing one. *)
Lemma upcast_NaN (cs : list (string * Series)) (x : scalar) :
  (if upcast_to_float cs then as_float64 else fun x => x) x = NaN -> x = NaN.
Proof. destruct (upcast_to_float cs), x; simpl; congruence. Qed.

Lemma to_numpy_no_nan (n : nat) (df : DataFrame) :
  tidy n df -> no_nan (DataFrame_to_numpy df).
Proof.
  intros [Hn Hall]. simpl. apply Forall_forall. intros r Hr.
  apply in_map_iff in Hr as (i & <- & Hi). apply in_seq in Hi.
  intros Hnan. apply in_map_iff in Hnan as (c & E & Hc).
  apply upcast_NaN in E.
  rewrite Forall_forall in Hall. destruct (Hall c Hc) as [Hs Hcomp].
  apply Hcomp. rewrite <- E. apply nth_In.
  rewrite Series_values_length. lia.
Qed.

Lemma tidy_drop (n : nat) (df df' : DataFrame) (f : string) :
  tidy n df -> drop df f = OK df' -> tidy n df'.
Proof.
  intros [Hn Hall] H. apply drop_OK in H as (_ & Hr & Hc).
  split; [congruence|]. rewrite Hc.
  apply Forall_forall. intros c Hin. apply filter_In in Hin as [Hin _].
  revert c Hin. now apply Forall_forall.
Qed.

(** What [separate] returns from a tidy frame. *)
Lemma separate_tidy (n : nat) (df : DataFrame) (data label : ndarray)
  (names : list string) :
  tidy n df -> separate df = OK (Datalist data label names) ->
  names = columns df /\ len data = n /\ len label = n
  /\ no_nan data /\ no_nan label.
Proof.
  intros Ht H.
  apply separate_OK in H as (l & sel & rest & Hl & Hsel & Hrest & E).
  inversion E; subst; clear E.
  pose proof (tidy_drop _ _ _ _ Ht Hrest) as Htr.
  split; [reflexivity|]. split; [exact (proj1 Htr)|].
  apply getitem_OK in Hsel. destruct Ht as [Hn Hall].
  rewrite Forall_forall in Hall.
  destruct sel as [s|d].
  - assert (Hs : In (l, s) (cols df))
      by (eapply proj1, filter_In; rewrite Hsel; now left).
    destruct (Hall _ Hs) as [Hsz Hcomp]. simpl in *.
    unfold len. simpl. rewrite Series_values_length.
    split; [exact Hsz|]. split; [now apply (to_numpy_no_nan n)|exact Hcomp].
  - destruct Hsel as (Hrd & Hcd & _).
    assert (Htd : tidy n d).
    { split; [congruence|]. rewrite Hcd. apply Forall_forall.
      intros c Hc. apply filter_In in Hc as [Hc _]. now apply Hall. }
    unfold len. simpl. split; [exact (proj1 Htd)|].
    split; [now apply (to_numpy_no_nan n) | now apply (to_numpy_no_nan n d)].
Qed.

(** ** The stages of [clean] *)

Lemma drops_frame_ok (irrelevant_features : list string)
  (df df1 : DataFrame) :
  frame_ok df -> for_each drop irrelevant_features df = OK df1 ->
  frame_ok df1 /\ nrows df1 = nrows df.
Proof.
  intros Hok H.
  apply (for_each_invariant
           (fun st => frame_ok st /\ nrows st = nrows df) drop)
    with (xs := irrelevant_features) (st := df); [|now split|exact H].
  intros st f st' [Hst Hn] Hd. split; [now apply (drop_frame_ok st st' f)|].
  apply drop_OK in Hd as (_ & Hr & _). congruence.
Qed.

Lemma to_numpy_well_shaped (df : DataFrame) :
  well_shaped (DataFrame_to_numpy df).
Proof.
  simpl. split; [now rewrite length_map, length_seq|].
  apply Forall_forall. intros r Hr. apply in_map_iff in Hr as (i & <- & _).
  apply length_map.
Qed.

(** A run of [clean] that returns went through a tidy frame just before
    the split. *)
Lemma clean_tidy {L : Literals} {F : Arithmetic} (df : DataFrame)
  (irrelevant_features chars categorical_features : list string)
  (out : returned) :
  frame_ok df ->
  clean df irrelevant_features chars categorical_features = OK out ->
  exists dropped encoded,
    for_each drop irrelevant_features df = OK dropped
    /\ nrows dropped = nrows df
    /\ tidy (nrows df) encoded /\ separate encoded = OK out.
Proof.
  intros Hok H. unfold clean in H.
  apply bind_OK in H as (df1 & H1 & H).
  apply bind_OK in H as (fs & Hfs & H).
  apply bind_OK in H as (df2 & H2 & H).
  apply bind_OK in H as (df3 & H3 & H).
  apply bind_OK in H as (df4 & H4 & H).
  destruct (drops_frame_ok _ _ _ Hok H1) as [Hok1 Hr1].
  destruct (str_features_NoDup _ _ Hfs) as [Hnd1 Hndfs].
  destruct (remove_chars_frame_ok _ _ _ _ Hndfs Hok1 H2) as (Hok2 & Hr2 & Hc2).
  rewrite <- Hc2 in H3.
  destruct (fill_missing_imputed _ _ H3) as [Hr3 Hc3].
  assert (Ht3 : tidy (nrows df) df3).
  { split; [congruence|].
    assert (Hall2 : Forall (fun c => size (snd c) = nrows df) (cols df2))
      by (unfold frame_ok in Hok2; now rewrite Hr2, Hr1 in Hok2).
    clear - Hc3 Hall2. induction Hc3 as [|c c' l l' [_ Hi] _ IH];
      constructor; inversion Hall2; subst; auto.
    split; [now rewrite (imputed_size _ _ Hi)|].
    now apply (imputed_complete (snd c)). }
  exists df1, df4. repeat split; try assumption.
  - apply (for_each_invariant (tidy (nrows df)) encode_feature)
      with (xs := categorical_features) (st := df3); try assumption.
    intros st f st'. apply encode_feature_tidy.
  - apply (for_each_invariant (tidy (nrows df)) encode_feature)
      with (xs := categorical_features) (st := df3); try assumption.
    intros st f st'. apply encode_feature_tidy.
Qed.

Lemma set_columns_frame_ok (df df' : DataFrame) (header : list string) :
  frame_ok df -> set_columns df header = OK df' ->
  frame_ok df' /\ nrows df' = nrows df.
Proof.
  intros Hok H. apply set_columns_OK in H as (_ & Hs & Hr).
  split; [|exact Hr]. unfold frame_ok in *. rewrite Hr.
  apply (Forall_map snd (fun s => size s = nrows df)). rewrite Hs.
  now apply Forall_map.
Qed.

(** The same for lines 61-104. *)
Lemma preprocess_tidy {L : Literals} {F : Arithmetic} (df : DataFrame)
  (irrelevant_features chars categorical_features header : list string)
  (data label : ndarray) (names : list string) :
  frame_ok df ->
  preprocess df irrelevant_features chars categorical_features header
  = OK (Datalist data label names) ->
  exists named dropped encoded,
    (named = df \/ set_columns df header = OK named)
    /\ for_each drop irrelevant_features named = OK dropped
    /\ nrows dropped = nrows df
    /\ tidy (nrows df) encoded
    /\ separate encoded = OK (Datalist data label names).
Proof.
  intros Hok H. unfold preprocess in H.
  destruct (check_header df).
  - destruct (clean_tidy _ _ _ _ _ Hok H) as (d & e & Hd & Hr & Ht & Hs).
    exists df, d, e. auto.
  - destruct (negb (List.length header =? 0)); [|discriminate].
    apply bind_OK in H as (df0 & H0 & H).
    destruct (set_columns_frame_ok _ _ _ Hok H0) as [Hok0 Hr0].
    destruct (clean_tidy _ _ _ _ _ Hok0 H) as (d & e & Hd & Hr & Ht & Hs).
    rewrite Hr0 in *. exists df0, d, e. auto.
Qed.

(** ** When imputation goes through *)

Lemma fill_column_total {F : Arithmetic} (s : Series) :
  fillable s -> exists s', fill_column s = OK s'.
Proof.
  destruct s as [xs|xs|xs|xs|xs]; simpl; intros Hp.
  - destruct Hp as [m ->]. eauto.
  - destruct (mode Z.eqb Z.leb xs) eqn:E; [|eauto].
    apply (proj1 (mode_nil Z.eqb Z.leb Z_eqb_reflect _)) in E. subst.
    now elim Hp.
  - destruct (mode Bool.eqb bool_leb xs) eqn:E; [|eauto].
    apply (proj1 (mode_nil Bool.eqb bool_leb bool_eqb_reflect _)) in E. subst.
    now elim Hp.
  - destruct (mode String.eqb String.leb (dropna xs)) eqn:E; [|eauto].
    apply (proj1 (mode_nil String.eqb String.leb string_eqb_reflect _)) in E.
    rewrite E in Hp.
    now elim Hp.
  - destruct (mode Bool.eqb bool_leb (dropna xs)) eqn:E; [|eauto].
    apply (proj1 (mode_nil Bool.eqb bool_leb bool_eqb_reflect _)) in E.
    rewrite E in Hp.
    now elim Hp.
Qed.

Lemma fill_column_fillable {F : Arithmetic} (s s' : Series) :
  fill_column s = OK s' -> fillable s.
Proof.
  destruct s as [xs|xs|xs|xs|xs]; simpl.
  - destruct (Series_mean xs) as [m| |]; [eauto | discriminate | discriminate].
  - destruct xs; [discriminate | intros _; discriminate].
  - destruct xs; [discriminate | intros _; discriminate].
  - destruct (dropna xs); [discriminate | intros _; discriminate].
  - destruct (dropna xs); [discriminate | intros _; discriminate].
Qed.

Lemma fillable_dec {F : Arithmetic} (s : Series) : fillable s \/ ~ fillable s.
Proof.
  destruct s as [xs|xs|xs|xs|xs]; simpl;
    try (destruct (Nat.eq_dec (List.length xs) 0); tauto);
    try (destruct (Nat.eq_dec (List.length (dropna xs)) 0); tauto).
  destruct (Series_mean xs) as [m| |]; [left; eauto | |];
    right; intros [m H]; discriminate H.
Qed.

(** A column with nothing to fill it with stops lines 84-88: [round]
    refuses a mean that is no number, and the mode of a column without a
    value is empty. *)
Lemma fill_column_raises {F : Arithmetic} (s : Series) :
  ~ fillable s -> fill_column s = Raised (fill_error s).
Proof.
  destruct s as [xs|xs|xs|xs|xs]; simpl; intros Hp.
  - destruct (Series_mean xs) as [m| |]; [elim Hp; eauto | easy | easy].
  - destruct xs; [reflexivity | elim Hp; discriminate].
  - destruct xs; [reflexivity | elim Hp; discriminate].
  - destruct (dropna xs); [reflexivity | elim Hp; discriminate].
  - destruct (dropna xs); [reflexivity | elim Hp; discriminate].
Qed.

(** A column that holds no value has nothing to be filled with. *)
Lemma no_value_not_fillable {F : Arithmetic} (s : Series) :
  present s = 0 ->
  ~ fillable s
  /\ fill_error s = if dtype_is_float s then ValueError else KeyError.
Proof.
  destruct s as [xs|xs|xs|xs|xs]; simpl; intros Hp;
    try (split; [tauto | reflexivity]).
  apply length_zero_iff_nil in Hp.
  rewrite (Series_mean_empty xs Hp). split; [|reflexivity].
  intros [m H]; discriminate H.
Qed.

Lemma update_columns_total (g : Series -> result Series)
  (names : list string) :
  NoDup names ->
  forall df,
  NoDup (columns df) -> incl names (columns df) ->
  (forall c, In c (cols df) -> In (fst c) names ->
             exists s', g (snd c) = OK s') ->
  exists df', for_each (update_column g) names df = OK df'.
Proof.
  induction names as [|f rest IH]; intros Hnd df Hdf Hincl Hg; simpl;
    [eauto|].
  inversion Hnd as [|? ? Hnotin Hnd']; subst.
  assert (Hf : In f (columns df)) by (apply Hincl; now left).
  pose proof Hf as Hf'. unfold columns in Hf'.
  apply in_map_iff in Hf' as ([f' s] & E & Hc). simpl in E. subst f'.
  destruct (Hg _ Hc (or_introl eq_refl)) as [s' Hs']. simpl in Hs'.
  unfold update_column at 1.
  rewrite (getitem_one df f s (filter_labelled_NoDup _ _ _ Hdf Hc)). simpl.
  rewrite Hs'. simpl.
  apply IH; try assumption.
  - rewrite (setitem_present _ _ _ Hf). unfold columns. simpl.
    now rewrite map_relabel_fst.
  - rewrite (setitem_present _ _ _ Hf). unfold columns. simpl.
    rewrite map_relabel_fst. intros x Hx. apply Hincl. now right.
  - rewrite (setitem_present _ _ _ Hf). simpl. intros c Hin Hr.
    apply in_map_iff in Hin as (c0 & E & Hc0).
    destruct (labelled f c0) eqn:El.
    + subst c. simpl in Hr. apply labelled_iff in El. rewrite El in Hr.
      now elim Hnotin.
    + subst c. apply Hg; [exact Hc0 | now right].
Qed.

Lemma fill_missing_total {F : Arithmetic} (df : DataFrame) :
  NoDup (columns df) ->
  (forall c, In c (cols df) -> fillable (snd c)) ->
  exists df', fill_missing (columns df) df = OK df'.
Proof.
  intros Hnd Hp. apply update_columns_total; try assumption.
  - apply incl_refl.
  - intros c Hc _. apply fill_column_total. now apply Hp.
Qed.

(** What a loop that went through has met: columns it could fill. *)
Lemma fill_missing_fillable {F : Arithmetic} (df df' : DataFrame) :
  fill_missing (columns df) df = OK df' ->
  Forall (fun c => fillable (snd c)) (cols df).
Proof.
  intros H. pose proof (fill_missing_NoDup _ _ H) as Hnd.
  destruct (update_columns_spec fill_column _ Hnd _ _ H) as [_ Hc].
  apply Forall_forall. intros c Hin.
  destruct (Forall2_In_l _ _ _ _ Hc Hin) as (c' & _ & _ & Hfill).
  rewrite (proj2 (mentions_In (columns df) (fst c))) in Hfill
    by now apply in_map.
  exact (fill_column_fillable _ _ Hfill).
Qed.

(** The loop stops at the first column it cannot fill. *)
Lemma fill_missing_stops {F : Arithmetic} (df : DataFrame)
  (front : list (string * Series)) (f : string) (s : Series)
  (rest : list (string * Series)) :
  NoDup (columns df) ->
  cols df = front ++ (f, s) :: rest ->
  Forall (fun c => fillable (snd c)) front ->
  ~ fillable s ->
  fill_missing (columns df) df = Raised (fill_error s).
Proof.
  intros Hnd Hc Hfront Hs.
  assert (Ecols : columns df = map fst front ++ f :: map fst rest)
    by (unfold columns; now rewrite Hc, map_app).
  unfold fill_missing. rewrite Ecols at 1. rewrite for_each_app.
  assert (Hndf : NoDup (map fst front)).
  { rewrite Ecols in Hnd. now apply NoDup_app_remove_r in Hnd. }
  assert (Hnotin : ~ In f (map fst front)).
  { rewrite Ecols in Hnd. apply NoDup_remove_2 in Hnd.
    intros Hin. apply Hnd. apply in_or_app. now left. }
  destruct (update_columns_total fill_column (map fst front) Hndf df Hnd)
    as [df1 H1].
  - rewrite Ecols. intros x Hx. apply in_or_app. now left.
  - intros c Hc0 Hin. apply fill_column_total.
    rewrite Hc in Hc0. apply in_app_iff in Hc0 as [Hc0|[<-|Hc0]].
    + rewrite Forall_forall in Hfront. now apply Hfront.
    + now elim Hnotin.
    + exfalso. rewrite Ecols in Hnd.
      apply (NoDup_app_disjoint _ _ Hnd (fst c) Hin).
      right. now apply in_map.
  - change (for_each fill_feature)
      with (for_each (update_column fill_column)).
    rewrite H1. cbn [bind for_each].
    destruct (update_columns_spec fill_column _ Hndf _ _ H1) as [_ Hc1].
    assert (Hin : In (f, s) (cols df))
      by (rewrite Hc; apply in_or_app; right; now left).
    destruct (Forall2_In_l _ _ _ _ Hc1 Hin) as ([f' s'] & Hin' & Ef & Hm).
    cbn [fst snd] in Ef, Hm. subst f'.
    assert (Em : mentions (map fst front) f = false).
    { apply not_true_iff_false. now rewrite mentions_In. }
    rewrite Em in Hm. subst s'.
    assert (Hnd1 : NoDup (columns df1)).
    { unfold columns. rewrite (Forall2_fst_eq _ _ _
        (Forall2_impl _ (fun a b H => conj (proj1 H) I) Hc1)).
      exact Hnd. }
    unfold update_column at 1.
    rewrite (getitem_one df1 f s (filter_labelled_NoDup _ _ _ Hnd1 Hin')).
    cbn [bind single]. now rewrite (fill_column_raises s Hs).
Qed.

(** Either every column can be filled or there is a first one that cannot. *)
Lemma first_not_fillable {F : Arithmetic} (l : list (string * Series)) :
  Forall (fun c => fillable (snd c)) l
  \/ exists front f s rest,
       l = front ++ (f, s) :: rest
       /\ Forall (fun c => fillable (snd c)) front /\ ~ fillable s.
Proof.
  induction l as [|[f s] l IH]; [now left|].
  destruct (fillable_dec s) as [Hs|Hs].
  - destruct IH as [IH|(front & f' & s' & rest & E & Hf & Hn)].
    + left. now constructor.
    + right. exists ((f, s) :: front), f', s', rest. rewrite E.
      split; [reflexivity|]. split; [now constructor | exact Hn].
  - right. exists [], f, s, l. now repeat split.
Qed.


Lemma example_frame_ok : frame_ok example_frame.
Proof. repeat constructor. Qed.


(** With sums made in the order of the rows, the mean of 1e17, 10, -1e17
    and 16 is the float64 8, the exact mean being 6.5: the gap takes 8. *)
Example rounded_sum_fills :
  fill_column (FloatCol [Some (inject_Z (10 ^ 17)); Some (10 # 1)%Q;
                         Some (inject_Z (- 10 ^ 17)); Some (16 # 1)%Q; None])
  = OK (FloatCol [Some (inject_Z (10 ^ 17)); Some (10 # 1)%Q;
                  Some (inject_Z (- 10 ^ 17)); Some (16 # 1)%Q;
                  Some (8 # 1)%Q]).
Proof. vm_compute. reflexivity. Qed.

(** The sum of 1e308 and 1e308 is an infinity, which [round] refuses. *)
Example overflowing_sum_raises :
  fill_column (FloatCol [Some (inject_Z (10 ^ 308));
                         Some (inject_Z (10 ^ 308)); None])
  = Raised OverflowError.
Proof. vm_compute. reflexivity. Qed.

(** C7.  A run of the pipeline that returns gives a matrix and a label
    array with as many rows as the frame had after the irrelevant columns
    were dropped, which is as many as the loaded frame had. *)
Theorem rows_preserved {L : Literals} {F : Arithmetic} (df : DataFrame)
  (irrelevant_features chars categorical_features header : list string)
  (data label : ndarray) (names : list string) :
  frame_ok df ->
  preprocess df irrelevant_features chars categorical_features header
  = OK (Datalist data label names) ->
  exists named dropped,
    (named = df \/ set_columns df header = OK named)
    /\ for_each drop irrelevant_features named = OK dropped
    /\ len data = nrows dropped /\ len label = nrows dropped
    /\ nrows dropped = nrows df
    /\ well_shaped data.
Proof.
  intros Hok H.
  destruct (preprocess_tidy _ _ _ _ _ _ _ _ Hok H)
    as (named & dropped & e & Hnamed & Hdrop & Hr & Ht & Hs).
  destruct (separate_tidy _ _ _ _ _ Ht Hs) as (_ & Hd & Hl & _ & _).
  exists named, dropped.
  split; [exact Hnamed|]. split; [exact Hdrop|].
  split; [congruence|]. split; [congruence|]. split; [exact Hr|].
  apply separate_OK in Hs as (l & sel & rest & _ & _ & _ & E).
  inversion E; subst. apply to_numpy_well_shaped.
Qed.

Lemma rows_preserved_witness :
  exists named dropped,
    (named = example_frame \/ set_columns example_frame [] = OK named)
    /\ for_each drop ["id"] named = OK dropped
    /\ len (Arr2 2 1 [[Float (25 # 1)%Q]; [Float (25 # 1)%Q]])
       = nrows dropped
    /\ len (Arr1 [Bool true; Bool false]) = nrows dropped
    /\ nrows dropped = nrows example_frame
    /\ well_shaped (Arr2 2 1 [[Float (25 # 1)%Q]; [Float (25 # 1)%Q]]).
Proof.
  apply (rows_preserved (L := plain_literals) example_frame
           ["id"] [] ["class"] [] _ _ ["age"; "class_yes"] example_frame_ok).
  reflexivity.
Defined.

(** ** Literal removal *)

Lemma prefix_split (c v : string) :
  prefix c v = true <-> exists r, v = (c ++ r)%string.
Proof.
  revert v. induction c as [|a c IH]; intros v; simpl.
  - destruct v; simpl; split; eauto.
  - destruct v as [|b v]; simpl.
    + split; [discriminate | intros [r H]; discriminate].
    + destruct (ascii_dec a b) as [->|Hne].
      * rewrite IH.
        split; intros [r H]; exists r; [now subst | now inversion H].
      * split; [discriminate | intros [r H]; inversion H; now elim Hne].
Qed.

Lemma delete_from_skip (c p r : string) :
  delete_from c (String.length p) (p ++ r) = delete_from c 0 r.
Proof. induction p as [|a p IH]; simpl; [now destruct r | exact IH]. Qed.

Lemma delete_from_match (c r : string) :
  c <> "" -> delete_from c 0 (c ++ r) = delete_from c 0 r.
Proof.
  destruct c as [|a c]; [easy|]. intros _.
  change ((String a c ++ r)%string) with (String a (c ++ r)).
  cbn [delete_from].
  replace (prefix (String a c) (String a (c ++ r))) with true
    by (symmetry; apply prefix_split; now exists r).
  cbn [String.length]. rewrite Nat.sub_1_r. cbn [Nat.pred].
  apply delete_from_skip.
Qed.

Lemma occurs_empty (c : string) : c <> "" -> ~ occurs c "".
Proof.
  intros Hne (l & r & H). destruct l; simpl in H; [|discriminate].
  destruct c; [now elim Hne | discriminate].
Qed.

Lemma occurs_cons (c : string) (a : ascii) (p : string) :
  occurs c (String a p) ->
  (exists r, String a p = (c ++ r)%string) \/ occurs c p.
Proof.
  intros (l & r & H). destruct l as [|b l]; simpl in H.
  - left. now exists r.
  - right. inversion H; subst. now exists l, r.
Qed.

Lemma append_assoc (a b c : string) :
  ((a ++ b) ++ c)%string = (a ++ (b ++ c))%string.
Proof. induction a as [|x a IH]; simpl; [reflexivity | now rewrite IH]. Qed.

Lemma length_append (a b : string) :
  String.length (a ++ b) = String.length a + String.length b.
Proof. induction a as [|x a IH]; simpl; [reflexivity | now f_equal]. Qed.

Lemma concat_head (c p : string) (ps : list string) :
  exists rest, String.concat c (p :: ps) = (p ++ rest)%string.
Proof.
  destruct ps as [|q ps]; simpl.
  - exists "". clear. induction p; simpl; congruence.
  - eauto.
Qed.

Lemma concat_cons_char (c : string) (a : ascii) (p : string)
  (ps : list string) :
  String.concat c (String a p :: ps) = String a (String.concat c (p :: ps)).
Proof. now destruct ps. Qed.

(** [str.replace(c, '')] cuts the value at copies of [c] and glues what is
    left: the value is the pieces joined by [c], the result is the pieces
    alone, and no piece holds a copy of [c]. *)
Lemma str_replace_pieces (c : string) :
  c <> "" ->
  forall n v, String.length v <= n ->
  exists pieces,
    pieces <> [] /\ v = String.concat c pieces
    /\ str_replace v c = glue pieces
    /\ Forall (fun p => ~ occurs c p) pieces.
Proof.
  intros Hne.
  assert (Hrep : forall v, str_replace v c = delete_from c 0 v)
    by (intros v; destruct c; [now elim Hne | reflexivity]).
  assert (Hnil : exists pieces,
             pieces <> [] /\ "" = String.concat c pieces
             /\ str_replace "" c = glue pieces
             /\ Forall (fun p => ~ occurs c p) pieces).
  { exists [""]. rewrite Hrep. repeat split; try discriminate.
    constructor; [now apply occurs_empty | constructor]. }
  induction n as [|n IH]; intros v Hlen.
  - destruct v; [exact Hnil | simpl in Hlen; lia].
  - destruct v as [|a r]; [exact Hnil|].
    destruct (prefix c (String a r)) eqn:Ep.
    + apply prefix_split in Ep as [r' Er'].
      assert (Hlen' : String.length r' <= n).
      { apply (f_equal String.length) in Er'.
        rewrite length_append in Er'. simpl in *.
        destruct c; [now elim Hne | simpl in Er'; lia]. }
      destruct (IH r' Hlen') as (ps & Hps & Hjoin & Hres & Hall).
      exists ("" :: ps). split; [discriminate|]. split; [|split].
      * rewrite Er'. destruct ps as [|p ps]; [now elim Hps|].
        change (String.concat c ("" :: p :: ps))
          with (c ++ String.concat c (p :: ps))%string.
        now rewrite <- Hjoin.
      * rewrite Er', Hrep, (delete_from_match c r' Hne), <- Hrep. exact Hres.
      * constructor; [now apply occurs_empty | exact Hall].
    + assert (Hlen' : String.length r <= n) by (simpl in Hlen; lia).
      destruct (IH r Hlen') as (ps & Hps & Hjoin & Hres & Hall).
      destruct ps as [|p ps]; [now elim Hps|].
      exists (String a p :: ps). split; [discriminate|]. split; [|split].
      * rewrite concat_cons_char. now rewrite <- Hjoin.
      * rewrite Hrep. cbn [delete_from]. rewrite Ep, <- Hrep, Hres.
        reflexivity.
      * apply Forall_cons_iff in Hall as [Hp Hps']. constructor; [|exact Hps'].
        intros Ho. apply occurs_cons in Ho as [[r0 E]|Ho]; [|now apply Hp].
        destruct (concat_head c p ps) as [rest Erest].
        assert (Hpre : prefix c (String a r) = true).
        { apply prefix_split. exists (r0 ++ rest)%string.
          rewrite Hjoin, Erest.
          change (String a (p ++ rest)) with (String a p ++ rest)%string.
          now rewrite E, append_assoc. }
        congruence.
Qed.

Lemma str_replace_char (a : ascii) (v : string) :
  str_replace v (String a "") = keep (fun b => negb (Ascii.eqb a b)) v.
Proof.
  unfold str_replace. induction v as [|b r IH]; [reflexivity|].
  cbn [delete_from keep]. simpl prefix.
  destruct (ascii_dec a b) as [->|Hne].
  - rewrite Ascii.eqb_refl. simpl. 
    replace (prefix "" r) with true by (now destruct r). exact IH.
  - apply Ascii.eqb_neq in Hne as ->. simpl. now rewrite IH.
Qed.

Lemma keep_keep (p q : ascii -> bool) (v : string) :
  keep q (keep p v) = keep (fun b => p b && q b) v.
Proof.
  induction v as [|b r IH]; simpl; [reflexivity|].
  destruct (p b); simpl; [|exact IH]. destruct (q b); now rewrite IH.
Qed.

Lemma keep_ext (p q : ascii -> bool) (v : string) :
  (forall b, p b = q b) -> keep p v = keep q v.
Proof.
  intros H. induction v as [|b r IH]; simpl; [reflexivity|].
  now rewrite H, IH.
Qed.

(** Removing single characters one after the other keeps exactly the
    characters that are not listed. *)
Lemma strip_chars_keep (chars : list string) :
  Forall (fun c => String.length c = 1) chars ->
  forall v,
  fold_left str_replace chars v
  = keep (fun b => negb (existsb (fun c => String.eqb c (String b "")) chars))
      v.
Proof.
  induction 1 as [|c rest Hc _ IH]; intros v; simpl.
  - clear. induction v; simpl; congruence.
  - destruct c as [|a [|? ?]]; try discriminate Hc.
    rewrite IH, str_replace_char, keep_keep. apply keep_ext.
    intros b. simpl. now destruct (Ascii.eqb a b).
Qed.

Lemma keep_no_occurrence (p : ascii -> bool) (a : ascii) (v : string) :
  p a = false -> ~ occurs (String a "") (keep p v).
Proof.
  intros Hp. induction v as [|b r IH]; simpl.
  - apply occurs_empty. discriminate.
  - destruct (p b) eqn:Eb; [|exact IH].
    intros Ho. apply occurs_cons in Ho as [[r0 E]|Ho]; [|now apply IH].
    inversion E; subst. congruence.
Qed.

Lemma strip_StrCol (chars : list string) :
  forall xs,
  for_each Series_str_replace chars (StrCol xs)
  = OK (StrCol (map (option_map (fun v => fold_left str_replace chars v)) xs)).
Proof.
  induction chars as [|c rest IH]; intros xs; simpl.
  - f_equal. f_equal. rewrite <- (map_id xs) at 1. apply map_ext.
    now intros [v|].
  - rewrite IH, map_map. f_equal. f_equal. apply map_ext. now intros [v|].
Qed.

Lemma strip_ObjBoolCol (chars : list string) (xs : list (option bool))
  (s' : Series) :
  for_each Series_str_replace chars (ObjBoolCol xs) = OK s' ->
  s' = ObjBoolCol xs.
Proof.
  induction chars as [|c rest IH]; simpl; intros H; [now inversion H|].
  destruct (dropna xs); simpl in H; [now apply IH | discriminate].
Qed.

Lemma object_label_column (df : DataFrame) (c : string * Series) :
  NoDup (columns df) -> In c (cols df) ->
  object_label df (fst c) = dtype_is_object (snd c).
Proof.
  intros Hnd Hc. unfold object_label. rewrite existsb_filter.
  destruct c as [f s]. cbn [fst snd].
  rewrite (filter_labelled_NoDup _ _ _ Hnd Hc). simpl. apply orb_false_r.
Qed.

Lemma mentions_filter (p : string -> bool) (l : list string) (x : string) :
  In x l -> mentions (filter p l) x = p x.
Proof.
  intros Hx. destruct (p x) eqn:E.
  - apply mentions_In, filter_In. now split.
  - apply not_true_iff_false. rewrite mentions_In, filter_In. intros [_ H].
    congruence.
Qed.

Lemma update_strip_feature (c : string) (df : DataFrame) (f : string)
  (df' : DataFrame) :
  update_column (fun s => Series_str_replace s c) df f = OK df' ->
  strip_feature c df f = OK df'.
Proof.
  unfold strip_feature, update_column.
  destruct (getitem df f) as [[s|d]|e]; simpl; [tauto | discriminate ..].
Qed.

Lemma Forall2_In_r {A B} (R : A -> B -> Prop) (l : list A) (l' : list B)
  (b : B) :
  Forall2 R l l' -> In b l' -> exists a, In a l /\ R a b.
Proof.
  induction 1 as [|x y l l' Hxy _ IH]; simpl; [easy|].
  intros [<-|Hb]; [exists x; auto|].
  destruct (IH Hb) as (a & Ha & HR). exists a. auto.
Qed.

Lemma Series_str_replace_strippable (s : Series) (c : string) :
  strippable s ->
  exists s', Series_str_replace s c = OK s' /\ strippable s'.
Proof.
  destruct s as [xs|xs|xs|xs|xs]; simpl; try easy.
  - intros _. eexists. split; [reflexivity | exact I].
  - intros E. rewrite E. eexists. split; [reflexivity | exact E].
Qed.

(** Lines 78-80 go through on a frame whose object columns hold strings. *)
Lemma remove_chars_total (features : list string) :
  NoDup features ->
  forall chars df,
  NoDup (columns df) -> incl features (columns df) ->
  (forall c, In c (cols df) -> In (fst c) features -> strippable (snd c)) ->
  exists df', remove_chars chars features df = OK df'.
Proof.
  intros Hnd. unfold remove_chars.
  induction chars as [|c rest IH]; intros df Hdf Hincl Hs; simpl; [eauto|].
  destruct (update_columns_total (fun s => Series_str_replace s c) features
              Hnd df Hdf Hincl) as [df1 H1].
  { intros c0 Hc0 Hf. destruct (Series_str_replace_strippable (snd c0) c)
      as (s' & Es & _); eauto. }
  destruct (update_columns_spec _ _ Hnd _ _ H1) as [_ Hc1].
  apply (for_each_body_impl _ _ (update_strip_feature c)) in H1.
  rewrite H1. simpl.
  assert (Hlab : columns df1 = columns df)
    by (unfold columns; eapply Forall2_fst_eq; exact Hc1).
  apply IH.
  - now rewrite Hlab.
  - now rewrite Hlab.
  - intros c1 Hin Hf.
    destruct (Forall2_In_r _ _ _ _ Hc1 Hin) as (c0 & Hc0 & E & Hr).
    rewrite E in Hf.
    rewrite (proj2 (mentions_In features (fst c0)) Hf) in Hr.
    destruct (Series_str_replace_strippable (snd c0) c (Hs c0 Hc0 Hf))
      as (s' & Es & Hs').
    rewrite Es in Hr. now inversion Hr; subst.
Qed.

(** C8.  Lines 77-80 replace every value [v] of every string column by
    [v] with the listed strings removed one after the other, and leave the
    other columns as they are; they go through when the object columns
    hold strings; the removal is by literal comparison: the value is cut at
    the copies of the string met from the left and the pieces are glued,
    no piece holding a copy; for single characters no listed character is
    left in any value. *)
Theorem chars_removed_literally (df : DataFrame)
  (chars features : list string) :
  str_features df (columns df) = OK features ->
  (forall df', remove_chars chars features df = OK df' ->
   Forall2 (fun c c' =>
              fst c' = fst c
              /\ match snd c with
                 | StrCol xs =>
                     snd c' = StrCol (map (option_map
                                (fun v => fold_left str_replace chars v)) xs)
                 | s => snd c' = s
                 end) (cols df) (cols df'))
  /\ ((forall c, In c (cols df) -> dtype_is_object (snd c) = true ->
                 strippable (snd c)) ->
      exists df', remove_chars chars features df = OK df')
  /\ (forall v c, c <> "" ->
      exists pieces,
        v = String.concat c pieces /\ str_replace v c = glue pieces
        /\ Forall (fun p => ~ occurs c p) pieces)
  /\ (forall v, str_replace v "" = v)
  /\ (Forall (fun c => String.length c = 1) chars ->
      forall v c, In c chars -> ~ occurs c (fold_left str_replace chars v)).
Proof.
  intros Hfs.
  destruct (str_features_NoDup _ _ Hfs) as [Hnd Hndfs].
  apply str_features_OK in Hfs as [_ Efs].
  split; [|split; [|split; [|split]]].
  - intros df' H.
    destruct (remove_chars_spec _ Hndfs _ _ _ H) as [_ Hc].
    rewrite <- (map_id (cols df)) in Hc.
    eapply Forall2_map_weaken; [|exact Hc].
    intros c c' Hin [E Hs]. split; [exact E|].
    rewrite Efs, mentions_filter in Hs by now apply in_map.
    rewrite (object_label_column df c Hnd Hin) in Hs.
    destruct (snd c) as [xs|xs|xs|xs|xs]; simpl in Hs; try exact Hs.
    + rewrite strip_StrCol in Hs. now inversion Hs.
    + now apply strip_ObjBoolCol in Hs.
  - intros Hobj. apply remove_chars_total; try assumption.
    + rewrite Efs. intros f Hf. now apply filter_In in Hf.
    + intros c Hc Hf. apply Hobj; [exact Hc|].
      rewrite Efs in Hf. apply filter_In in Hf as [_ Hf].
      now rewrite (object_label_column df c Hnd Hc) in Hf.
  - intros v c Hne.
    destruct (str_replace_pieces c Hne _ v (le_n _)) as (ps & _ & H1 & H2 & H3).
    now exists ps.
  - reflexivity.
  - intros Hone v c Hc. rewrite (strip_chars_keep chars Hone).
    rewrite Forall_forall in Hone. specialize (Hone c Hc).
    destruct c as [|a [|? ?]]; try discriminate Hone.
    apply keep_no_occurrence. apply negb_false_iff, existsb_exists.
    exists (String a ""). split; [exact Hc | apply String.eqb_refl].
Qed.

Lemma chars_removed_literally_witness :
  (exists df',
     remove_chars [" "; "?"] ["t"]
       (mkDataFrame 2
          [("n", IntCol [1%Z; 2%Z]); ("t", StrCol [Some "a b?"; None])])
     = OK df')
  /\ Forall2 (fun c c' =>
             fst c' = fst c
             /\ match snd c with
                | StrCol xs =>
                    snd c' = StrCol (map (option_map
                               (fun v => fold_left str_replace [" "; "?"] v))
                               xs)
                | s => snd c' = s
                end)
    [("n", IntCol [1%Z; 2%Z]); ("t", StrCol [Some "a b?"; None])]
    [("n", IntCol [1%Z; 2%Z]); ("t", StrCol [Some "ab"; None])]
  /\ (forall v c, In c [" "; "?"] ->
                  ~ occurs c (fold_left str_replace [" "; "?"] v)).
Proof.
  destruct (chars_removed_literally
              (mkDataFrame 2
                 [("n", IntCol [1%Z; 2%Z]); ("t", StrCol [Some "a b?"; None])])
              [" "; "?"] ["t"] eq_refl) as (Hdone & Hgo & _ & _ & Hnone).
  split; [|split].
  - apply Hgo. intros c [<-|[<-|[]]]; [discriminate | constructor].
  - apply (Hdone (mkDataFrame 2
                    [("n", IntCol [1%Z; 2%Z]);
                     ("t", StrCol [Some "ab"; None])])).
    reflexivity.
  - apply Hnone. repeat constructor.
Defined.

(** ** Indicator columns *)

Lemma same_members_length {A} (l l' : list A) :
  NoDup l -> NoDup l' -> (forall v, In v l <-> In v l') ->
  List.length l = List.length l'.
Proof.
  intros Hl Hl' H. apply Nat.le_antisymm; apply NoDup_incl_length;
    try assumption; intros v Hv; now apply H.
Qed.

Lemma NoDup_map_on {A B} (f : A -> B) (l : list A) :
  (forall x y, In x l -> In y l -> f x = f y -> x = y) ->
  NoDup l -> NoDup (map f l).
Proof.
  intros Hinj Hnd. induction Hnd as [|x l Hx Hnd IH]; simpl; constructor.
  - intros H. apply in_map_iff in H as (y & E & Hy).
    rewrite (Hinj y x) in Hy; [now apply Hx | now right | now left | exact E].
  - apply IH. intros a b Ha Hb. apply Hinj; now right.
Qed.

Lemma append_inj_l (p a b : string) :
  (p ++ a)%string = (p ++ b)%string -> a = b.
Proof.
  induction p as [|x p IH]; simpl; intros H; [exact H|].
  apply IH. now inversion H.
Qed.

Lemma indicator_marks {A} (eqb : A -> A -> bool) (inj : A -> scalar) (l : A)
  (cells : list (option A)) :
  (forall x y, reflect (x = y) (eqb x y)) ->
  (forall x y, inj x = inj y -> x = y) ->
  (forall a, inj a <> NaN) ->
  Forall2 (fun x b => b = true <-> x = inj l)
    (map (wrap inj) cells) (map (indicator eqb l) cells).
Proof.
  intros Heq Hinj Hnan. induction cells as [|[a|] cells IH]; simpl;
    constructor; try exact IH.
  - destruct (Heq a l) as [->|Hne]; split; try reflexivity; try discriminate.
    intros E. now apply Hinj in E.
  - split; [discriminate|]. intros E. symmetry in E. now apply Hnan in E.
Qed.

Lemma indicator_columns_spec {A} (eqb leb : A -> A -> bool)
  (repr : A -> string) (inj : A -> scalar) (prefix : string)
  (cells : list (option A)) :
  (forall x y, reflect (x = y) (eqb x y)) ->
  (forall x y, inj x = inj y -> x = y) ->
  (forall a, inj a <> NaN) ->
  (forall x y, In x (dropna cells) -> In y (dropna cells) ->
               repr x = repr y -> x = y) ->
  NoDup (map fst (indicator_columns eqb leb repr prefix cells))
  /\ Forall (fun c => exists l bs,
               In l (dropna cells)
               /\ fst c = (prefix ++ "_" ++ repr l)%string
               /\ snd c = BoolCol bs
               /\ Forall2 (fun x b => b = true <-> x = inj l)
                    (map (wrap inj) cells) bs)
       (indicator_columns eqb leb repr prefix cells)
  /\ forall ls, NoDup ls ->
       (forall v, In v ls <-> In v (map inj (dropna cells))) ->
       List.length (indicator_columns eqb leb repr prefix cells)
       = List.length ls.
Proof.
  intros Heq Hinj Hnan Hrepr. unfold indicator_columns.
  pose proof (levels_NoDup eqb leb Heq (dropna cells)) as Hnd.
  pose proof (fun y => levels_In eqb leb Heq y (dropna cells)) as Hin.
  split; [|split].
  - rewrite map_map. simpl. apply NoDup_map_on; [|exact Hnd].
    intros x y Hx Hy E. apply append_inj_l in E.
    apply (append_inj_l "_") in E. apply Hrepr; try exact E; now apply Hin.
  - apply Forall_forall. intros c Hc. apply in_map_iff in Hc as (l & <- & Hl).
    exists l. eexists. simpl.
    split; [now apply Hin|]. split; [reflexivity|]. split; [reflexivity|].
    now apply indicator_marks.
  - intros ls Hls Hmem. rewrite length_map.
    rewrite <- (length_map inj). apply same_members_length.
    + apply NoDup_map_on; [|exact Hnd]. intros x y _ _. apply Hinj.
    + exact Hls.
    + intros v. rewrite Hmem, !in_map_iff. split; intros (x & E & Hx);
        exists x; (split; [exact E|]); now apply Hin.
Qed.

Lemma dropna_map {A B} (f : A -> B) (xs : list (option A)) :
  dropna (map (option_map f) xs) = map f (dropna xs).
Proof.
  induction xs as [|[a|] xs IH]; simpl; [reflexivity | now f_equal | exact IH].
Qed.

Lemma dropna_Some {A} (xs : list A) : dropna (map Some xs) = xs.
Proof. induction xs as [|a xs IH]; simpl; [reflexivity | now f_equal]. Qed.

Lemma Q_eqb_reflect (x y : Q) : reflect (x = y) (Q_eqb x y).
Proof.
  unfold Q_eqb. destruct x as [nx dx], y as [ny dy]; simpl.
  destruct (Z.eqb_spec nx ny) as [->|Hn]; simpl.
  - destruct (Pos.eqb_spec dx dy) as [->|Hd]; constructor; congruence.
  - constructor. congruence.
Qed.

Lemma bool_repr_inj (x y : bool) : bool_repr x = bool_repr y -> x = y.
Proof. now destruct x, y. Qed.

(** The indicator columns of a column: distinct names, all of them
    [prefix_...], one per distinct value. *)
Lemma map_wrap_Some {A} (inj : A -> scalar) (xs : list A) :
  map (wrap inj) (map Some xs) = map inj xs.
Proof. rewrite map_map. now apply map_ext. Qed.

Ltac indicator_cases H2 :=
  eapply Forall_impl; [|exact H2];
  intros c (l & bs & Hl & Ec & Eb & Hm);
  eexists; eexists; exists bs;
  split; [exact Ec|]; split; [exact Eb|]; split; [|exact Hm];
  now apply in_map.

(** The indicator columns of a column: distinct names, all of them
    [prefix_...], each marking the rows of one value, one column per
    distinct value. *)
Lemma get_dummies_1d_spec {L : Literals} (s : Series) (prefix : string) :
  NoDup (map fst (get_dummies_1d s prefix))
  /\ Forall (indicator_of prefix s) (get_dummies_1d s prefix)
  /\ forall ls, distinct_values s ls ->
       List.length (get_dummies_1d s prefix) = List.length ls.
Proof.
  unfold distinct_values, indicator_of, marks.
  destruct s as [xs|xs|xs|xs|xs]; simpl.
  - destruct (indicator_columns_spec Q_eqb Qle_bool repr_float Float prefix
                (map (option_map Qred) xs) Q_eqb_reflect) as (H1 & H2 & H3).
    + now intros x y [= ->].
    + discriminate.
    + rewrite dropna_map. intros x y Hx Hy E.
      apply in_map_iff in Hx as (qx & <- & _).
      apply in_map_iff in Hy as (qy & <- & _).
      apply repr_float_inj, Qred_complete in E.
      now rewrite !(Qred_complete _ _ (Qred_correct _)) in E.
    + rewrite dropna_map in H2, H3.
      split; [exact H1|]. split; [|intros ls [Hnd Hm]; now apply H3].
      indicator_cases H2.
  - destruct (indicator_columns_spec Z.eqb Z.leb py_str Int prefix
                (map Some xs) Z_eqb_reflect) as (H1 & H2 & H3).
    + now intros x y [= ->].
    + discriminate.
    + intros x y _ _. apply py_str_inj.
    + rewrite dropna_Some in H2, H3. rewrite map_wrap_Some in H2.
      split; [exact H1|]. split; [|intros ls [Hnd Hm]; now apply H3].
      indicator_cases H2.
  - destruct (indicator_columns_spec Bool.eqb bool_leb bool_repr Bool prefix
                (map Some xs) bool_eqb_reflect) as (H1 & H2 & H3).
    + now intros x y [= ->].
    + discriminate.
    + intros x y _ _. apply bool_repr_inj.
    + rewrite dropna_Some in H2, H3. rewrite map_wrap_Some in H2.
      split; [exact H1|]. split; [|intros ls [Hnd Hm]; now apply H3].
      indicator_cases H2.
  - destruct (indicator_columns_spec String.eqb String.leb (fun v => v) Str
                prefix xs string_eqb_reflect) as (H1 & H2 & H3).
    + now intros x y [= ->].
    + discriminate.
    + now intros x y _ _.
    + split; [exact H1|]. split; [|intros ls [Hnd Hm]; now apply H3].
      indicator_cases H2.
  - destruct (indicator_columns_spec Bool.eqb bool_leb bool_repr Bool prefix
                xs bool_eqb_reflect) as (H1 & H2 & H3).
    + now intros x y [= ->].
    + discriminate.
    + intros x y _ _. apply bool_repr_inj.
    + split; [exact H1|]. split; [|intros ls [Hnd Hm]; now apply H3].
      indicator_cases H2.
Qed.

Lemma drop_present (df : DataFrame) (f : string) :
  In f (columns df) ->
  drop df f
  = OK (mkDataFrame (nrows df)
          (filter (fun c => negb (labelled f c)) (cols df))).
Proof.
  unfold drop, columns. intros H. now apply existsb_labelled in H as ->.
Qed.

Lemma filter_filter {A} (p q : A -> bool) (l : list A) :
  filter q (filter p l) = filter (fun c => p c && q c) l.
Proof.
  induction l as [|a l IH]; simpl; [reflexivity|].
  destruct (p a); simpl; [|exact IH]. destruct (q a); now rewrite IH.
Qed.

Lemma filter_all {A} (p : A -> bool) (l : list A) :
  Forall (fun a => p a = true) l -> filter p l = l.
Proof.
  induction 1 as [|a l Ha _ IH]; simpl; [reflexivity|]. now rewrite Ha, IH.
Qed.

Lemma prefixed_label_differs (f r : string) : (f ++ "_" ++ r)%string <> f.
Proof.
  intros H. apply (f_equal String.length) in H.
  rewrite length_append in H. simpl in H. lia.
Qed.

(** C4.  Encoding a feature carried by one column with [k] distinct values
    ([k] at least one) removes that column and every column named like the
    first indicator, and appends the other [k-1] indicator columns, each
    named [f_...] and marking the rows of one value; with no value at all,
    line 95 raises. *)
Theorem encoding_drops_first {L : Literals} (df : DataFrame) (f : string)
  (s : Series) (ls : list scalar) :
  filter (labelled f) (cols df) = [(f, s)] ->
  distinct_values s ls ->
  (ls = [] -> encode_feature df f = Raised IndexError)
  /\ (ls <> [] ->
      exists first kept,
        get_dummies_1d s f = first :: kept
        /\ encode_feature df f
           = OK (mkDataFrame (nrows df)
                   (filter (fun c => negb (labelled f c)
                                     && negb (labelled (fst first) c))
                      (cols df) ++ kept))
        /\ List.length kept = List.length ls - 1
        /\ Forall (indicator_of f s) (first :: kept)
        /\ Forall (fun c => fst c <> f /\ fst c <> fst first) kept).
Proof.
  intros Hone Hls.
  destruct (get_dummies_1d_spec s f) as (Hnd & Hind & Hlen).
  specialize (Hlen ls Hls).
  assert (Hf : In f (columns (pd_concat df (pd_get_dummies (OneSeries s) f)))).
  { unfold columns, pd_concat. simpl. rewrite map_app. apply in_or_app. left.
    apply (in_map fst (cols df) (f, s)).
    eapply proj1, filter_In. rewrite Hone. now left. }
  unfold encode_feature. rewrite (getitem_one _ _ _ Hone).
  cbn [bind]. rewrite (drop_present _ _ Hf). cbn [bind].
  unfold pd_concat, pd_get_dummies, columns. cbn [cols nrows].
  destruct (get_dummies_1d s f) as [|first kept] eqn:E.
  - split; [reflexivity|]. intros Hne. destruct ls; [now elim Hne|].
    discriminate Hlen.
  - split; [intros ->; discriminate Hlen|]. intros _.
    exists first, kept. split; [reflexivity|].
    assert (Hnof : Forall (fun c => negb (labelled f c) = true)
                     (first :: kept)).
    { eapply Forall_impl; [|exact Hind]. intros c (r & v & bs & Ec & _).
      apply negb_true_iff, not_true_iff_false. rewrite labelled_iff, Ec.
      apply prefixed_label_differs. }
    inversion Hnd as [|? ? Hfirst Hkept]; subst.
    assert (Hnod : Forall (fun c => negb (labelled (fst first) c) = true)
                     kept).
    { apply Forall_forall. intros c Hc.
      apply negb_true_iff, not_true_iff_false. rewrite labelled_iff.
      intros Ec. apply Hfirst. rewrite <- Ec. now apply in_map. }
    split; [|split; [|split]].
    + cbn [first_item map bind]. rewrite filter_app, (filter_all _ _ Hnof).
      unfold drop. cbn [cols nrows].
      replace (existsb (labelled (fst first))
                 (filter (fun c => negb (labelled f c)) (cols df)
                  ++ first :: kept)) with true.
      2:{ symmetry. apply existsb_exists. exists first.
          split; [apply in_or_app; right; now left | now apply labelled_iff]. }
      rewrite filter_app, filter_filter. cbn [filter].
      replace (labelled (fst first) first) with true
        by (symmetry; now apply labelled_iff).
      cbn [negb]. now rewrite (filter_all _ _ Hnod).
    + simpl in Hlen. lia.
    + exact Hind.
    + apply Forall_forall. intros c Hc.
      rewrite Forall_forall in Hnod. specialize (Hnod c Hc).
      inversion Hnof as [|? ? _ Hk]; subst. rewrite Forall_forall in Hk.
      specialize (Hk c Hc).
      apply negb_true_iff, not_true_iff_false in Hnod, Hk.
      rewrite labelled_iff in Hnod, Hk. now split.
Qed.

Lemma encoding_drops_first_witness :
  exists first kept,
    get_dummies_1d (StrCol [Some "yes"; Some "no"]) "class" = first :: kept
    /\ encode_feature
         (mkDataFrame 2 [("age", FloatCol [Some (25 # 1)%Q; Some (25 # 1)%Q]);
                         ("class", StrCol [Some "yes"; Some "no"])]) "class"
       = OK (mkDataFrame 2
               (filter (fun c => negb (labelled "class" c)
                                 && negb (labelled (fst first) c))
                  [("age", FloatCol [Some (25 # 1)%Q; Some (25 # 1)%Q]);
                   ("class", StrCol [Some "yes"; Some "no"])] ++ kept))
    /\ List.length kept = List.length [Str "yes"; Str "no"] - 1
    /\ Forall (indicator_of "class" (StrCol [Some "yes"; Some "no"]))
         (first :: kept)
    /\ Forall (fun c => fst c <> "class" /\ fst c <> fst first) kept.
Proof.
  apply (encoding_drops_first (L := plain_literals)
           (mkDataFrame 2 [("age", FloatCol [Some (25 # 1)%Q; Some (25 # 1)%Q]);
                           ("class", StrCol [Some "yes"; Some "no"])])
           "class" (StrCol [Some "yes"; Some "no"]) [Str "yes"; Str "no"]).
  - reflexivity.
  - split.
    + repeat constructor; simpl; intuition discriminate.
    + intros v. simpl. tauto.
  - discriminate.
Defined.

(** ** The loader *)

Lemma convert_length {A B} (f : A -> option B) (xs : list (option A))
  (ys : list (option B)) :
  convert f xs = Some ys ->
  List.length ys = List.length xs /\ map isna ys = map isna xs.
Proof.
  revert ys. induction xs as [|[a|] xs IH]; simpl; intros ys H.
  - inversion H. now split.
  - destruct (f a); [|discriminate].
    destruct (convert f xs) as [r|]; [|discriminate].
    inversion H; subst. destruct (IH r eq_refl) as [Hl Hm].
    simpl. split; congruence.
  - destruct (convert f xs) as [r|]; [|discriminate].
    inversion H; subst. destruct (IH r eq_refl) as [Hl Hm].
    simpl. split; congruence.
Qed.

Lemma dropna_full_length {A} (xs : list (option A)) :
  existsb isna xs = false -> List.length (dropna xs) = List.length xs.
Proof.
  induction xs as [|[a|] xs IH]; simpl; intros H;
    [reflexivity | now rewrite IH | discriminate].
Qed.

Lemma existsb_map {A B} (p : B -> bool) (f : A -> B) (l : list A) :
  existsb p (map f l) = existsb (fun a => p (f a)) l.
Proof. induction l as [|a l IH]; simpl; congruence. Qed.

Lemma existsb_isna {A} (xs : list (option A)) :
  existsb isna xs = existsb (fun b : bool => b) (map isna xs).
Proof. induction xs as [|a xs IH]; simpl; congruence. Qed.

Lemma infer_column_size {L : Literals} (na_values toks : list string) :
  size (infer_column na_values toks) = List.length toks.
Proof.
  unfold infer_column. destruct toks as [|t toks]; [reflexivity|].
  set (cells := map _ (t :: toks)).
  assert (Hc : List.length cells = List.length (t :: toks))
    by apply length_map.
  assert (Hna : forall B (ys : list (option B)),
             map isna ys = map isna cells ->
             existsb isna cells = false ->
             List.length (dropna ys) = List.length ys).
  { intros B ys Hm He. apply dropna_full_length.
    rewrite existsb_isna in He. rewrite existsb_isna. now rewrite Hm. }
  destruct (convert parse_int cells) as [zs|] eqn:Ez.
  { destruct (convert_length _ _ _ Ez) as [Hl Hm].
    destruct (existsb isna cells) eqn:He; simpl.
    - rewrite length_map. simpl in *; congruence.
    - rewrite (Hna _ zs Hm eq_refl). simpl in *; congruence. }
  destruct (convert parse_number cells) as [qs|] eqn:Eq.
  { destruct (convert_length _ _ _ Eq) as [Hl Hm]. simpl.
    unfold mask_fvalues. rewrite length_map. simpl in *; congruence. }
  destruct (convert parse_bool cells) as [bs|] eqn:Eb.
  { destruct (convert_length _ _ _ Eb) as [Hl Hm].
    destruct (existsb isna cells) eqn:He; simpl.
    - simpl in *; congruence.
    - rewrite (Hna _ bs Hm eq_refl). simpl in *; congruence. }
  simpl. exact Hc.
Qed.

(** What [read_csv] makes of a file: the first record names the columns,
    every other record is a row, and the columns are inferred from the
    other records alone. *)
Lemma pd_read_csv_OK {L : Literals} (first : list string) (records : csv)
  (na_values : list string) (df : DataFrame) :
  pd_read_csv (first :: records) na_values = OK df ->
  columns df = header_names first
  /\ nrows df = List.length records
  /\ map snd (cols df)
     = map (fun j => infer_column na_values
                       (map (fun r => nth j r "") records))
         (seq 0 (List.length first))
  /\ frame_ok df.
Proof.
  unfold pd_read_csv.
  destruct (forallb _ records); intros H; inversion H; subst; clear H.
  assert (Hlen : List.length (header_names first)
                 = List.length
                     (map (fun j => infer_column na_values
                                      (map (fun r => nth j r "") records))
                        (seq 0 (List.length first))))
    by now rewrite header_names_length, length_map, length_seq.
  unfold columns, frame_ok. cbn [cols nrows].
  rewrite (map_fst_combine _ _ Hlen).
  split; [reflexivity|]. split; [reflexivity|].
  split; [now apply map_snd_combine|].
  apply (Forall_map snd (fun s => size s = List.length records)).
  rewrite (map_snd_combine _ _ Hlen).
  apply Forall_forall. intros s Hs. apply in_map_iff in Hs as (j & <- & _).
  rewrite infer_column_size. apply length_map.
Qed.

(** ** The shape of what is returned *)

Lemma last_item_OK {A} (l : list A) (x : A) :
  last_item l = OK x -> exists l', l = l' ++ [x].
Proof.
  unfold last_item. destruct (rev l) as [|y r] eqn:E; intros H;
    inversion H; subst.
  exists (rev r). rewrite <- (rev_involutive l), E. reflexivity.
Qed.

Lemma filter_negb_length {A} (p : A -> bool) (l : list A) :
  List.length (filter (fun a => negb (p a)) l)
  = List.length l - List.length (filter p l).
Proof.
  induction l as [|a l IH]; [reflexivity|].
  pose proof (filter_length_le p l). cbn [filter].
  destruct (p a); cbn [negb List.length]; rewrite IH; lia.
Qed.

(** The matrix has one column for every name that is not the last name. *)
Lemma separate_shape (n : nat) (df : DataFrame) (data label : ndarray)
  (names : list string) :
  tidy n df -> separate df = OK (Datalist data label names) ->
  exists l, last_item names = OK l
    /\ shape data
       = [n; List.length names - count_occ string_dec names l]
    /\ (count_occ string_dec names l = 1 ->
        exists v, label = Arr1 v /\ List.length v = n).
Proof.
  intros Ht H.
  apply separate_OK in H as (l & sel & rest & Hl & Hsel & Hrest & E).
  inversion E; subst; clear E. exists l. split; [exact Hl|].
  apply drop_OK in Hrest as (_ & Hr & Hc).
  destruct Ht as [Hn Hall]. split.
  - simpl. rewrite Hr, Hn, Hc, filter_negb_length.
    unfold columns. now rewrite count_labelled, length_map.
  - intros Hone. unfold columns in Hone. rewrite count_labelled in Hone.
    apply getitem_OK in Hsel. destruct sel as [s|d].
    + exists (Series_values s). split; [reflexivity|].
      rewrite Series_values_length. rewrite Forall_forall in Hall.
      apply (Hall (l, s)). eapply proj1, filter_In. rewrite Hsel. now left.
    + exfalso. destruct Hsel as (_ & Hd & Hlen).
      rewrite Hd in Hlen. lia.
Qed.

(** When the last name is carried by one column only, the label is a
    vector with one entry per row of the matrix, and the matrix has one
    column less than there are names. *)
Lemma shape_with_unique_last_name {L : Literals} {F : Arithmetic}
  (df : DataFrame)
  (irrelevant_features chars categorical_features header : list string)
  (data label : ndarray) (names : list string) :
  frame_ok df ->
  preprocess df irrelevant_features chars categorical_features header
  = OK (Datalist data label names) ->
  forall l, last_item names = OK l -> count_occ string_dec names l = 1 ->
  exists v, label = Arr1 v
            /\ shape data = [List.length v; List.length names - 1].
Proof.
  intros Hok H l Hl Hone.
  destruct (preprocess_tidy _ _ _ _ _ _ _ _ Hok H)
    as (_ & _ & e & _ & _ & _ & Ht & Hs).
  destruct (separate_shape _ _ _ _ _ Ht Hs) as (l' & Hl' & Hshape & Hlabel).
  assert (l' = l) by congruence. subst l'.
  destruct (Hlabel Hone) as (v & -> & Hv).
  exists v. split; [reflexivity|]. now rewrite Hshape, Hone, Hv.
Qed.

(** C5, at a file where an indicator column takes the name of a column
    that is already there: the last name is carried by two columns, the
    label comes back as a matrix of both, and the feature matrix is left
    with no column although two names are returned. *)
Theorem label_collision_shape :
  preprocessing (L := plain_literals) collision_csv [] [] [] ["c"] []
  = OK (Datalist (Arr2 2 0 [[]; []])
          (Arr2 2 2 [[Int 1; Bool false]; [Int 2; Bool true]])
          ["c_b"; "c_b"])
  /\ shape (Arr2 2 0 [[]; []]) <> [2; List.length ["c_b"; "c_b"] - 1]
  /\ List.length (shape (Arr2 2 2 [[Int 1; Bool false]; [Int 2; Bool true]]))
     = 2.
Proof. split; [reflexivity|]. split; [discriminate | reflexivity]. Qed.

(** ** The first record *)

(** With a header argument that is not empty and a loaded frame that
    [check_header] finds headerless, the labels are the names made from the
    first record and the rows are the other records; assigning the header
    replaces those labels; what is returned has one row per record after
    the first, one less than the file has records; and nothing of the
    result depends on the first record. *)
Lemma first_record_consumed {L : Literals} {F : Arithmetic}
  (first : list string)
  (records : csv)
  (missing_values irrelevant_features chars categorical_features
     header : list string) (df : DataFrame) :
  header <> [] ->
  pd_read_csv (first :: records) missing_values = OK df ->
  check_header df = false ->
  (columns df = header_names first /\ nrows df = List.length records)
  /\ preprocessing (first :: records) missing_values irrelevant_features
       chars categorical_features header
     = (named <- set_columns df header ;;
        clean named irrelevant_features chars categorical_features)
  /\ (forall named, set_columns df header = OK named ->
      columns named = header /\ map snd (cols named) = map snd (cols df))
  /\ (forall data label names,
      preprocessing (first :: records) missing_values irrelevant_features
        chars categorical_features header = OK (Datalist data label names) ->
      len data = List.length (first :: records) - 1
      /\ len label = List.length (first :: records) - 1)
  /\ (forall first' df',
      pd_read_csv (first' :: records) missing_values = OK df' ->
      check_header df' = false ->
      List.length first' = List.length first ->
      preprocessing (first' :: records) missing_values irrelevant_features
        chars categorical_features header
      = preprocessing (first :: records) missing_values irrelevant_features
          chars categorical_features header).
Proof.
  intros Hne Hload Hcheck.
  destruct (pd_read_csv_OK _ _ _ _ Hload) as (Hcols & Hrows & Hdata & Hok).
  assert (Hrun : forall f d,
             pd_read_csv f missing_values = OK d -> check_header d = false ->
             preprocessing f missing_values irrelevant_features chars
               categorical_features header
             = (named <- set_columns d header ;;
                clean named irrelevant_features chars categorical_features)).
  { intros f d Hf Hd. unfold preprocessing, preprocess. rewrite Hf. simpl.
    rewrite Hd. destruct header; [now elim Hne | reflexivity]. }
  split; [now split|]. split; [now apply Hrun|]. split; [|split].
  - intros named Hn. apply set_columns_OK in Hn as (H1 & H2 & _). now split.
  - intros data label names H.
    unfold preprocessing in H. rewrite Hload in H. simpl in H.
    destruct (preprocess_tidy _ _ _ _ _ _ _ _ Hok H)
      as (_ & _ & e & _ & _ & _ & Ht & Hs).
    destruct (separate_tidy _ _ _ _ _ Ht Hs) as (_ & Hd & Hl & _ & _).
    simpl. rewrite Nat.sub_0_r. split; congruence.
  - intros first' df' Hload' Hcheck' Hlen.
    destruct (pd_read_csv_OK _ _ _ _ Hload') as (_ & Hrows' & Hdata' & _).
    rewrite (Hrun _ _ Hload Hcheck), (Hrun _ _ Hload' Hcheck').
    f_equal. unfold set_columns.
    rewrite <- (length_map snd (cols df')), <- (length_map snd (cols df)).
    now rewrite Hdata', Hdata, Hlen, Hrows, Hrows'.
Qed.

Lemma first_record_consumed_witness :
  preprocessing [["1"; "0"]; ["3"; "1"]; ["5"; "0"]] [] [] [] [] ["a"; "b"]
  = OK (Datalist (Arr2 2 1 [[Int 3]; [Int 5]]) (Arr1 [Int 1; Int 0])
          ["a"; "b"])
  /\ len (Arr2 2 1 [[Int 3]; [Int 5]])
     = List.length [["1"; "0"]; ["3"; "1"]; ["5"; "0"]] - 1
  /\ preprocessing [["7"; "7"]; ["3"; "1"]; ["5"; "0"]] [] [] [] [] ["a"; "b"]
     = preprocessing [["1"; "0"]; ["3"; "1"]; ["5"; "0"]] [] [] [] []
         ["a"; "b"].
Proof.
  destruct (first_record_consumed (L := plain_literals) ["1"; "0"]
              [["3"; "1"]; ["5"; "0"]] [] [] [] [] ["a"; "b"]
              (mkDataFrame 2 [("1", IntCol [3%Z; 5%Z]);
                              ("0", IntCol [1%Z; 0%Z])]))
    as (_ & Hrun & _ & Hlen & Hany);
    [discriminate | reflexivity | reflexivity |].
  split; [reflexivity|]. split.
  - exact (proj1 (Hlen (Arr2 2 1 [[Int 3]; [Int 5]]) (Arr1 [Int 1; Int 0])
                    ["a"; "b"] eq_refl)).
  - apply (Hany ["7"; "7"]
             (mkDataFrame 2 [("7", IntCol [3%Z; 5%Z]);
                             ("7", IntCol [1%Z; 0%Z])]));
      reflexivity.
Defined.

(** C9.  The file with the records 3.5,2.5 and 1.5,0.5 has no header,
    and the header [x, y] is given.  No field of the first record is an
    integer for [int], so [check_header] takes the frame to have a header
    and the header that was given is not set: the first record comes back
    as the names, where [x] and [y] should be. *)
Theorem decimal_first_record_kept :
  pd_read_csv (L := plain_literals) [["3.5"; "2.5"]; ["1.5"; "0.5"]] []
  = OK (mkDataFrame 1 [("3.5", FloatCol [Some (Qmake 15 10)]);
                       ("2.5", FloatCol [Some (Qmake 5 10)])])
  /\ check_header
       (mkDataFrame 1 [("3.5", FloatCol [Some (Qmake 15 10)]);
                       ("2.5", FloatCol [Some (Qmake 5 10)])]) = true
  /\ preprocessing (L := plain_literals)
       [["3.5"; "2.5"]; ["1.5"; "0.5"]] [] [] [] [] ["x"; "y"]
     = OK (Datalist (Arr2 1 1 [[Float (Qmake 15 10)]])
             (Arr1 [Float (Qmake 5 10)]) ["3.5"; "2.5"])
  /\ preprocessing (L := plain_literals)
       [["3.5"; "2.5"]; ["1.5"; "0.5"]] [] [] [] [] ["x"; "y"]
     = preprocessing (L := plain_literals)
         [["3.5"; "2.5"]; ["1.5"; "0.5"]] [] [] [] [] [].
Proof. split; [|split; [|split]]; reflexivity. Qed.

(** ** Columns without a value *)

(** C10.  A file whose only column holds nothing but the missing token is
    loaded as a float column of NaN, and [round] refuses its mean; a file
    with the header alone gives a string column without rows, and the
    mode of it has no first entry.  Either way an exception leaves
    [preprocessing], not a list and not the message; so does any float
    column, and any string column, made of missing entries only. *)
Theorem all_missing_column_raises {L : Literals} {F : Arithmetic} :
  preprocessing [["a"]; ["?"]; ["?"]] ["?"] [] [] [] [] = Raised ValueError
  /\ pd_read_csv [["a"]; ["?"]; ["?"]] ["?"]
     = OK (mkDataFrame 2 [("a", FloatCol [None; None])])
  /\ preprocessing [["a"]] [] [] [] [] [] = Raised KeyError
  /\ (forall n, fill_column (FloatCol (repeat None n)) = Raised ValueError)
  /\ (forall n, fill_column (StrCol (repeat None n)) = Raised KeyError).
Proof.
  assert (Ha : header_names ["a"] = ["a"]).
  { apply header_names_plain; repeat constructor; simpl;
      intuition discriminate. }
  assert (Hnone : forall A n, dropna (repeat (@None A) n) = []).
  { intros A n. induction n; simpl; auto. }
  split; [|split; [|split; [|split]]].
  - unfold preprocessing, pd_read_csv. simpl. rewrite Ha. simpl.
    unfold preprocess, clean, fill_missing, fill_feature. simpl.
    now rewrite (Series_mean_empty [None; None] eq_refl).
  - unfold pd_read_csv. simpl. rewrite Ha. reflexivity.
  - unfold preprocessing, pd_read_csv. simpl. rewrite Ha. reflexivity.
  - intros n. simpl. now rewrite (Series_mean_empty _ (Hnone Q n)).
  - intros n. simpl. now rewrite Hnone.
Qed.

(** ** The reduction wrappers *)

Lemma first_columns_shape (n : Z) (X Y : ndarray) :
  first_columns n X = OK Y ->
  exists r c, shape X = [r; c] /\ (0 <= n)%Z /\ shape Y = [r; Z.to_nat n].
Proof.
  destruct X as [v|r c rows]; simpl; [discriminate|].
  destruct (Z.leb_spec 0 n) as [Hn|Hn]; simpl; [|discriminate].
  destruct (Z.to_nat n <=? c); intros H; inversion H; subst.
  exists r, c. now repeat split.
Qed.

#[export] Instance first_columns_reducers : Reducers := {|
  random_state := unit;
  PCA_fit_transform := first_columns;
  TSNE_fit_transform := fun _ => first_columns;
  PCA_shape := first_columns_shape;
  TSNE_shape := fun _ => first_columns_shape
|}.

Lemma py_range_length (a b : Z) : List.length (py_range a b) = Z.to_nat (b - a).
Proof. unfold py_range. now rewrite length_map, length_seq. Qed.

Lemma nth_map_in {A B} (f : A -> B) (l : list A) (d : A) (d' : B) (i : nat) :
  i < List.length l -> nth i (map f l) d' = f (nth i l d).
Proof.
  revert i. induction l as [|a l IH]; simpl; intros i Hi; [lia|].
  destruct i; [reflexivity|]. apply IH. lia.
Qed.

Lemma py_range_nth (a b : Z) (i : nat) :
  i < Z.to_nat (b - a) -> nth i (py_range a b) 0%Z = (a + Z.of_nat i)%Z.
Proof.
  intros Hi. unfold py_range.
  rewrite (nth_map_in _ _ 0) by now rewrite length_seq.
  now rewrite seq_nth.
Qed.

Lemma feature_names_spec (n : Z) :
  List.length (feature_names n) = Z.to_nat n
  /\ forall i, i < Z.to_nat n ->
       nth i (feature_names n) ""
       = ("feature_" ++ py_str (Z.of_nat i + 1))%string.
Proof.
  unfold feature_names.
  assert (E : (n + 1 - 1 = n)%Z) by lia.
  split.
  - now rewrite length_map, py_range_length, E.
  - intros i Hi.
    rewrite (nth_map_in _ _ 0%Z) by now rewrite py_range_length, E.
    rewrite py_range_nth by now rewrite E.
    now rewrite Z.add_comm.
Qed.

(** C6.  Each wrapper hands the feature matrix to its routine and, when
    the routine returns, gives back the routine's matrix, the label array
    it was given and the names feature_1 to feature_n; by the routine's
    contract the matrix has the rows of the input and [n] columns.  An
    exception of the routine leaves the wrapper. *)
Theorem reduction_contract {R : Reducers} (data label : ndarray)
  (names : list string) (n : Z) (g : random_state) :
  (forall out, pca (Datalist data label names) n = OK out ->
     exists Y r c,
       PCA_fit_transform n data = OK Y
       /\ out = Datalist Y label (feature_names n)
       /\ shape data = [r; c] /\ shape Y = [r; Z.to_nat n])
  /\ (forall out, tsne g (Datalist data label names) n = OK out ->
      exists Y r c,
        TSNE_fit_transform g n data = OK Y
        /\ out = Datalist Y label (feature_names n)
        /\ shape data = [r; c] /\ shape Y = [r; Z.to_nat n])
  /\ (forall Y, PCA_fit_transform n data = OK Y ->
      pca (Datalist data label names) n
      = OK (Datalist Y label (feature_names n)))
  /\ (forall Y, TSNE_fit_transform g n data = OK Y ->
      tsne g (Datalist data label names) n
      = OK (Datalist Y label (feature_names n)))
  /\ (forall e, PCA_fit_transform n data = Raised e ->
      pca (Datalist data label names) n = Raised e)
  /\ (forall e, TSNE_fit_transform g n data = Raised e ->
      tsne g (Datalist data label names) n = Raised e)
  /\ List.length (feature_names n) = Z.to_nat n
  /\ (forall i, i < Z.to_nat n ->
      nth i (feature_names n) ""
      = ("feature_" ++ py_str (Z.of_nat i + 1))%string).
Proof.
  unfold pca, tsne. simpl.
  repeat match goal with |- _ /\ _ => split end.
  - intros out H. destruct (PCA_fit_transform n data) as [Y|e] eqn:E;
      simpl in H; inversion H; subst.
    destruct (PCA_shape _ _ _ E) as (r & c & Hx & _ & Hy).
    now exists Y, r, c.
  - intros out H. destruct (TSNE_fit_transform g n data) as [Y|e] eqn:E;
      simpl in H; inversion H; subst.
    destruct (TSNE_shape _ _ _ _ E) as (r & c & Hx & _ & Hy).
    now exists Y, r, c.
  - now intros Y ->.
  - now intros Y ->.
  - now intros e ->.
  - now intros e ->.
  - apply feature_names_spec.
  - apply feature_names_spec.
Qed.

Lemma reduction_contract_witness :
  pca (Datalist (Arr2 2 3 [[Int 1; Int 2; Int 3]; [Int 4; Int 5; Int 6]])
         (Arr1 [Bool true; Bool false]) ["a"; "b"; "c"; "y"]) 2
  = OK (Datalist (Arr2 2 2 [[Int 1; Int 2]; [Int 4; Int 5]])
          (Arr1 [Bool true; Bool false]) ["feature_1"; "feature_2"])
  /\ tsne tt
       (Datalist (Arr2 2 3 [[Int 1; Int 2; Int 3]; [Int 4; Int 5; Int 6]])
          (Arr1 [Bool true; Bool false]) ["a"; "b"; "c"; "y"]) 2
     = OK (Datalist (Arr2 2 2 [[Int 1; Int 2]; [Int 4; Int 5]])
             (Arr1 [Bool true; Bool false]) ["feature_1"; "feature_2"]).
Proof.
  destruct (reduction_contract (R := first_columns_reducers)
              (Arr2 2 3 [[Int 1; Int 2; Int 3]; [Int 4; Int 5; Int 6]])
              (Arr1 [Bool true; Bool false]) ["a"; "b"; "c"; "y"] 2 tt)
    as (_ & _ & Hp & Ht & _).
  split.
  - apply (Hp (Arr2 2 2 [[Int 1; Int 2]; [Int 4; Int 5]])). reflexivity.
  - apply (Ht (Arr2 2 2 [[Int 1; Int 2]; [Int 4; Int 5]])). reflexivity.
Defined.

(* ================================================================== *)
(** * More about the code *)

(** ** Dropping the irrelevant features *)

Lemma mentions_cons (f : string) (rest : list string) (x : string) :
  mentions (f :: rest) x = String.eqb x f || mentions rest x.
Proof. reflexivity. Qed.

Lemma columns_filter (p : string -> bool) (l : list (string * Series)) :
  map fst (filter (fun c => p (fst c)) l) = filter p (map fst l).
Proof.
  induction l as [|c l IH]; simpl; [reflexivity|].
  destruct (p (fst c)); simpl; now rewrite IH.
Qed.

Lemma drops_spec (fs : list string) :
  forall df df',
  for_each drop fs df = OK df' ->
  NoDup fs /\ incl fs (columns df) /\ nrows df' = nrows df
  /\ cols df' = filter (fun c => negb (mentions fs (fst c))) (cols df).
Proof.
  induction fs as [|f rest IH]; intros df df' H; simpl in H.
  - inversion H; subst. split; [constructor|]. split; [easy|].
    split; [reflexivity|]. symmetry. apply filter_all.
    now apply Forall_forall.
  - apply bind_OK in H as (df1 & H1 & H).
    apply drop_OK in H1 as (Hf & Hr1 & Hc1).
    destruct (IH _ _ H) as (Hnd & Hincl & Hr & Hc).
    assert (Hsub : forall g, In g (columns df1) -> In g (columns df) /\ g <> f).
    { intros g Hg. unfold columns in Hg. rewrite Hc1 in Hg.
      apply in_map_iff in Hg as (c & <- & Hc0).
      apply filter_In in Hc0 as [Hc0 Hl]. split; [now apply in_map|].
      apply negb_true_iff, not_true_iff_false in Hl.
      now rewrite labelled_iff in Hl. }
    split; [|split; [|split]].
    + constructor; [|exact Hnd]. intros Hin.
      now destruct (Hsub f (Hincl f Hin)).
    + intros g [<-|Hg]; [exact Hf|]. now apply Hsub, Hincl.
    + congruence.
    + rewrite Hc, Hc1, filter_filter. apply filter_ext. intros c.
      rewrite mentions_cons, negb_orb. reflexivity.
Qed.

Lemma drops_total (fs : list string) :
  NoDup fs -> forall df, incl fs (columns df) ->
  exists df', for_each drop fs df = OK df'.
Proof.
  induction 1 as [|f rest Hf Hnd IH]; intros df Hincl; simpl; [eauto|].
  rewrite (drop_present df f) by (apply Hincl; now left). simpl.
  apply IH. intros g Hg. unfold columns. simpl.
  assert (Hg' : In g (columns df)) by (apply Hincl; now right).
  unfold columns in Hg'. apply in_map_iff in Hg' as (c & <- & Hc).
  apply in_map, filter_In. split; [exact Hc|].
  apply negb_true_iff, not_true_iff_false. rewrite labelled_iff.
  intros E. apply Hf. now rewrite <- E.
Qed.

Lemma drops_raise (fs : list string) :
  forall df e, for_each drop fs df = Raised e -> e = KeyError.
Proof.
  induction fs as [|f rest IH]; intros df e H; simpl in H; [discriminate|].
  unfold drop in H at 1.
  destruct (existsb (labelled f) (cols df)); simpl in H.
  - now apply IH in H.
  - now inversion H.
Qed.

(** X1.  The loop over [irrelevant_features] removes exactly the columns
    whose label is listed and keeps the others, in their order, with their
    rows; it goes through exactly when every listed name labels a column
    and no name is listed twice, and raises [KeyError] otherwise. *)
Theorem irrelevant_features_dropped (fs : list string) (df : DataFrame) :
  (forall df', for_each drop fs df = OK df' ->
     nrows df' = nrows df
     /\ cols df' = filter (fun c => negb (mentions fs (fst c))) (cols df))
  /\ ((exists df', for_each drop fs df = OK df')
      <-> NoDup fs /\ incl fs (columns df))
  /\ (forall e, for_each drop fs df = Raised e -> e = KeyError).
Proof.
  split; [|split].
  - intros df' H. now apply drops_spec in H.
  - split.
    + intros [df' H]. apply drops_spec in H. tauto.
    + intros [Hnd Hincl]. now apply drops_total.
  - apply drops_raise.
Qed.

(** ** The header argument *)

(** X2.  When the first record is taken for data and a header is given
    whose length is not the number of fields of that record, line 64
    raises [ValueError]. *)
Theorem header_of_wrong_length_raises {L : Literals} {F : Arithmetic}
  (first : list string)
  (records : csv)
  (missing_values irrelevant_features chars categorical_features
     header : list string) (df : DataFrame) :
  pd_read_csv (first :: records) missing_values = OK df ->
  check_header df = false -> header <> [] ->
  List.length header <> List.length first ->
  preprocessing (first :: records) missing_values irrelevant_features chars
    categorical_features header = Raised ValueError.
Proof.
  intros Hload Hcheck Hne Hlen.
  destruct (pd_read_csv_OK _ _ _ _ Hload) as (Hcols & _).
  unfold preprocessing, preprocess. rewrite Hload. simpl. rewrite Hcheck.
  destruct header as [|h header]; [now elim Hne|]. simpl.
  rewrite (set_columns_mismatch df (h :: header)); [reflexivity|].
  now rewrite Hcols, header_names_length.
Qed.

Lemma header_of_wrong_length_raises_witness :
  preprocessing (L := plain_literals) [["1"; "2"]; ["3"; "4"]] [] [] [] []
    ["a"] = Raised ValueError.
Proof.
  apply (header_of_wrong_length_raises (L := plain_literals) ["1"; "2"]
           [["3"; "4"]] [] [] [] [] ["a"]
           (mkDataFrame 1 [("1", IntCol [3%Z]); ("2", IntCol [4%Z])]));
    [reflexivity | reflexivity | discriminate | discriminate].
Defined.

Lemma clean_OK {L : Literals} {F : Arithmetic}
  (df : DataFrame)
  (irrelevant_features chars categorical_features : list string)
  (out : returned) :
  clean df irrelevant_features chars categorical_features = OK out ->
  exists dropped features stripped filled encoded,
    for_each drop irrelevant_features df = OK dropped
    /\ str_features dropped (columns dropped) = OK features
    /\ remove_chars chars features dropped = OK stripped
    /\ fill_missing (columns dropped) stripped = OK filled
    /\ for_each encode_feature categorical_features filled = OK encoded
    /\ separate encoded = OK out.
Proof.
  unfold clean. intros H.
  apply bind_OK in H as (df1 & H1 & H).
  apply bind_OK in H as (fs & Hfs & H).
  apply bind_OK in H as (df2 & H2 & H).
  apply bind_OK in H as (df3 & H3 & H).
  apply bind_OK in H as (df4 & H4 & H).
  now exists df1, fs, df2, df3, df4.
Qed.

(** X3.  The message is returned in one case only: the frame is found
    headerless and the [header] argument is empty.  Every other run that
    returns gives the list. *)
Theorem message_only_without_header {L : Literals} {F : Arithmetic}
  (df : DataFrame)
  (irrelevant_features chars categorical_features header : list string)
  (m : string) :
  preprocess df irrelevant_features chars categorical_features header
  = OK (Message m) ->
  check_header df = false /\ header = []
  /\ m = "Error: the dataset has no header, please enter the columns names".
Proof.
  assert (Hclean : forall d, clean d irrelevant_features chars
                               categorical_features <> OK (Message m)).
  { intros d H.
    apply clean_OK in H as (d1 & fs & d2 & d3 & e & _ & _ & _ & _ & _ & H).
    apply separate_OK in H as (l & sel & rest & _ & _ & _ & H).
    discriminate. }
  unfold preprocess. destruct (check_header df).
  - intros H. now apply Hclean in H.
  - destruct header as [|h header]; simpl.
    + intros H. now inversion H.
    + intros H. apply bind_OK in H as (d & _ & H). now apply Hclean in H.
Qed.

Lemma message_only_without_header_witness :
  check_header (mkDataFrame 1 [("1", IntCol [3%Z]); ("2", IntCol [4%Z])])
  = false
  /\ @nil string = []
  /\ "Error: the dataset has no header, please enter the columns names"
     = "Error: the dataset has no header, please enter the columns names".
Proof.
  apply (message_only_without_header (L := plain_literals)
           (mkDataFrame 1 [("1", IntCol [3%Z]); ("2", IntCol [4%Z])])
           [] [] [] []).
  reflexivity.
Defined.

(** ** Repeated labels *)

Lemma str_features_raise (df : DataFrame) (names : list string) :
  incl names (columns df) ->
  forall e, str_features df names = Raised e -> e = ValueError.
Proof.
  induction names as [|f rest IH]; intros Hincl e H; simpl in H;
    [discriminate|].
  assert (Hf : In f (columns df)) by (apply Hincl; now left).
  unfold getitem in H.
  destruct (filter (labelled f) (cols df)) as [|c [|c' l]] eqn:E.
  - exfalso. unfold columns in Hf. apply in_map_iff in Hf as (c & Ec & Hc).
    assert (Hin : In c (filter (labelled f) (cols df)))
      by (apply filter_In; split; [exact Hc | now apply labelled_iff]).
    now rewrite E in Hin.
  - simpl in H.
    destruct (str_features df rest) as [r|e'] eqn:Er; simpl in H;
      [discriminate|].
    inversion H; subst. apply IH; [|reflexivity].
    intros g Hg. apply Hincl. now right.
  - simpl in H. now inversion H.
Qed.

(** X4.  When two of the columns left after the irrelevant ones are
    dropped carry the same label, line 77 raises [ValueError]: the test
    [df[f].dtypes==object] is then made on a frame of several columns and
    has no truth value. *)
Theorem repeated_label_raises {L : Literals} {F : Arithmetic}
  (df dropped : DataFrame)
  (irrelevant_features chars categorical_features : list string) :
  for_each drop irrelevant_features df = OK dropped ->
  ~ NoDup (columns dropped) ->
  clean df irrelevant_features chars categorical_features
  = Raised ValueError.
Proof.
  intros Hd Hdup. unfold clean. rewrite Hd. simpl.
  destruct (str_features dropped (columns dropped)) as [fs|e] eqn:E.
  - apply str_features_NoDup in E as [Hnd _]. now elim Hdup.
  - simpl. f_equal. apply (str_features_raise dropped (columns dropped));
      [apply incl_refl | exact E].
Qed.

Lemma repeated_label_raises_witness :
  clean (L := plain_literals)
    (mkDataFrame 1 [("id", IntCol [7%Z]); ("a", IntCol [1%Z]);
                    ("a", IntCol [0%Z])]) ["id"] [] []
  = Raised ValueError.
Proof.
  apply (repeated_label_raises (L := plain_literals)
           (mkDataFrame 1 [("id", IntCol [7%Z]); ("a", IntCol [1%Z]);
                           ("a", IntCol [0%Z])])
           (mkDataFrame 1 [("a", IntCol [1%Z]); ("a", IntCol [0%Z])])
           ["id"] [] []).
  - reflexivity.
  - intros H. inversion H as [|? ? Hnotin _]; subst. apply Hnotin. now left.
Defined.

(** ** No column left *)

Lemma remove_chars_nil (chars : list string) (df : DataFrame) :
  remove_chars chars [] df = OK df.
Proof.
  unfold remove_chars. induction chars as [|c rest IH]; simpl;
    [reflexivity | exact IH].
Qed.

(** X5.  When the irrelevant features are all the columns there are,
    nothing is left to split: without categorical features line 101
    raises [IndexError] at [df.columns[-1]], and with one, line 92 raises
    [KeyError]. *)
Theorem no_column_left_raises {L : Literals} {F : Arithmetic}
  (df dropped : DataFrame)
  (irrelevant_features chars : list string) :
  for_each drop irrelevant_features df = OK dropped ->
  cols dropped = [] ->
  clean df irrelevant_features chars [] = Raised IndexError
  /\ forall f categorical_features,
       clean df irrelevant_features chars (f :: categorical_features)
       = Raised KeyError.
Proof.
  intros Hd Hc. unfold clean. rewrite Hd. cbn [bind].
  unfold columns. rewrite Hc. cbn [map str_features bind].
  rewrite remove_chars_nil. cbn [bind fill_missing for_each].
  split.
  - unfold separate, columns. rewrite Hc. reflexivity.
  - intros f cats. unfold encode_feature, getitem. now rewrite Hc.
Qed.

Lemma no_column_left_raises_witness :
  clean (L := plain_literals)
    (mkDataFrame 1 [("id", IntCol [7%Z]); ("a", IntCol [1%Z])])
    ["a"; "id"] [" "] [] = Raised IndexError.
Proof.
  apply (no_column_left_raises (L := plain_literals)
           (mkDataFrame 1 [("id", IntCol [7%Z]); ("a", IntCol [1%Z])])
           (mkDataFrame 1 []) ["a"; "id"] [" "]); reflexivity.
Defined.

(** ** The split *)

Lemma filter_none {A} (p : A -> bool) (l : list A) :
  Forall (fun a => p a = false) l -> filter p l = [].
Proof.
  induction 1 as [|a l Ha _ IH]; simpl; [reflexivity|]. now rewrite Ha.
Qed.

Lemma not_labelled (l : string) (front : list (string * Series)) :
  ~ In l (map fst front) -> Forall (fun c => labelled l c = false) front.
Proof.
  intros H. apply Forall_forall. intros c Hc.
  apply not_true_iff_false. rewrite labelled_iff. intros E. apply H.
  rewrite <- E. now apply in_map.
Qed.

Lemma entry_to_numpy (df : DataFrame) (i j : nat) (d : string * Series) :
  i < nrows df -> j < List.length (cols df) ->
  entry (DataFrame_to_numpy df) i j
  = (if upcast_to_float (cols df) then as_float64 else fun x => x)
      (nth i (Series_values (snd (nth j (cols df) d))) NaN).
Proof.
  intros Hi Hj. unfold entry, DataFrame_to_numpy. cbv zeta.
  rewrite (nth_map_in _ _ 0) by now rewrite length_seq.
  rewrite seq_nth by exact Hi. cbn [Nat.add].
  now rewrite (nth_map_in _ _ d) by exact Hj.
Qed.


(** An integer of at most 53 bits is a float64. *)
Lemma Z_to_float64_exact (z : Z) :
  (Z.abs z <= 2 ^ 53)%Z -> Z_to_float64 z = inject_Z z.
Proof.
  intros Hz. unfold Z_to_float64. cbv zeta.
  destruct (Z.leb_spec (Z.log2 (Z.abs z) - 52) 0) as [He|He]; [reflexivity|].
  assert (Ha : Z.abs z = (2 ^ 53)%Z).
  { apply Z.le_antisymm; [exact Hz|].
    assert (Hpos : (0 < Z.abs z)%Z).
    { destruct (Z.eq_dec (Z.abs z) 0) as [E0|E0]; [|lia].
      rewrite E0 in He. discriminate He. }
    apply (Z.log2_le_pow2 _ _ Hpos). lia. }
  destruct (Z.abs_eq_or_opp z) as [E|E]; rewrite E in Ha.
  - subst z. reflexivity.
  - assert (Ez : z = (- 2 ^ 53)%Z) by lia. subst z. reflexivity.
Qed.

(** When one dtype is given to integers and floats, every column is one of
    integers or one of floats, and there is one of each. *)
Lemma upcast_to_float_spec (cs : list (string * Series)) :
  upcast_to_float cs = true
  <-> (exists c, In c cs /\ dtype_is_float (snd c) = true)
      /\ (exists c, In c cs /\ dtype_is_int (snd c) = true)
      /\ (forall c, In c cs ->
          dtype_is_float (snd c) = true \/ dtype_is_int (snd c) = true).
Proof.
  unfold upcast_to_float.
  rewrite !andb_true_iff, !existsb_exists, forallb_forall.
  split.
  - intros [[Hf Hi] Hall]. split; [exact Hf|]. split; [exact Hi|].
    intros c Hc. apply orb_true_iff. now apply Hall.
  - intros (Hf & Hi & Hall). split; [now split|].
    intros c Hc. apply orb_true_iff. now apply Hall.
Qed.

Lemma separate_last (df : DataFrame) (front : list (string * Series))
  (l : string) (s : Series) :
  cols df = front ++ [(l, s)] -> ~ In l (map fst front) ->
  separate df
  = OK (Datalist (DataFrame_to_numpy (mkDataFrame (nrows df) front))
          (Arr1 (Series_values s)) (map fst front ++ [l])).
Proof.
  intros Hc Hl. pose proof (not_labelled _ _ Hl) as Hfront.
  assert (Hlast : labelled l (l, s) = true) by now apply labelled_iff.
  assert (Hone : filter (labelled l) (cols df) = [(l, s)]).
  { rewrite Hc, filter_app, (filter_none _ _ Hfront). cbn [filter app].
    now rewrite Hlast. }
  assert (Hin : In l (columns df)).
  { unfold columns. rewrite Hc, map_app. apply in_or_app. right. now left. }
  unfold separate, columns, last_item. rewrite Hc, map_app.
  cbn [map fst].
  rewrite rev_app_distr. cbn [rev app bind].
  rewrite (getitem_one _ _ _ Hone). cbn [bind to_numpy].
  rewrite (drop_present _ _ Hin). cbn [bind].
  rewrite Hc, filter_app. cbn [filter]. rewrite Hlast. cbn [negb].
  rewrite app_nil_r, filter_all; [reflexivity|].
  eapply Forall_impl; [|exact Hfront]. now intros c ->.
Qed.

(** X6.  When the last label is carried by the last column alone, the
    label array is that column with its own values, the names are all the
    labels, the last one included, and the matrix has one row per row of
    the frame and one column per other column, in their order.  Entry
    [i][j] is row [i] of column [j] as long as the other columns do not
    mix integers with floats.  When they are columns of integers and
    columns of floats and nothing else, numpy gives the matrix the dtype
    float64: a float and a missing entry stay, an integer becomes the
    nearest float64, which is the integer itself up to [2^53] in magnitude
    and may be another number beyond. *)
Theorem last_column_is_label (df : DataFrame)
  (front : list (string * Series)) (l : string) (s : Series) :
  cols df = front ++ [(l, s)] -> ~ In l (map fst front) ->
  exists data,
    separate df
    = OK (Datalist data (Arr1 (Series_values s)) (map fst front ++ [l]))
    /\ shape data = [nrows df; List.length front]
    /\ well_shaped data
    /\ (forall i j d, i < nrows df -> j < List.length front ->
        let x := nth i (Series_values (snd (nth j front d))) NaN in
        (upcast_to_float front = false -> entry data i j = x)
        /\ (upcast_to_float front = true ->
            match x with
            | Int z =>
                entry data i j = Float (Z_to_float64 z)
                /\ ((Z.abs z <= 2 ^ 53)%Z ->
                    entry data i j = Float (inject_Z z))
            | _ => entry data i j = x
            end))
    /\ (upcast_to_float front = true
        <-> (exists c, In c front /\ dtype_is_float (snd c) = true)
            /\ (exists c, In c front /\ dtype_is_int (snd c) = true)
            /\ (forall c, In c front ->
                dtype_is_float (snd c) = true \/ dtype_is_int (snd c) = true))
    /\ Z_to_float64 9007199254740993 = inject_Z 9007199254740992.
Proof.
  intros Hc Hl.
  exists (DataFrame_to_numpy (mkDataFrame (nrows df) front)).
  split; [now apply separate_last|]. split; [reflexivity|].
  split; [apply to_numpy_well_shaped|].
  split; [|split; [apply upcast_to_float_spec | reflexivity]].
  intros i j d Hi Hj. cbv zeta.
  pose proof (entry_to_numpy (mkDataFrame (nrows df) front) i j d Hi Hj) as E.
  cbn [cols] in E. revert E.
  generalize (nth i (Series_values (snd (nth j front d))) NaN).
  intros x E. split; intros Hup; rewrite Hup in E.
  - exact E.
  - destruct x as [|q|z|b|t]; try exact E. cbn [as_float64] in E.
    split; [exact E|]. intros Hz. now rewrite <- (Z_to_float64_exact z Hz).
Qed.

Lemma last_column_is_label_witness :
  exists data,
    separate (mkDataFrame 1 [("n", IntCol [9007199254740993%Z]);
                             ("x", FloatCol [Some (1 # 2)%Q]);
                             ("class", BoolCol [true])])
    = OK (Datalist data (Arr1 [Bool true]) ["n"; "x"; "class"])
    /\ shape data = [1; 2]
    /\ entry data 0 0 = Float (inject_Z 9007199254740992)
    /\ entry data 0 1 = Float (1 # 2)%Q.
Proof.
  destruct (last_column_is_label
              (mkDataFrame 1 [("n", IntCol [9007199254740993%Z]);
                              ("x", FloatCol [Some (1 # 2)%Q]);
                              ("class", BoolCol [true])])
              [("n", IntCol [9007199254740993%Z]);
               ("x", FloatCol [Some (1 # 2)%Q])] "class" (BoolCol [true])
              eq_refl)
    as (data & Hsep & Hshape & _ & Hentry & _ & Hbig).
  - simpl. intros [H|[H|[]]]; discriminate H.
  - exists data. split; [exact Hsep|]. split; [exact Hshape|]. split.
    + destruct (Hentry 0 0 ("", IntCol []))
        as [_ H]; [simpl; lia | simpl; lia |].
      destruct (H eq_refl) as [H0 _]. rewrite H0. now rewrite Hbig.
    + destruct (Hentry 0 1 ("", IntCol []))
        as [_ H]; [simpl; lia | simpl; lia |].
      exact (H eq_refl).
Defined.

(** ** Without categorical features *)

Lemma NoDup_count_one (names : list string) (l : string) :
  NoDup names -> In l names -> count_occ string_dec names l = 1.
Proof.
  intros Hnd Hin. pose proof (proj1 (NoDup_count_occ string_dec names) Hnd l).
  apply (count_occ_In string_dec) in Hin. lia.
Qed.

(** X7.  With no categorical feature, a run that returns gives as names
    the labels that are not listed as irrelevant, in their order and
    pairwise distinct; the label array is a vector with one entry per row
    of the matrix, and the matrix has one column less than there are
    names. *)
Theorem names_without_encoding {L : Literals} {F : Arithmetic}
  (df : DataFrame)
  (irrelevant_features chars : list string) (data label : ndarray)
  (names : list string) :
  frame_ok df ->
  clean df irrelevant_features chars [] = OK (Datalist data label names) ->
  names = filter (fun f => negb (mentions irrelevant_features f)) (columns df)
  /\ NoDup names
  /\ exists v, label = Arr1 v
       /\ shape data = [List.length v; List.length names - 1].
Proof.
  intros Hok H.
  destruct (clean_tidy _ _ _ _ _ Hok H) as (d & e & _ & _ & Ht & Hs).
  apply clean_OK in H as (d1 & fs & d2 & d3 & d4 & H1 & Hfs & H2 & H3 & H4 & H).
  simpl in H4. inversion H4; subst d4; clear H4.
  apply drops_spec in H1 as (_ & _ & _ & Hc1).
  destruct (str_features_NoDup _ _ Hfs) as [Hnd1 Hndfs].
  destruct (remove_chars_spec _ Hndfs _ _ _ H2) as [_ Hc2].
  apply Forall2_fst_eq in Hc2.
  assert (H3' : fill_missing (columns d2) d2 = OK d3)
    by (unfold columns; now rewrite Hc2).
  destruct (fill_missing_imputed _ _ H3') as [_ Hc3].
  apply Forall2_fst_eq in Hc3.
  apply separate_OK in H as (l & sel & rest & Hl & _ & _ & E).
  inversion E; subst data label names; clear E.
  assert (Enames : columns d3 = columns d1)
    by (unfold columns; congruence).
  split; [|split].
  - rewrite Enames. unfold columns. rewrite Hc1.
    apply (columns_filter (fun f => negb (mentions irrelevant_features f))).
  - now rewrite Enames.
  - destruct (separate_shape _ _ _ _ _ Ht Hs) as (l' & Hl' & Hshape & Hlabel).
    assert (Hone : count_occ string_dec (columns d3) l' = 1).
    { apply NoDup_count_one; [now rewrite Enames|].
      apply last_item_OK in Hl' as [front ->]. apply in_or_app.
      right. now left. }
    destruct (Hlabel Hone) as (v & Ev & Hv).
    exists v. split; [exact Ev|]. now rewrite Hshape, Hone, Hv.
Qed.

Lemma names_without_encoding_witness :
  ["age"; "class"]
  = filter (fun f => negb (mentions ["id"] f)) (columns example_frame)
  /\ NoDup ["age"; "class"]
  /\ exists v, Arr1 [Str "yes"; Str "no"] = Arr1 v
       /\ shape (Arr2 2 1 [[Float (25 # 1)%Q]; [Float (25 # 1)%Q]])
          = [List.length v; List.length ["age"; "class"] - 1].
Proof.
  apply (names_without_encoding (L := plain_literals) example_frame
           ["id"] [] _ _ _ example_frame_ok).
  reflexivity.
Defined.

(** ** Missing tokens *)










(** ** Labels that are no integers *)

(** X9.  A label that holds a character other than a digit, a sign, an
    underscore or a blank is no integer for [int]; a frame all of whose
    labels hold such a character is found to have a header, so that a
    first record of decimal numbers or of words is taken for one. *)
Theorem labels_with_other_characters_are_header (df : DataFrame) :
  (forall f, In f (columns df) -> all_chars int_char f = false) ->
  check_header df = true.
Proof.
  intros H. apply check_header_true, Forall_forall. intros f Hf.
  destruct (py_int f) as [z|] eqn:E; [|reflexivity].
  apply py_int_chars in E. now rewrite (H f Hf) in E.
Qed.

Lemma labels_with_other_characters_are_header_witness :
  check_header
    (mkDataFrame 1 [("3.5", FloatCol [Some (Qmake 15 10)]);
                    ("12:30", StrCol [Some "12:45"]);
                    ("1e3", FloatCol [Some (Qmake 5 10)])]) = true.
Proof.
  apply labels_with_other_characters_are_header.
  intros f [<-|[<-|[<-|[]]]]; reflexivity.
Defined.

(** ** The wrappers on what is no list of arrays *)

Lemma pca_Message {R : Reducers} (s : string) (n : Z) :
  exists e, pca (Message s) n = Raised e.
Proof.
  unfold pca. destruct s as [|a s]; simpl; [eauto|].
  destruct (PCA_fit_transform n (Arr1 [Str (String a "")])) as [Y|e] eqn:E;
    simpl; [|eauto].
  destruct (PCA_shape _ _ _ E) as (r & c & Hx & _). discriminate Hx.
Qed.

Lemma tsne_Message {R : Reducers} (g : random_state) (s : string) (n : Z) :
  exists e, tsne g (Message s) n = Raised e.
Proof.
  unfold tsne. destruct s as [|a s]; simpl; [eauto|].
  destruct (TSNE_fit_transform g n (Arr1 [Str (String a "")])) as [Y|e] eqn:E;
    simpl; [|eauto].
  destruct (TSNE_shape _ _ _ _ E) as (r & c & Hx & _). discriminate Hx.
Qed.

(** X10.  Given the message instead of the list, a wrapper never returns:
    [datalist[0]] is then a character, which no routine takes for a
    matrix, and the wrapper raises, whatever the message and the number of
    components asked for. *)
Theorem message_is_not_reduced {R : Reducers} (s : string) (n : Z)
  (g : random_state) :
  (exists e, pca (Message s) n = Raised e)
  /\ (exists e, tsne g (Message s) n = Raised e).
Proof. split; [apply pca_Message | apply tsne_Message]. Qed.

(** ** The names of the components *)

Lemma py_range_NoDup (a b : Z) : NoDup (py_range a b).
Proof.
  unfold py_range. apply NoDup_map_on; [|apply seq_NoDup].
  intros x y _ _ E. lia.
Qed.

(** X11.  The names a wrapper returns are pairwise distinct, none of them
    is a name [int] accepts, and there is none when [n] is not
    positive. *)
Theorem feature_names_distinct (n : Z) :
  NoDup (feature_names n)
  /\ Forall (fun f => py_int f = None) (feature_names n)
  /\ ((n <= 0)%Z -> feature_names n = []).
Proof.
  unfold feature_names. split; [|split].
  - apply NoDup_map_on; [|apply py_range_NoDup].
    intros x y _ _ E. now apply append_inj_l, py_str_inj in E.
  - apply Forall_forall. intros f Hf. apply in_map_iff in Hf as (i & <- & _).
    destruct (py_int ("feature_" ++ py_str i)) as [z|] eqn:E; [|reflexivity].
    apply py_int_chars in E. discriminate E.
  - intros Hn. unfold py_range.
    replace (Z.to_nat (n + 1 - 1)) with 0 by lia. reflexivity.
Qed.

(** ** Encoding needs the column and uses it up *)

Lemma drop_absent (df df' : DataFrame) (f : string) :
  drop df f = OK df' -> ~ In f (columns df').
Proof.
  intros H. apply drop_OK in H as (_ & _ & Hc). unfold columns. rewrite Hc.
  intros Hin. apply in_map_iff in Hin as (c & E & Hc').
  apply filter_In in Hc' as [_ Hl].
  apply negb_true_iff, not_true_iff_false in Hl. now rewrite labelled_iff in Hl.
Qed.

Lemma drop_incl (df df' : DataFrame) (f : string) :
  drop df f = OK df' -> incl (cols df') (cols df).
Proof.
  intros H. apply drop_OK in H as (_ & _ & Hc). rewrite Hc.
  intros c Hin. now apply filter_In in Hin.
Qed.

Lemma getitem_absent (df : DataFrame) (f : string) :
  ~ In f (columns df) -> getitem df f = Raised KeyError.
Proof.
  intros H. unfold getitem.
  rewrite (filter_none (labelled f) (cols df)); [reflexivity|].
  now apply not_labelled.
Qed.

Lemma getitem_present (df : DataFrame) (f : string) (sel : Selection) :
  getitem df f = OK sel -> In f (columns df).
Proof.
  unfold getitem. intros H.
  destruct (filter (labelled f) (cols df)) as [|c l] eqn:E; [discriminate|].
  assert (Hc : In c (filter (labelled f) (cols df))) by (rewrite E; now left).
  apply filter_In in Hc as [Hc Hl]. apply labelled_iff in Hl. subst f.
  now apply in_map.
Qed.

(** X12.  Encoding a feature goes through only when a column carries its
    name, and leaves no column of that name: listed a second time right
    after, the feature makes line 92 raise [KeyError]. *)
Theorem encoded_feature_is_used_up {L : Literals} (df df' : DataFrame)
  (f : string) :
  encode_feature df f = OK df' ->
  In f (columns df) /\ ~ In f (columns df')
  /\ encode_feature df' f = Raised KeyError
  /\ for_each encode_feature [f; f] df = Raised KeyError.
Proof.
  intros H. pose proof H as H0. unfold encode_feature in H.
  apply bind_OK in H as (sel & Hsel & H).
  apply bind_OK in H as (df1 & H1 & H).
  apply bind_OK in H as (d0 & _ & H).
  assert (Hno : ~ In f (columns df')).
  { intros Hin. apply (drop_absent _ _ _ H1).
    unfold columns in *. apply in_map_iff in Hin as (c & E & Hc).
    apply in_map_iff. exists c. split; [exact E|].
    now apply (drop_incl _ _ _ H). }
  assert (Hagain : encode_feature df' f = Raised KeyError)
    by (unfold encode_feature; now rewrite (getitem_absent _ _ Hno)).
  split; [now apply (getitem_present df f sel)|]. split; [exact Hno|].
  split; [exact Hagain|].
  cbn [for_each]. rewrite H0. cbn [bind]. now rewrite Hagain.
Qed.

Lemma encoded_feature_is_used_up_witness :
  for_each (encode_feature (L := plain_literals)) ["class"; "class"]
    (mkDataFrame 2 [("class", StrCol [Some "yes"; Some "no"])])
  = Raised KeyError.
Proof.
  apply (encoded_feature_is_used_up (L := plain_literals)
           (mkDataFrame 2 [("class", StrCol [Some "yes"; Some "no"])])
           (mkDataFrame 2 [("class_yes", BoolCol [true; false])]) "class").
  reflexivity.
Defined.

(** ** Ties between most frequent values *)

Section SortFacts.
Context {A : Type} (eqb leb : A -> A -> bool).
Hypothesis eqb_spec : forall x y, reflect (x = y) (eqb x y).
Hypothesis leb_total : forall x y, leb x y = true \/ leb y x = true.
Hypothesis leb_trans :
  forall x y z, leb x y = true -> leb y z = true -> leb x z = true.

Lemma insert_sorted_sorted (x : A) (l : list A) :
  StronglySorted (leb_le leb) l ->
  StronglySorted (leb_le leb) (insert_sorted leb x l).
Proof.
  induction 1 as [|y r Hr IH Hy]; simpl.
  - repeat constructor.
  - destruct (leb x y) eqn:E.
    + constructor; [now constructor|]. constructor; [exact E|].
      eapply Forall_impl; [|exact Hy]. intros w Hw. now apply (leb_trans x y w).
    + constructor; [exact IH|]. apply Forall_forall. intros w Hw.
      apply insert_sorted_In in Hw as [->|Hw].
      * destruct (leb_total x y) as [H|H]; [congruence | exact H].
      * rewrite Forall_forall in Hy. now apply Hy.
Qed.

Lemma sort_sorted (l : list A) : StronglySorted (leb_le leb) (sort leb l).
Proof.
  induction l as [|x l IH]; simpl; [constructor|].
  now apply insert_sorted_sorted.
Qed.

Lemma filter_sorted (p : A -> bool) (l : list A) :
  StronglySorted (leb_le leb) l -> StronglySorted (leb_le leb) (filter p l).
Proof.
  induction 1 as [|y r Hr IH Hy]; simpl; [constructor|].
  destruct (p y); [|exact IH]. constructor; [exact IH|].
  apply Forall_forall. intros w Hw. apply filter_In in Hw as [Hw _].
  rewrite Forall_forall in Hy. now apply Hy.
Qed.

Lemma most_frequent_mode (l : list A) (w : A) :
  most_frequent eqb w l -> In w (mode eqb leb l).
Proof.
  intros [Hin Hmax]. unfold mode. apply filter_In.
  split; [now apply levels_In|]. apply Nat.eqb_eq.
  set (counts := map (fun x => occurrences eqb x l) (levels eqb leb l)).
  apply Nat.le_antisymm.
  - assert (Hall : Forall (fun k => k <= list_max counts) counts)
      by now apply list_max_le.
    rewrite Forall_forall in Hall. apply Hall. unfold counts.
    apply in_map_iff. exists w. split; [reflexivity | now apply levels_In].
  - apply list_max_le, Forall_forall. intros k Hk. unfold counts in Hk.
    apply in_map_iff in Hk as (x & <- & _). apply Hmax.
Qed.

(** The first mode is the least of the most frequent values. *)
Lemma mode_least (l : list A) (v : A) (r : list A) :
  mode eqb leb l = v :: r ->
  forall w, most_frequent eqb w l -> leb v w = true.
Proof.
  intros H w Hw. apply most_frequent_mode in Hw. rewrite H in Hw.
  assert (Hs : StronglySorted (leb_le leb) (v :: r)).
  { rewrite <- H. unfold mode. apply filter_sorted. unfold levels.
    apply sort_sorted. }
  inversion Hs as [|? ? _ Hall]; subst. destruct Hw as [<-|Hw].
  - now destruct (leb_total v v).
  - rewrite Forall_forall in Hall. now apply Hall.
Qed.
End SortFacts.

Lemma string_leb_trans (a b c : string) :
  String.leb a b = true -> String.leb b c = true -> String.leb a c = true.
Proof.
  unfold String.leb. revert b c.
  induction a as [|x a IH]; intros [|y b] [|z c]; simpl; try easy.
  unfold Ascii.compare.
  destruct (N.compare_spec (N_of_ascii x) (N_of_ascii y)) as [Exy|Lxy|Gxy];
    destruct (N.compare_spec (N_of_ascii y) (N_of_ascii z)) as [Eyz|Lyz|Gyz];
    destruct (N.compare_spec (N_of_ascii x) (N_of_ascii z)) as [Exz|Lxz|Gxz];
    try easy; try lia.
  apply IH.
Qed.

Lemma bool_leb_total (x y : bool) : bool_leb x y = true \/ bool_leb y x = true.
Proof. destruct x, y; simpl; auto. Qed.

Lemma bool_leb_trans (x y z : bool) :
  bool_leb x y = true -> bool_leb y z = true -> bool_leb x z = true.
Proof. now destruct x, y, z. Qed.

(** X13.  The value that fills the gaps of a column of strings, or of
    booleans with gaps, is the smallest of its most frequent values:
    strings compare by code point, [False] comes before [True]. *)
Theorem ties_go_to_the_smallest {F : Arithmetic} :
  (forall xs ys, fill_column (StrCol xs) = OK (StrCol ys) ->
     exists v, ys = fillna xs v
       /\ most_frequent String.eqb v (dropna xs)
       /\ forall w, most_frequent String.eqb w (dropna xs) ->
                    String.leb v w = true)
  /\ (forall xs ys, fill_column (ObjBoolCol xs) = OK (ObjBoolCol ys) ->
      exists v, ys = fillna xs v
        /\ most_frequent Bool.eqb v (dropna xs)
        /\ forall w, most_frequent Bool.eqb w (dropna xs) ->
                     bool_leb v w = true).
Proof.
  split; intros xs ys; simpl.
  - destruct (mode String.eqb String.leb (dropna xs)) as [|v r] eqn:E;
      intros H; inversion H; subst.
    exists v. split; [reflexivity|].
    split; [exact (mode_head _ _ string_eqb_reflect _ _ _ E)|].
    exact (mode_least _ _ string_eqb_reflect String.leb_total
             string_leb_trans _ _ _ E).
  - destruct (mode Bool.eqb bool_leb (dropna xs)) as [|v r] eqn:E;
      intros H; inversion H; subst.
    exists v. split; [reflexivity|].
    split; [exact (mode_head _ _ bool_eqb_reflect _ _ _ E)|].
    exact (mode_least _ _ bool_eqb_reflect bool_leb_total
             bool_leb_trans _ _ _ E).
Qed.

(** ** Imputing twice *)

Lemma fillna_full {A} (xs : list (option A)) (v w : A) :
  fillna (fillna xs v) w = fillna xs v.
Proof.
  unfold fillna. rewrite map_map. apply map_ext. now intros [a|].
Qed.

Lemma dropna_fillna {A} (xs : list (option A)) (v : A) :
  xs <> [] -> dropna (fillna xs v) <> [].
Proof. destruct xs as [|[a|] xs]; simpl; [easy | discriminate..]. Qed.

Lemma dropna_nonempty {A} (xs : list (option A)) : dropna xs <> [] -> xs <> [].
Proof. now destruct xs. Qed.

Lemma fill_column_fixed {F : Arithmetic} (s s' : Series) :
  fill_column s = OK s' ->
  (dtype_is_float s' = true -> fillable s') ->
  fill_column s' = OK s'.
Proof.
  destruct s as [xs|xs|xs|xs|xs]; simpl.
  - destruct (Series_mean xs) as [m| |]; intros H; inversion H; subst.
    intros Hfill. destruct (Hfill eq_refl) as [m' Hm']. simpl.
    now rewrite Hm', fillna_full.
  - destruct (mode Z.eqb Z.leb xs) eqn:E; intros H; inversion H; subst.
    simpl. now rewrite E.
  - destruct (mode Bool.eqb bool_leb xs) eqn:E; intros H; inversion H; subst.
    simpl. now rewrite E.
  - destruct (mode String.eqb String.leb (dropna xs)) as [|v r] eqn:E;
      intros H; inversion H; subst. simpl. intros _.
    destruct (mode String.eqb String.leb (dropna (fillna xs v)))
      as [|w r'] eqn:E'.
    + apply (proj1 (mode_nil _ _ string_eqb_reflect _)) in E'.
      exfalso. revert E'. apply dropna_fillna, dropna_nonempty.
      intros E0. now rewrite E0 in E.
    + now rewrite fillna_full.
  - destruct (mode Bool.eqb bool_leb (dropna xs)) as [|v r] eqn:E;
      intros H; inversion H; subst. simpl. intros _.
    destruct (mode Bool.eqb bool_leb (dropna (fillna xs v)))
      as [|w r'] eqn:E'.
    + apply (proj1 (mode_nil _ _ bool_eqb_reflect _)) in E'.
      exfalso. revert E'. apply dropna_fillna, dropna_nonempty.
      intros E0. now rewrite E0 in E.
    + now rewrite fillna_full.
Qed.

Lemma relabel_same (f : string) (s : Series) (l : list (string * Series)) :
  (forall c, In c l -> labelled f c = true -> snd c = s) ->
  map (fun c => if labelled f c then (fst c, s) else c) l = l.
Proof.
  intros H. rewrite <- (map_id l) at 2. apply map_ext_in. intros c Hc.
  destruct (labelled f c) eqn:E; [|reflexivity].
  rewrite <- (H c Hc E). now destruct c.
Qed.

Lemma update_columns_fixed (g : Series -> result Series)
  (names : list string) (df : DataFrame) :
  NoDup (columns df) -> incl names (columns df) ->
  (forall c, In c (cols df) -> g (snd c) = OK (snd c)) ->
  for_each (update_column g) names df = OK df.
Proof.
  intros Hnd Hincl Hg. induction names as [|f rest IH]; simpl; [reflexivity|].
  assert (Hf : In f (columns df)) by (apply Hincl; now left).
  pose proof Hf as Hf'. unfold columns in Hf'.
  apply in_map_iff in Hf' as ([f' s] & E & Hc). simpl in E. subst f'.
  pose proof (filter_labelled_NoDup _ _ _ Hnd Hc) as Hone.
  unfold update_column at 1. rewrite (getitem_one df f s Hone). simpl.
  pose proof (Hg _ Hc) as Hs. simpl in Hs. rewrite Hs. simpl.
  assert (Eset : setitem df f s = df).
  { rewrite (setitem_present _ _ _ Hf). destruct df as [n cs]. simpl in *.
    f_equal. apply relabel_same. intros c Hin Hl.
    assert (Hc' : In c (filter (labelled f) cs))
      by (apply filter_In; now split).
    rewrite Hone in Hc'. now destruct Hc' as [<-|[]]. }
  rewrite Eset. apply IH. intros g' Hg'. apply Hincl. now right.
Qed.

(** The frame on which a float column fills its one gap with a value as
    large as the one it holds, so that the two no longer add up. *)
Definition overflow_frame : DataFrame :=
  mkDataFrame 2 [("x", FloatCol [Some (inject_Z (10 ^ 308)); None])].

(** X14.  Imputation changes nothing in a frame that has been imputed:
    run again on what it returned, the loop of lines 83-88 returns the
    same frame whenever it returns.  It does return when the mean of
    every floating-point column of that frame is a number; it cannot stop
    but at a floating-point column whose mean is none, the columns being
    full by then: with [OverflowError] when the float64 sum of the column
    has overflowed, with [ValueError] when the mean is NaN. *)
Theorem imputation_is_idempotent {F : Arithmetic} (df df' : DataFrame) :
  fill_missing (columns df) df = OK df' ->
  (forall df'', fill_missing (columns df') df' = OK df'' -> df'' = df')
  /\ ((forall c, In c (cols df') -> dtype_is_float (snd c) = true ->
                 fillable (snd c)) ->
      fill_missing (columns df') df' = OK df')
  /\ (forall e, fill_missing (columns df') df' = Raised e ->
      exists f xs,
        In (f, FloatCol xs) (cols df')
        /\ (forall m, Series_mean xs <> Finite m)
        /\ e = fill_error (FloatCol xs)
        /\ (e = OverflowError \/ e = ValueError)).
Proof.
  intros H. pose proof (fill_missing_NoDup _ _ H) as Hnd.
  destruct (update_columns_spec fill_column _ Hnd _ _ H) as [_ Hc].
  assert (Ecols : columns df' = columns df).
  { unfold columns. eapply Forall2_fst_eq.
    eapply Forall2_impl; [|exact Hc]. intros a b [E _]. split; [exact E|].
    exact I. }
  assert (Hfrom : forall c', In c' (cols df') ->
                    exists s, fill_column s = OK (snd c')).
  { intros c' Hc'.
    destruct (Forall2_In_r _ _ _ _ Hc Hc') as (c & Hin & _ & Hfix).
    rewrite (proj2 (mentions_In (columns df) (fst c))) in Hfix
      by now apply in_map.
    now exists (snd c). }
  assert (Hsame : (forall c, In c (cols df') ->
                     dtype_is_float (snd c) = true -> fillable (snd c)) ->
                  fill_missing (columns df') df' = OK df').
  { intros Hfl. apply update_columns_fixed.
    - now rewrite Ecols.
    - apply incl_refl.
    - intros c' Hc'. destruct (Hfrom c' Hc') as [s Hs].
      apply (fill_column_fixed s); [exact Hs | now apply Hfl]. }
  split; [|split; [exact Hsame|]].
  - intros df'' H'. pose proof (fill_missing_fillable _ _ H') as Hall.
    rewrite Forall_forall in Hall.
    rewrite Hsame in H' by (intros c Hin _; now apply Hall).
    now inversion H'.
  - intros e He.
    destruct (first_not_fillable (cols df'))
      as [Hall|(front & f & s & rest & E & Hfront & Hs)].
    + rewrite Forall_forall in Hall.
      rewrite Hsame in He by (intros c Hin _; now apply Hall).
      discriminate He.
    + assert (Hnd' : NoDup (columns df')) by now rewrite Ecols.
      rewrite (fill_missing_stops df' front f s rest Hnd' E Hfront Hs) in He.
      inversion He; subst e; clear He.
      assert (Hin : In (f, s) (cols df'))
        by (rewrite E; apply in_or_app; right; now left).
      destruct (Hfrom _ Hin) as [s0 Hs0]. cbn [snd] in Hs0.
      destruct s as [xs|xs|xs|xs|xs];
        try (elim Hs; apply (fill_column_fillable _ _
               (fill_column_fixed _ _ Hs0 (fun H0 => ltac:(discriminate H0))))).
      exists f, xs. split; [exact Hin|]. split.
      * intros m Hm. apply Hs. now exists m.
      * split; [reflexivity|]. simpl.
        destruct (Series_mean xs) as [m| |]; auto.
Qed.

Lemma imputation_is_idempotent_witness :
  fill_missing
    (columns (mkDataFrame 2
                [("id", IntCol [1%Z; 2%Z]);
                 ("age", FloatCol [Some (25 # 1)%Q; Some (25 # 1)%Q]);
                 ("class", StrCol [Some "yes"; Some "no"])]))
    (mkDataFrame 2
       [("id", IntCol [1%Z; 2%Z]);
        ("age", FloatCol [Some (25 # 1)%Q; Some (25 # 1)%Q]);
        ("class", StrCol [Some "yes"; Some "no"])])
  = OK (mkDataFrame 2
          [("id", IntCol [1%Z; 2%Z]);
           ("age", FloatCol [Some (25 # 1)%Q; Some (25 # 1)%Q]);
           ("class", StrCol [Some "yes"; Some "no"])]).
Proof.
  apply (imputation_is_idempotent example_frame); [reflexivity|].
  intros c [<-|[<-|[<-|[]]]]; try discriminate.
  intros _. eexists. vm_compute. reflexivity.
Defined.

(** With sums made in the order of the rows, a second pass over
    [overflow_frame] raises [OverflowError]. *)
Example second_pass_overflows :
  exists df',
    fill_missing (columns overflow_frame) overflow_frame = OK df'
    /\ fill_missing (columns df') df' = Raised OverflowError.
Proof.
  eexists. split.
  - vm_compute. reflexivity.
  - vm_compute. reflexivity.
Qed.

(** ** The names encoding adds *)

Lemma pd_get_dummies_names {L : Literals} (df : DataFrame) (f : string)
  (sel : Selection) (c : string * Series) :
  getitem df f = OK sel -> In c (cols (pd_get_dummies sel f)) ->
  fst c = f \/ exists r, fst c = (f ++ "_" ++ r)%string.
Proof.
  intros Hsel Hc. apply getitem_OK in Hsel.
  assert (Hd : forall s, In c (get_dummies_1d s f) ->
                         exists r, fst c = (f ++ "_" ++ r)%string).
  { intros s Hin. destruct (get_dummies_1d_spec s f) as (_ & Hall & _).
    rewrite Forall_forall in Hall.
    destruct (Hall c Hin) as (r & _ & _ & E & _). now exists r. }
  destruct sel as [s|d]; simpl in Hc.
  - right. now apply (Hd s).
  - destruct Hsel as (_ & Ed & _). rewrite Ed in Hc.
    apply in_app_iff in Hc as [Hc|Hc].
    + left. apply filter_In in Hc as [Hc _]. apply filter_In in Hc as [_ Hc].
      now apply labelled_iff.
    + right. apply in_flat_map in Hc as (c0 & _ & Hc). now apply (Hd (snd c0)).
Qed.

Lemma encode_feature_names {L : Literals} (df df' : DataFrame) (f : string) :
  encode_feature df f = OK df' ->
  In f (columns df)
  /\ forall name, In name (columns df') ->
       In name (columns df) \/ exists r, name = (f ++ "_" ++ r)%string.
Proof.
  intros H. unfold encode_feature in H.
  apply bind_OK in H as (sel & Hsel & H).
  apply bind_OK in H as (df1 & H1 & H).
  apply bind_OK in H as (d0 & _ & H).
  split; [now apply (getitem_present df f sel)|].
  intros name Hn. unfold columns in Hn.
  apply in_map_iff in Hn as (c & <- & Hc).
  apply (drop_incl _ _ _ H) in Hc.
  pose proof (drop_absent _ _ _ H1) as Hno.
  assert (Hne : fst c <> f).
  { intros E. apply Hno. rewrite <- E. now apply in_map. }
  apply (drop_incl _ _ _ H1) in Hc. simpl in Hc.
  apply in_app_iff in Hc as [Hc|Hc].
  - left. now apply in_map.
  - destruct (pd_get_dummies_names _ _ _ _ Hsel Hc) as [E|Hr];
      [now elim Hne | now right].
Qed.

Lemma encode_all_names {L : Literals} (fs : list string) :
  forall df df', for_each encode_feature fs df = OK df' ->
  (forall f, In f fs -> In f (columns df) \/ prefixed_by fs f)
  /\ (forall name, In name (columns df') ->
        In name (columns df) \/ prefixed_by fs name).
Proof.
  induction fs as [|f rest IH]; intros df df' H; simpl in H.
  - inversion H; subst. split; [easy | now left].
  - apply bind_OK in H as (df1 & H1 & H).
    destruct (encode_feature_names _ _ _ H1) as [Hf Hstep].
    destruct (IH _ _ H) as [Hneed Hnames].
    assert (Hlift : forall name,
               In name (columns df1) \/ prefixed_by rest name ->
               In name (columns df) \/ prefixed_by (f :: rest) name).
    { intros name [Hin|(g & r & Hg & E)].
      - destruct (Hstep name Hin) as [Hold|[r E]]; [now left|].
        right. exists f, r. split; [now left | exact E].
      - right. exists g, r. split; [now right | exact E]. }
    split.
    + intros g [<-|Hg]; [now left | now apply Hlift, Hneed].
    + intros name Hn. now apply Hlift, Hnames.
Qed.

(** X15.  The names in a frame after the categorical features are
    encoded are names that were there before or names [f_...] made from a
    listed feature [f]; and each listed feature is the name of a column of
    the frame the loop starts from, unless its own name is of the form
    [g_...] for a listed feature [g]. *)
Theorem encoding_adds_prefixed_names {L : Literals} (df df' : DataFrame)
  (categorical_features : list string) :
  for_each encode_feature categorical_features df = OK df' ->
  (forall name, In name (columns df') ->
     In name (columns df) \/ prefixed_by categorical_features name)
  /\ (forall f, In f categorical_features ->
        In f (columns df) \/ prefixed_by categorical_features f).
Proof.
  intros H. apply encode_all_names in H. tauto.
Qed.

Lemma encoding_adds_prefixed_names_witness :
  (forall name,
     In name (columns (mkDataFrame 2
                         [("age", IntCol [25%Z; 31%Z]);
                          ("class_yes", BoolCol [true; false])])) ->
     In name (columns (mkDataFrame 2
                         [("age", IntCol [25%Z; 31%Z]);
                          ("class", StrCol [Some "yes"; Some "no"])]))
     \/ prefixed_by ["class"] name)
  /\ (forall f, In f ["class"] ->
        In f (columns (mkDataFrame 2
                         [("age", IntCol [25%Z; 31%Z]);
                          ("class", StrCol [Some "yes"; Some "no"])]))
        \/ prefixed_by ["class"] f).
Proof.
  apply (encoding_adds_prefixed_names (L := plain_literals)
           (mkDataFrame 2 [("age", IntCol [25%Z; 31%Z]);
                           ("class", StrCol [Some "yes"; Some "no"])])
           (mkDataFrame 2 [("age", IntCol [25%Z; 31%Z]);
                           ("class_yes", BoolCol [true; false])])
           ["class"]).
  reflexivity.
Defined.

(** ** The script *)

Lemma has_underscore_append (a b : string) :
  has_underscore (a ++ "_" ++ b) = true.
Proof.
  induction a as [|x a IH]; simpl in *; [reflexivity|]. rewrite IH.
  apply orb_true_r.
Qed.

Lemma prefixed_has_underscore (fs : list string) (name : string) :
  prefixed_by fs name -> has_underscore name = true.
Proof. intros (f & r & _ & ->). apply has_underscore_append. Qed.

(** X16.  When the script prints something, it is a list of a matrix with
    two columns, named feature_1 and feature_2, and one row per record of
    the file after the first, and of a label array with as many rows and
    no missing value; and then the first record of the file named the
    columns, among them [id] and each of the eleven categorical
    features. *)
Theorem script_prints_two_components
  {L : Literals} {F : Arithmetic} {R : Reducers}
  (first : list string) (records : csv) (out : returned) :
  main (first :: records) = OK out ->
  (exists Y label,
     out = Datalist Y label ["feature_1"; "feature_2"]
     /\ shape Y = [List.length records; 2]
     /\ len label = List.length records /\ no_nan label)
  /\ Forall (fun f => In f (header_names first))
       ["id"; "pc"; "rbc"; "pcc"; "ba"; "htn"; "dm"; "cad"; "appet"; "pe";
        "ane"; "classification"].
Proof.
  unfold main. intros H.
  apply bind_OK in H as (l & Hl & H).
  apply bind_OK in H as (l2 & Hp & H). inversion H; subst l2; clear H.
  destruct l as [m|data label names].
  { destruct (pca_Message m 2) as [e He]. congruence. }
  unfold preprocessing in Hl. apply bind_OK in Hl as (df & Hload & Hl).
  destruct (pd_read_csv_OK _ _ _ _ Hload) as (Hcols & Hrows & _ & Hok).
  split.
  - destruct (preprocess_tidy _ _ _ _ _ _ _ _ Hok Hl)
      as (_ & _ & e & _ & _ & _ & Ht & Hs).
    destruct (separate_tidy _ _ _ _ _ Ht Hs) as (_ & Hd & Hlab & _ & Hnan).
    unfold pca in Hp. simpl in Hp.
    destruct (PCA_fit_transform 2 data) as [Y|e'] eqn:E; simpl in Hp;
      inversion Hp; subst out; clear Hp.
    destruct (PCA_shape _ _ _ E) as (r & c & Hx & _ & Hy).
    exists Y, label. split; [reflexivity|].
    unfold len in Hd. rewrite Hx in Hd. simpl in Hd.
    split; [rewrite Hy; change (Z.to_nat 2) with 2; congruence|].
    split; [congruence | exact Hnan].
  - unfold preprocess in Hl.
    destruct (check_header df); [|discriminate Hl].
    apply clean_OK in Hl
      as (d1 & fs & d2 & d3 & d4 & H1 & Hfs & H2 & H3 & H4 & _).
    pose proof (drops_spec _ _ _ H1) as (_ & Hid & _ & Hc1).
    destruct (str_features_NoDup _ _ Hfs) as [_ Hndfs].
    destruct (remove_chars_spec _ Hndfs _ _ _ H2) as [_ Hc2].
    apply Forall2_fst_eq in Hc2.
    assert (H3' : fill_missing (columns d2) d2 = OK d3)
      by (unfold columns; now rewrite Hc2).
    destruct (fill_missing_imputed _ _ H3') as [_ Hc3].
    apply Forall2_fst_eq in Hc3.
    assert (Hsub : forall f, In f (columns d3) -> In f (header_names first)).
    { intros f Hf. rewrite <- Hcols. unfold columns in *.
      rewrite Hc3, Hc2, Hc1 in Hf. apply in_map_iff in Hf as (c & <- & Hc).
      apply filter_In in Hc as [Hc _]. now apply in_map. }
    destruct (encode_all_names _ _ _ H4) as [Hneed _].
    constructor; [rewrite <- Hcols; apply Hid; now left|].
    apply Forall_forall. intros f Hf. destruct (Hneed f Hf) as [Hin|Hpre].
    + now apply Hsub.
    + apply prefixed_has_underscore in Hpre.
      simpl in Hf. repeat (destruct Hf as [<-|Hf]; [discriminate Hpre|]).
      now elim Hf.
Qed.

Lemma script_prints_two_components_witness :
  (exists Y label,
     Datalist (Arr2 2 2 [[Int 48; Bool true]; [Int 62; Bool false]])
       (Arr1 [Bool false; Bool true]) ["feature_1"; "feature_2"]
     = Datalist Y label ["feature_1"; "feature_2"]
     /\ shape Y
        = [List.length
             [["0"; "48"; "normal"; "normal"; "notpresent"; "notpresent";
               "yes"; "yes"; "no"; "good"; "no"; "no"; "ckd"];
              ["1"; "62"; "abnormal"; "abnormal"; "present"; "present";
               "no"; "no"; "yes"; "poor"; "yes"; "yes"; "notckd"]]; 2]
     /\ len label
        = List.length
            [["0"; "48"; "normal"; "normal"; "notpresent"; "notpresent";
              "yes"; "yes"; "no"; "good"; "no"; "no"; "ckd"];
             ["1"; "62"; "abnormal"; "abnormal"; "present"; "present";
              "no"; "no"; "yes"; "poor"; "yes"; "yes"; "notckd"]]
     /\ no_nan label)
  /\ Forall (fun f =>
               In f (@header_names plain_literals
                       ["id"; "age"; "rbc"; "pc"; "pcc"; "ba"; "htn"; "dm";
                        "cad"; "appet"; "pe"; "ane"; "classification"]))
       ["id"; "pc"; "rbc"; "pcc"; "ba"; "htn"; "dm"; "cad"; "appet"; "pe";
        "ane"; "classification"].
Proof.
  apply (script_prints_two_components (L := plain_literals)
           (R := first_columns_reducers)
           ["id"; "age"; "rbc"; "pc"; "pcc"; "ba"; "htn"; "dm"; "cad";
            "appet"; "pe"; "ane"; "classification"]
           [["0"; "48"; "normal"; "normal"; "notpresent"; "notpresent";
             "yes"; "yes"; "no"; "good"; "no"; "no"; "ckd"];
            ["1"; "62"; "abnormal"; "abnormal"; "present"; "present";
             "no"; "no"; "yes"; "poor"; "yes"; "yes"; "notckd"]]).
  vm_compute. reflexivity.
Defined.

(** X17.  The script prints nothing for a file whose first record holds
    a field that [int] accepts: the frame is found headerless, no header
    is passed, the message comes back, and [pca] raises on it. *)
Theorem script_needs_a_header {L : Literals} {F : Arithmetic} {R : Reducers}
  (first : list string) (records : csv) (t : string) (z : Z) :
  In t (header_names first) -> py_int t = Some z ->
  exists e, main (first :: records) = Raised e.
Proof.
  intros Ht Hz. unfold main, preprocessing.
  destruct (pd_read_csv (first :: records)
              ["NaN"; "nan"; (tab ++ "?")%string])
    as [df|e] eqn:Hload; [|simpl; eauto].
  destruct (pd_read_csv_OK _ _ _ _ Hload) as (Hcols & _).
  cbn [bind]. unfold preprocess.
  assert (Hc : check_header df = false).
  { apply not_true_iff_false. rewrite check_header_true, Forall_forall.
    intros H. rewrite <- Hcols in Ht. specialize (H t Ht). congruence. }
  rewrite Hc. cbn [List.length Nat.eqb negb bind].
  destruct (pca_Message
              "Error: the dataset has no header, please enter the columns names"
              2) as [e He].
  exists e. now rewrite He.
Qed.

Lemma script_needs_a_header_witness :
  exists e,
    main (L := plain_literals) (R := first_columns_reducers)
      [["1"; "48"; "ckd"]; ["2"; "62"; "notckd"]] = Raised e.
Proof.
  apply (script_needs_a_header (L := plain_literals)
           (R := first_columns_reducers) ["1"; "48"; "ckd"]
           [["2"; "62"; "notckd"]] "48" 48).
  - simpl. tauto.
  - reflexivity.
Defined.

(** ** Reading back what [str] prints *)

Lemma uint_digits (d : Decimal.uint) :
  all_chars is_digit (NilEmpty.string_of_uint d) = true.
Proof. induction d; simpl; auto. Qed.

Lemma int_digits_acc (d : Decimal.uint) :
  forall acc prev, d <> Decimal.Nil \/ prev = true ->
  int_digits (Z.pos acc) prev (NilEmpty.string_of_uint d)
  = Some (Z.pos (Pos.of_uint_acc d acc)).
Proof.
  induction d; intros acc prev Hp;
    try (cbn [NilEmpty.string_of_uint int_digits Pos.of_uint_acc];
         match goal with
         | |- context [is_digit ?a] => change (is_digit a) with true
         end;
         cbv iota;
         match goal with
         | |- context [digit_value ?a] =>
             let v := eval vm_compute in (digit_value a) in
             change (digit_value a) with v
         end;
         rewrite <- (IHd _ true) by (now right); f_equal; lia).
  destruct Hp as [Hp | ->]; [now elim Hp | reflexivity].
Qed.

Lemma int_digits_uint (d : Decimal.uint) :
  forall prev, d <> Decimal.Nil \/ prev = true ->
  int_digits 0 prev (NilEmpty.string_of_uint d) = Some (Z.of_uint d).
Proof.
  unfold Z.of_uint.
  induction d; intros prev Hp;
    try (cbn [NilEmpty.string_of_uint int_digits Pos.of_uint];
         match goal with
         | |- context [is_digit ?a] => change (is_digit a) with true
         end;
         cbv iota;
         match goal with
         | |- context [digit_value ?a] =>
             let v := eval vm_compute in (digit_value a) in
             change (digit_value a) with v
         end).
  - destruct Hp as [Hp | ->]; [now elim Hp | reflexivity].
  - apply IHd. now right.
  - apply (int_digits_acc d 1). now right.
  - apply (int_digits_acc d 2). now right.
  - apply (int_digits_acc d 3). now right.
  - apply (int_digits_acc d 4). now right.
  - apply (int_digits_acc d 5). now right.
  - apply (int_digits_acc d 6). now right.
  - apply (int_digits_acc d 7). now right.
  - apply (int_digits_acc d 8). now right.
  - apply (int_digits_acc d 9). now right.
Qed.

Lemma to_uint_string (p : positive) :
  exists a r, NilEmpty.string_of_uint (Pos.to_uint p) = String a r
              /\ is_digit a = true.
Proof.
  pose proof (DecimalPos.Unsigned.to_uint_nonnil p) as Hne.
  pose proof (uint_digits (Pos.to_uint p)) as Hd.
  destruct (Pos.to_uint p); [now elim Hne| ..]; simpl in *; eauto.
Qed.

Lemma strip_py_str (z : Z) : strip (py_str z) = py_str z.
Proof.
  unfold py_str. destruct z as [|p|p]; [reflexivity | |]; simpl.
  - apply (strip_id is_digit); [|apply uint_digits].
    intros a Ha. now apply digit_not_special.
  - apply (strip_id (fun a => is_digit a || Ascii.eqb a "-")).
    + intros a Ha. apply orb_true_iff in Ha as [Ha|Ha].
      * now apply digit_not_special.
      * apply Ascii.eqb_eq in Ha. now subst.
    + simpl. apply (all_chars_impl is_digit); [|apply uint_digits].
      intros a ->. reflexivity.
Qed.

Lemma int_literal_py_str (z : Z) : int_literal (py_str z) = Some z.
Proof.
  unfold py_str. destruct z as [|p|p]; [reflexivity | |]; simpl.
  - assert (Hv : int_digits 0 false (NilEmpty.string_of_uint (Pos.to_uint p))
                 = Some (Z.pos p)).
    { rewrite int_digits_uint
        by (left; apply DecimalPos.Unsigned.to_uint_nonnil).
      unfold Z.of_uint. now rewrite DecimalPos.Unsigned.of_to. }
    rewrite <- Hv. apply digits_literal; [|apply uint_digits].
    destruct (to_uint_string p) as (a & r & E & _). rewrite E. discriminate.
  - rewrite int_digits_uint
      by (left; apply DecimalPos.Unsigned.to_uint_nonnil).
    unfold Z.of_uint. now rewrite DecimalPos.Unsigned.of_to.
Qed.

(** [int] reads back what [str] prints, within the limit on the digits. *)
Lemma py_int_py_str (z : Z) :
  count_digits (py_str z) <= max_str_digits -> py_int (py_str z) = Some z.
Proof.
  intros Hlen. unfold py_int. cbv zeta. rewrite strip_py_str.
  apply Nat.ltb_ge in Hlen. rewrite Hlen. apply int_literal_py_str.
Qed.

Lemma count_digits_uint (d : Decimal.uint) :
  count_digits (NilEmpty.string_of_uint d) = Decimal.nb_digits d.
Proof. induction d; simpl; congruence. Qed.

Lemma of_uint_acc_lower (d : Decimal.uint) :
  forall acc,
  (Z.pos acc * 10 ^ Z.of_nat (Decimal.nb_digits d)
   <= Z.pos (Pos.of_uint_acc d acc))%Z.
Proof.
  induction d; intros acc;
    try (cbn [Pos.of_uint_acc Decimal.nb_digits];
         rewrite Nat2Z.inj_succ, Z.pow_succ_r by lia;
         eapply Z.le_trans; [|apply IHd];
         rewrite Z.mul_assoc;
         apply Z.mul_le_mono_nonneg_r; [apply Z.pow_nonneg|]; lia).
  simpl. lia.
Qed.

(** The decimal writing of a positive number begins with a digit that is
    not zero. *)
Lemma to_uint_head (p : positive) :
  exists l acc, Pos.of_uint_acc l acc = p
                /\ Decimal.nb_digits (Pos.to_uint p) = S (Decimal.nb_digits l).
Proof.
  pose proof (Unsigned.of_to p) as Hof.
  pose proof (Unsigned.to_of (Pos.to_uint p)) as Hnorm.
  rewrite Hof in Hnorm. cbn [N.to_uint] in Hnorm.
  destruct (Pos.to_uint p) as [|l|l|l|l|l|l|l|l|l|l] eqn:E;
    [discriminate Hof | |
     cbn [Pos.of_uint] in Hof; inversion Hof; eauto ..].
  exfalso. unfold Decimal.unorm in Hnorm. cbn [Decimal.nzhead] in Hnorm.
  pose proof (DecimalFacts.nb_digits_nzhead l) as Hle.
  destruct (Decimal.nzhead l) eqn:En; try discriminate Hnorm.
  - inversion Hnorm; subst. discriminate Hof.
  - inversion Hnorm; subst. simpl in Hle. lia.
Qed.

(** An integer below [10^n] in magnitude is written with [n] digits at
    most. *)
Lemma digits_of_magnitude (z : Z) (n : nat) :
  (Z.abs z < 10 ^ Z.of_nat n)%Z -> 0 < n -> count_digits (py_str z) <= n.
Proof.
  intros Hz Hn. unfold py_str.
  assert (Hp : forall p, (Z.pos p < 10 ^ Z.of_nat n)%Z ->
                 Decimal.nb_digits (Pos.to_uint p) <= n).
  { intros p Hlt. destruct (to_uint_head p) as (l & acc & Hv & ->).
    pose proof (of_uint_acc_lower l acc) as Hlow. rewrite Hv in Hlow.
    assert (H10 : (10 ^ Z.of_nat (Decimal.nb_digits l) < 10 ^ Z.of_nat n)%Z).
    { eapply Z.le_lt_trans; [|exact Hlt].
      eapply Z.le_trans; [|exact Hlow].
      assert (0 < 10 ^ Z.of_nat (Decimal.nb_digits l))%Z
        by (apply Z.pow_pos_nonneg; lia). nia. }
    apply Z.pow_lt_mono_r_iff in H10; lia. }
  destruct z as [|p|p]; simpl.
  - lia.
  - rewrite count_digits_uint. now apply Hp.
  - rewrite count_digits_uint. now apply Hp.
Qed.

(** X18.  [int] reads back what [str] prints for every integer below
    [10^4300] in magnitude, that is, written with at most 4300 digits,
    the limit beyond which [str] and [int] raise [ValueError]: a frame
    with a column labelled by the decimal writing of such an integer,
    negative or not, is found to have no header. *)
Theorem printed_integers_are_numeric (df : DataFrame) (z : Z) :
  (Z.abs z < 10 ^ Z.of_nat max_str_digits)%Z ->
  count_digits (py_str z) <= max_str_digits
  /\ py_int (py_str z) = Some z
  /\ (In (py_str z) (columns df) -> check_header df = false).
Proof.
  intros Hz.
  assert (Hlen : count_digits (py_str z) <= max_str_digits)
    by (apply digits_of_magnitude; [exact Hz | unfold max_str_digits; lia]).
  split; [exact Hlen|]. split; [now apply py_int_py_str|]. intros Hin.
  apply not_true_iff_false. rewrite check_header_true, Forall_forall.
  intros H. specialize (H _ Hin). now rewrite py_int_py_str in H.
Qed.

Lemma printed_integers_are_numeric_witness :
  py_int "-42" = Some (-42)%Z
  /\ check_header (mkDataFrame 1 [("a", StrCol [Some "x"]);
                                  ("-42", IntCol [7%Z])]) = false.
Proof.
  destruct (printed_integers_are_numeric
              (mkDataFrame 1 [("a", StrCol [Some "x"]);
                              ("-42", IntCol [7%Z])]) (-42))
    as (_ & Hint & Hcheck).
  - vm_compute. reflexivity.
  - split; [exact Hint|]. apply Hcheck. right. now left.
Defined.

(** ** The label of a binary classification *)

Section TwoLevels.
Context {A : Type} (eqb leb : A -> A -> bool).
Hypothesis eqb_spec : forall x y, reflect (x = y) (eqb x y).
Hypothesis leb_total : forall x y, leb x y = true \/ leb y x = true.
Hypothesis leb_trans :
  forall x y z, leb x y = true -> leb y z = true -> leb x z = true.
Hypothesis leb_antisym :
  forall x y, leb x y = true -> leb y x = true -> x = y.

Lemma levels_two (l : list A) (a b : A) :
  (forall v, In v l <-> v = a \/ v = b) -> a <> b -> leb a b = true ->
  levels eqb leb l = [a; b].
Proof.
  intros Hmem Hne Hab.
  pose proof (levels_NoDup eqb leb eqb_spec l) as Hnd.
  pose proof (sort_sorted leb leb_total leb_trans (dedup eqb l)) as Hs.
  fold (levels eqb leb l) in Hs.
  assert (Hin : forall v, In v (levels eqb leb l) <-> v = a \/ v = b).
  { intros v. now rewrite (levels_In eqb leb eqb_spec). }
  destruct (levels eqb leb l) as [|x [|y [|z r]]].
  - exfalso. apply (proj2 (Hin a)). now left.
  - exfalso. apply Hne.
    assert (Ha : In a [x]) by (apply Hin; now left).
    assert (Hb : In b [x]) by (apply Hin; now right).
    destruct Ha as [<-|[]], Hb as [<-|[]]. reflexivity.
  - assert (Hx : x = a \/ x = b) by (apply Hin; now left).
    assert (Hy : y = a \/ y = b) by (apply Hin; right; now left).
    inversion Hnd as [|? ? Hxy _]; subst.
    inversion Hs as [|? ? _ Hle]; subst. inversion Hle as [|? ? Hxy' _]; subst.
    destruct Hx as [->| ->], Hy as [->| ->]; try reflexivity;
      try (elim Hxy; now left).
    elim Hne. now apply leb_antisym.
  - exfalso.
    assert (Hx : x = a \/ x = b) by (apply Hin; now left).
    assert (Hy : y = a \/ y = b) by (apply Hin; right; now left).
    assert (Hz : z = a \/ z = b) by (apply Hin; right; right; now left).
    inversion Hnd as [|? ? Hx' Hnd']; subst.
    inversion Hnd' as [|? ? Hy' _]; subst.
    destruct Hx as [->| ->], Hy as [->| ->], Hz as [->| ->];
      solve [ apply Hx'; now left | apply Hx'; right; now left
            | apply Hy'; now left ].
Qed.
End TwoLevels.

(** X19.  When the last column is a column of strings in which two
    values occur, and no other column is named like it or like one of its
    two indicator columns, encoding it and splitting gives as label the
    booleans that mark the rows holding the greater of the two values;
    the matrix is made of the other columns, and the last name is the
    name of that indicator. *)
Theorem binary_label_marks_the_greater_value {L : Literals} (df : DataFrame)
  (front : list (string * Series)) (f a b : string)
  (xs : list (option string)) :
  cols df = front ++ [(f, StrCol xs)] ->
  ~ In f (map fst front) ->
  ~ In (f ++ "_" ++ a)%string (map fst front) ->
  ~ In (f ++ "_" ++ b)%string (map fst front) ->
  (forall v, In v (dropna xs) <-> v = a \/ v = b) ->
  a <> b -> String.leb a b = true ->
  (df' <- encode_feature df f ;; separate df')
  = OK (Datalist (DataFrame_to_numpy (mkDataFrame (nrows df) front))
          (Arr1 (map (fun x => Bool (indicator String.eqb b x)) xs))
          (map fst front ++ [(f ++ "_" ++ b)%string])).
Proof.
  intros Hc Hf Ha Hb Hmem Hne Hab.
  pose proof (not_labelled _ _ Hf) as Hff.
  pose proof (not_labelled _ _ Ha) as Hfa.
  pose proof (not_labelled _ _ Hb) as Hfb.
  assert (Hone : filter (labelled f) (cols df) = [(f, StrCol xs)]).
  { rewrite Hc, filter_app, (filter_none _ _ Hff). cbn [filter app].
    now rewrite (proj2 (labelled_iff f (f, StrCol xs)) eq_refl). }
  assert (Hlev : levels String.eqb String.leb (dropna xs) = [a; b]).
  { apply (levels_two _ _ string_eqb_reflect String.leb_total
             string_leb_trans String.leb_antisym); assumption. }
  unfold encode_feature. rewrite (getitem_one _ _ _ Hone). cbn [bind].
  unfold pd_get_dummies, get_dummies_1d, indicator_columns.
  rewrite Hlev. cbn [map].
  set (ca := ((f ++ "_" ++ a)%string,
              BoolCol (map (indicator String.eqb a) xs))).
  set (cb := ((f ++ "_" ++ b)%string,
              BoolCol (map (indicator String.eqb b) xs))).
  assert (Hfa' : labelled f ca = false).
  { apply not_true_iff_false. rewrite labelled_iff.
    apply prefixed_label_differs. }
  assert (Hfb' : labelled f cb = false).
  { apply not_true_iff_false. rewrite labelled_iff.
    apply prefixed_label_differs. }
  assert (Hab' : labelled (fst ca) cb = false).
  { apply not_true_iff_false. rewrite labelled_iff. unfold ca, cb. simpl.
    intros E. apply append_inj_l in E. apply (append_inj_l "_") in E.
    now elim Hne. }
  assert (Hkeep : forall p, Forall (fun c => p c = false) front ->
                            filter (fun c => negb (p c)) front = front).
  { intros p Hp. apply filter_all. eapply Forall_impl; [|exact Hp].
    now intros c ->. }
  unfold drop at 1, pd_concat. cbn [cols nrows].
  rewrite Hc, !existsb_app. cbn [existsb].
  rewrite (proj2 (labelled_iff f (f, StrCol xs)) eq_refl).
  rewrite orb_true_l, orb_true_r, orb_true_l. cbn [bind first_item columns
    cols map fst].
  rewrite !filter_app. cbn [filter].
  rewrite (proj2 (labelled_iff f (f, StrCol xs)) eq_refl), Hfa', Hfb'.
  cbn [negb app]. rewrite (Hkeep _ Hff).
  unfold drop. cbn [cols nrows]. rewrite !existsb_app. cbn [existsb].
  assert (Haa : labelled (fst ca) ca = true) by now apply labelled_iff.
  rewrite Haa, Hab', orb_true_l, orb_true_r. cbn [bind].
  rewrite app_nil_r, filter_app. cbn [filter]. rewrite Haa, Hab'.
  cbn [negb]. rewrite (Hkeep (labelled (fst ca)) Hfa).
  rewrite (separate_last (mkDataFrame (nrows df) (front ++ [cb])) front
             (f ++ "_" ++ b)%string
             (BoolCol (map (indicator String.eqb b) xs)) eq_refl Hb).
  cbn [Series_values nrows]. now rewrite map_map.
Qed.

Lemma binary_label_marks_the_greater_value_witness :
  (df' <- encode_feature (L := plain_literals)
            (mkDataFrame 3
               [("age", IntCol [48%Z; 62%Z; 51%Z]);
                ("classification",
                 StrCol [Some "notckd"; Some "ckd"; Some "notckd"])])
            "classification" ;;
   separate df')
  = OK (Datalist
          (DataFrame_to_numpy
             (mkDataFrame 3 [("age", IntCol [48%Z; 62%Z; 51%Z])]))
          (Arr1 (map (fun x => Bool (indicator String.eqb "notckd" x))
                   [Some "notckd"; Some "ckd"; Some "notckd"]))
          (map fst [("age", IntCol [48%Z; 62%Z; 51%Z])]
           ++ [("classification" ++ "_" ++ "notckd")%string])).
Proof.
  apply (binary_label_marks_the_greater_value (L := plain_literals)
           (mkDataFrame 3
              [("age", IntCol [48%Z; 62%Z; 51%Z]);
               ("classification",
                StrCol [Some "notckd"; Some "ckd"; Some "notckd"])])
           [("age", IntCol [48%Z; 62%Z; 51%Z])] "classification"
           "ckd" "notckd" [Some "notckd"; Some "ckd"; Some "notckd"]).
  - reflexivity.
  - simpl. intros [H|[]]. discriminate H.
  - simpl. intros [H|[]]. discriminate H.
  - simpl. intros [H|[]]. discriminate H.
  - intros v. simpl. intuition.
  - discriminate.
  - reflexivity.
Defined.

(** ** A mean halfway between two integers *)

Lemma py_round_half (k : Z) (m : Q) :
  (m == inject_Z k + (1 # 2))%Q ->
  py_round m = if Z.even k then k else (k + 1)%Z.
Proof.
  intros E. unfold py_round.
  assert (Hf : Qfloor m = k).
  { pose proof (Qfloor_le m) as Hlo. pose proof (Qlt_floor m) as Hhi.
    assert (H1 : (inject_Z (Qfloor m) < inject_Z (k + 1))%Q)
      by (rewrite inject_Z_plus; change (inject_Z 1) with 1%Q; lra).
    assert (H2 : (inject_Z k < inject_Z (Qfloor m + 1))%Q) by lra.
    rewrite <- Zlt_Qlt in H1, H2. lia. }
  rewrite Hf.
  assert (Hc : (m - inject_Z k ?= 1 # 2)%Q = Eq) by (apply Qeq_alt; lra).
  now rewrite Hc.
Qed.

(** X20.  When the mean of a floating-point column, the float64 number
    [Series.mean()] gives, lies halfway between two integers, its gaps
    are filled with the even one of the two: [round] breaks the tie
    towards the even integer, so a mean of 2.5 gives 2 and a mean of 3.5
    gives 4. *)
Theorem half_means_fill_with_the_even_integer {F : Arithmetic}
  (xs : list (option Q)) (m : Q) (k : Z) :
  Series_mean xs = Finite m -> (m == inject_Z k + (1 # 2))%Q ->
  fill_column (FloatCol xs)
  = OK (FloatCol (fillna xs (inject_Z (if Z.even k then k else k + 1)%Z)))
  /\ Z.even (if Z.even k then k else k + 1)%Z = true.
Proof.
  intros Hm E. simpl. rewrite Hm, (py_round_half k m E).
  split; [reflexivity|].
  destruct (Z.even k) eqn:Ek; [exact Ek|].
  rewrite Z.even_add, Ek. reflexivity.
Qed.

Lemma half_means_fill_with_the_even_integer_witness :
  fill_column (FloatCol [Some (2 # 1)%Q; Some (3 # 1)%Q; None])
  = OK (FloatCol [Some (2 # 1)%Q; Some (3 # 1)%Q; Some (2 # 1)%Q])
  /\ fill_column (FloatCol [Some (3 # 1)%Q; Some (4 # 1)%Q; None])
     = OK (FloatCol [Some (3 # 1)%Q; Some (4 # 1)%Q; Some (4 # 1)%Q]).
Proof.
  split.
  - eapply (half_means_fill_with_the_even_integer
              [Some (2 # 1)%Q; Some (3 # 1)%Q; None] _ 2);
      vm_compute; reflexivity.
  - eapply (half_means_fill_with_the_even_integer
              [Some (3 # 1)%Q; Some (4 # 1)%Q; None] _ 3);
      vm_compute; reflexivity.
Defined.

(** ** Stripping a column that holds no strings *)

Lemma setitem_columns (df : DataFrame) (f : string) (s : Series) :
  In f (columns df) -> columns (setitem df f s) = columns df.
Proof.
  intros Hf. rewrite (setitem_present _ _ _ Hf). unfold columns. simpl.
  apply map_relabel_fst.
Qed.

Lemma strip_feature_raise (c : string) (df : DataFrame) (f : string) :
  In f (columns df) ->
  (forall e, strip_feature c df f = Raised e -> e = AttributeError)
  /\ (forall df', strip_feature c df f = OK df' -> columns df' = columns df).
Proof.
  intros Hf. unfold strip_feature, getitem.
  destruct (filter (labelled f) (cols df)) as [|c0 [|c1 l]] eqn:E.
  - exfalso. unfold columns in Hf. apply in_map_iff in Hf as (c0 & E0 & Hc).
    assert (Hin : In c0 (filter (labelled f) (cols df)))
      by (apply filter_In; split; [exact Hc | now apply labelled_iff]).
    now rewrite E in Hin.
  - cbn [bind]. destruct (Series_str_replace (snd c0) c) as [s'|e'] eqn:Es;
      cbn [bind]; split; try discriminate.
    + intros df' H. inversion H; subst. now apply setitem_columns.
    + intros e H. inversion H; subst.
      destruct (snd c0) as [xs|xs|xs|xs|xs]; simpl in Es;
        try (now inversion Es).
      destruct (dropna xs); [discriminate | now inversion Es].
  - cbn [bind]. split; [intros e H; now inversion H | discriminate].
Qed.

Lemma strip_features_raise (c : string) (features : list string) :
  forall df, incl features (columns df) ->
  (forall e, for_each (strip_feature c) features df = Raised e ->
             e = AttributeError)
  /\ (forall df', for_each (strip_feature c) features df = OK df' ->
                  columns df' = columns df).
Proof.
  induction features as [|f rest IH]; intros df Hincl; simpl.
  - split; [discriminate | intros df' H; now inversion H].
  - assert (Hf : In f (columns df)) by (apply Hincl; now left).
    destruct (strip_feature_raise c df f Hf) as [Hr Hk].
    destruct (strip_feature c df f) as [df1|e1]; cbn [bind].
    + assert (Hincl1 : incl rest (columns df1)).
      { rewrite (Hk df1 eq_refl). intros g Hg. apply Hincl. now right. }
      destruct (IH df1 Hincl1) as [Hr1 Hk1]. split; [exact Hr1|].
      intros df' H. rewrite (Hk1 df' H). now apply Hk.
    + split; [|discriminate]. intros e H. inversion H; subst. now apply Hr.
Qed.

Lemma remove_chars_raise (features chars : list string) :
  forall df, incl features (columns df) ->
  forall e, remove_chars chars features df = Raised e -> e = AttributeError.
Proof.
  unfold remove_chars. induction chars as [|c rest IH]; intros df Hincl e;
    simpl; [discriminate|].
  destruct (strip_features_raise c features df Hincl) as [Hr Hk].
  destruct (for_each (strip_feature c) features df) as [df1|e1]; cbn [bind].
  - apply IH. now rewrite (Hk df1 eq_refl).
  - intros H. inversion H; subst. now apply Hr.
Qed.

(** X21.  An object column that holds booleans is what the reader makes
    of a column of booleans with a gap; when such a column is among those
    left after the drops, the labels are distinct and [chars] is not
    empty, line 80 raises [AttributeError]: the column has no string
    methods. *)
Theorem boolean_column_with_gap_stops_stripping
  {L : Literals} {F : Arithmetic}
  (df dropped : DataFrame)
  (irrelevant_features chars categorical_features : list string)
  (f : string) (xs : list (option bool)) :
  for_each drop irrelevant_features df = OK dropped ->
  NoDup (columns dropped) ->
  In (f, ObjBoolCol xs) (cols dropped) -> dropna xs <> [] -> chars <> [] ->
  clean df irrelevant_features chars categorical_features
  = Raised AttributeError.
Proof.
  intros Hd Hnd Hin Hxs Hchars. unfold clean. rewrite Hd. cbn [bind].
  destruct (str_features dropped (columns dropped)) as [fs|e] eqn:Hfs.
  2:{ exfalso.
      assert (He : e = ValueError)
        by (apply (str_features_raise dropped (columns dropped));
            [apply incl_refl | exact Hfs]).
      subst e. clear Hin Hxs.
      assert (Hall : forall names, incl names (columns dropped) ->
                       str_features dropped names <> Raised ValueError).
      { induction names as [|g rest IH]; intros Hincl; simpl; [discriminate|].
        assert (Hg : In g (columns dropped)) by (apply Hincl; now left).
        unfold columns in Hg. apply in_map_iff in Hg as ([g' s] & Eg & Hc).
        simpl in Eg. subst g'.
        rewrite (getitem_one dropped g s
                   (filter_labelled_NoDup _ _ _ Hnd Hc)).
        cbn [bind single].
        destruct (str_features dropped rest) as [r|e'] eqn:Er; cbn [bind];
          [discriminate|].
        intros H. inversion H; subst. apply IH; [|reflexivity].
        intros x Hx. apply Hincl. now right. }
      now apply (Hall (columns dropped) (incl_refl _)). }
  cbn [bind].
  pose proof Hfs as Hfs'. apply str_features_OK in Hfs' as [_ Efs].
  destruct (str_features_NoDup _ _ Hfs) as [_ Hndfs].
  assert (Hincl : incl fs (columns dropped)).
  { rewrite Efs. intros g Hg. now apply filter_In in Hg. }
  destruct (remove_chars chars fs dropped) as [df2|e] eqn:H2.
  - exfalso. destruct (remove_chars_spec _ Hndfs _ _ _ H2) as [_ Hc].
    destruct (Forall2_In_l _ _ _ _ Hc Hin) as (c' & _ & _ & Hs).
    cbn [fst snd] in Hs.
    assert (Hm : mentions fs f = true).
    { apply mentions_In. rewrite Efs. apply filter_In.
      split; [now apply (in_map fst _ (f, ObjBoolCol xs))|].
      exact (object_label_column dropped _ Hnd Hin). }
    rewrite Hm in Hs. destruct chars as [|c rest]; [now elim Hchars|].
    simpl in Hs. destruct (dropna xs); [now elim Hxs | discriminate Hs].
  - cbn [bind]. f_equal. now apply (remove_chars_raise fs chars dropped).
Qed.

Lemma boolean_column_with_gap_stops_stripping_witness :
  clean (L := plain_literals)
    (mkDataFrame 2 [("id", IntCol [1%Z; 2%Z]);
                    ("smoker", ObjBoolCol [Some true; None])])
    ["id"] [" "] [] = Raised AttributeError.
Proof.
  apply (boolean_column_with_gap_stops_stripping (L := plain_literals)
           (mkDataFrame 2 [("id", IntCol [1%Z; 2%Z]);
                           ("smoker", ObjBoolCol [Some true; None])])
           (mkDataFrame 2 [("smoker", ObjBoolCol [Some true; None])])
           ["id"] [" "] [] "smoker" [Some true; None]).
  - reflexivity.
  - repeat constructor. simpl. tauto.
  - now left.
  - discriminate.
  - discriminate.
Defined.

(** ** When imputation raises *)

(** X22.  With distinct labels, imputation goes through exactly when it
    has something to fill every column with: a mean that is a number for
    a floating-point column, a value for any other.  Otherwise it stops at
    the first column for which it has not: with [ValueError] when that is
    a floating-point column whose mean is NaN, with [OverflowError] when
    it is one whose mean is infinite, with [KeyError] when it is no
    floating-point column (no most frequent value).  A column that holds
    no value is such a column, and a floating-point one has NaN for its
    mean. *)
Theorem imputation_needs_a_value {F : Arithmetic} (df : DataFrame) :
  NoDup (columns df) ->
  ((exists df', fill_missing (columns df) df = OK df')
   <-> Forall (fun c => fillable (snd c)) (cols df))
  /\ (forall front f s rest,
        cols df = front ++ (f, s) :: rest ->
        Forall (fun c => fillable (snd c)) front ->
        ~ fillable s ->
        fill_missing (columns df) df = Raised (fill_error s)
        /\ match s with
           | FloatCol xs =>
               (Series_mean xs = NotANumber /\ fill_error s = ValueError)
               \/ (Series_mean xs = Infinite /\ fill_error s = OverflowError)
           | _ => present s = 0 /\ fill_error s = KeyError
           end)
  /\ (forall c, In c (cols df) -> present (snd c) = 0 ->
      ~ fillable (snd c)
      /\ fill_error (snd c)
         = if dtype_is_float (snd c) then ValueError else KeyError)
  /\ (forall e, fill_missing (columns df) df = Raised e ->
      exists c, In c (cols df) /\ ~ fillable (snd c)
                /\ e = fill_error (snd c)).
Proof.
  intros Hnd. split; [split|split; [|split]].
  - intros [df' H]. exact (fill_missing_fillable _ _ H).
  - intros Hall. apply fill_missing_total; [exact Hnd|].
    now apply Forall_forall.
  - intros front f s rest Hc Hfront Hs.
    split; [exact (fill_missing_stops df front f s rest Hnd Hc Hfront Hs)|].
    destruct s as [xs|xs|xs|xs|xs]; simpl in *;
      try (split; [lia | reflexivity]).
    destruct (Series_mean xs) as [m| |]; [elim Hs; eauto | right | left];
      now split.
  - intros c _ Hp. now apply no_value_not_fillable.
  - intros e He.
    destruct (first_not_fillable (cols df))
      as [Hall|(front & f & s & rest & E & Hfront & Hs)].
    + rewrite Forall_forall in Hall.
      destruct (fill_missing_total df Hnd Hall) as [df' H'].
      rewrite H' in He. discriminate He.
    + rewrite (fill_missing_stops df front f s rest Hnd E Hfront Hs) in He.
      inversion He; subst e. exists (f, s).
      split; [rewrite E; apply in_or_app; right; now left|]. now split.
Qed.

Lemma imputation_needs_a_value_witness :
  fill_missing
    (columns (mkDataFrame 2 [("a", IntCol [1%Z; 2%Z]);
                             ("b", StrCol [None; None]);
                             ("c", FloatCol [None; None])]))
    (mkDataFrame 2 [("a", IntCol [1%Z; 2%Z]);
                    ("b", StrCol [None; None]);
                    ("c", FloatCol [None; None])])
  = Raised KeyError
  /\ fill_missing (columns overflow_frame)
       (mkDataFrame 2 [("x", FloatCol [Some (inject_Z (10 ^ 308));
                                       Some (inject_Z (10 ^ 308))])])
     = Raised OverflowError.
Proof.
  split.
  - apply (proj1 (proj2 (imputation_needs_a_value
                    (mkDataFrame 2 [("a", IntCol [1%Z; 2%Z]);
                                    ("b", StrCol [None; None]);
                                    ("c", FloatCol [None; None])])
                    ltac:(repeat constructor; simpl; intuition discriminate)))
             [("a", IntCol [1%Z; 2%Z])] "b" (StrCol [None; None])
             [("c", FloatCol [None; None])]).
    + reflexivity.
    + repeat constructor. discriminate.
    + simpl. intros H. now apply H.
  - apply (proj1 (proj2 (imputation_needs_a_value
                    (mkDataFrame 2
                       [("x", FloatCol [Some (inject_Z (10 ^ 308));
                                        Some (inject_Z (10 ^ 308))])])
                    ltac:(repeat constructor; simpl; intuition discriminate)))
             [] "x" (FloatCol [Some (inject_Z (10 ^ 308));
                               Some (inject_Z (10 ^ 308))]) []).
    + reflexivity.
    + constructor.
    + intros [m Hm]. vm_compute in Hm. discriminate Hm.
Defined.

(** ** What is left of the strings *)

Lemma Series_values_not_str (s : Series) :
  dtype_is_object s = false ->
  Forall (fun x => not_str x = true) (Series_values s).
Proof.
  destruct s as [xs|xs|xs|xs|xs]; simpl; try discriminate; intros _;
    apply Forall_forall; intros x Hx; apply in_map_iff in Hx as (y & <- & _);
    try reflexivity.
  now destruct y.
Qed.

Lemma ObjBoolCol_values_not_str (xs : list (option bool)) :
  Forall (fun x => not_str x = true) (Series_values (ObjBoolCol xs)).
Proof.
  simpl. apply Forall_forall. intros x Hx.
  apply in_map_iff in Hx as (y & <- & _). now destruct y.
Qed.

Lemma to_numpy_no_str (df : DataFrame) :
  Forall (fun c => Forall (fun x => not_str x = true)
                     (Series_values (snd c))) (cols df) ->
  no_str (DataFrame_to_numpy df).
Proof.
  intros Hall. simpl. apply Forall_forall. intros r Hr.
  apply in_map_iff in Hr as (i & <- & _).
  apply Forall_forall. intros x Hx. apply in_map_iff in Hx as (c & <- & Hc).
  rewrite Forall_forall in Hall. specialize (Hall c Hc).
  rewrite Forall_forall in Hall.
  assert (Hcast : forall y, not_str y = true ->
            not_str ((if upcast_to_float (cols df) then as_float64
                      else fun x => x) y) = true)
    by (intros y; now destruct (upcast_to_float (cols df)), y).
  apply Hcast.
  destruct (Nat.lt_ge_cases i (List.length (Series_values (snd c))))
    as [Hi|Hi].
  - apply Hall. now apply nth_In.
  - now rewrite nth_overflow.
Qed.

Lemma encode_feature_strings {L : Literals} (df df' : DataFrame)
  (f : string) :
  encode_feature df f = OK df' ->
  forall c, In c (cols df') ->
    (In c (cols df) /\ fst c <> f) \/ exists bs, snd c = BoolCol bs.
Proof.
  intros H c Hc. pose proof H as H0. unfold encode_feature in H.
  apply bind_OK in H as (sel & Hsel & H).
  apply bind_OK in H as (df1 & H1 & H).
  apply bind_OK in H as (d0 & _ & H).
  apply (drop_incl _ _ _ H) in Hc.
  assert (Hne : fst c <> f).
  { intros E. apply (drop_absent _ _ _ H1). rewrite <- E. now apply in_map. }
  apply (drop_incl _ _ _ H1) in Hc. simpl in Hc.
  apply in_app_iff in Hc as [Hc|Hc]; [left; now split|].
  apply getitem_OK in Hsel. destruct sel as [s|d]; simpl in Hc.
  - right. apply get_dummies_1d_entries in Hc as (bs & E & _). now exists bs.
  - destruct Hsel as (_ & Ed & _). rewrite Ed in Hc.
    apply in_app_iff in Hc as [Hc|Hc].
    + exfalso. apply Hne. apply filter_In in Hc as [Hc _].
      apply filter_In in Hc as [_ Hc]. now apply labelled_iff.
    + right. apply in_flat_map in Hc as (c0 & _ & Hc).
      apply get_dummies_1d_entries in Hc as (bs & E & _). now exists bs.
Qed.

Lemma encode_all_strings {L : Literals} (fs : list string) :
  forall df df', for_each encode_feature fs df = OK df' ->
  forall c, In c (cols df') -> dtype_is_object (snd c) = true ->
  In c (cols df) /\ ~ In (fst c) fs.
Proof.
  induction fs as [|f rest IH]; intros df df' H c Hc Ho; simpl in H.
  - inversion H; subst. now split.
  - apply bind_OK in H as (df1 & H1 & H).
    destruct (IH _ _ H c Hc Ho) as [Hc1 Hrest].
    destruct (encode_feature_strings _ _ _ H1 c Hc1) as [[Hold Hne]|[bs E]].
    + split; [exact Hold|]. intros [E|Hin]; [now elim Hne | now elim Hrest].
    + rewrite E in Ho. discriminate Ho.
Qed.

(** X23.  When every column of strings is listed among the categorical
    features, nothing that is returned holds a string: after the encoding
    no column of strings is left, and the matrix and the label array are
    made of numbers and booleans. *)
Theorem encoded_frame_holds_no_string {L : Literals} (df df' : DataFrame)
  (categorical_features : list string) (data label : ndarray)
  (names : list string) :
  (forall f xs, In (f, StrCol xs) (cols df) -> In f categorical_features) ->
  for_each encode_feature categorical_features df = OK df' ->
  separate df' = OK (Datalist data label names) ->
  (forall f xs, ~ In (f, StrCol xs) (cols df'))
  /\ no_str data /\ no_str label.
Proof.
  intros Hcat Henc Hsep.
  assert (Hnone : forall f xs, ~ In (f, StrCol xs) (cols df')).
  { intros f xs Hin.
    destruct (encode_all_strings _ _ _ Henc (f, StrCol xs) Hin eq_refl)
      as [Hold Hno].
    apply Hno. now apply (Hcat f xs). }
  assert (Hall : Forall (fun c => Forall (fun x => not_str x = true)
                                    (Series_values (snd c))) (cols df')).
  { apply Forall_forall. intros [f s] Hc. cbn [snd].
    destruct s as [xs|xs|xs|xs|xs];
      try (now apply Series_values_not_str).
    - now elim (Hnone f xs).
    - apply ObjBoolCol_values_not_str. }
  split; [exact Hnone|].
  apply separate_OK in Hsep as (l & sel & rest & _ & Hsel & Hrest & E).
  inversion E; subst data label names; clear E.
  assert (Hsub : forall d, incl (cols d) (cols df') ->
                           no_str (DataFrame_to_numpy d)).
  { intros d Hincl. apply to_numpy_no_str. apply Forall_forall.
    intros c Hc. rewrite Forall_forall in Hall. now apply Hall, Hincl. }
  split.
  - apply Hsub. now apply (drop_incl _ _ _ Hrest).
  - apply getitem_OK in Hsel. destruct sel as [s|d].
    + simpl. rewrite Forall_forall in Hall.
      apply (Hall (l, s)). eapply proj1, filter_In. rewrite Hsel. now left.
    + apply Hsub. destruct Hsel as (_ & Ed & _). rewrite Ed.
      intros c Hc. now apply filter_In in Hc.
Qed.

Lemma encoded_frame_holds_no_string_witness :
  (forall f xs,
     ~ In (f, StrCol xs)
         (cols (mkDataFrame 2 [("age", IntCol [48%Z; 62%Z]);
                               ("pc_normal", BoolCol [true; false]);
                               ("class_notckd", BoolCol [false; true])])))
  /\ no_str (Arr2 2 2 [[Int 48; Bool true]; [Int 62; Bool false]])
  /\ no_str (Arr1 [Bool false; Bool true]).
Proof.
  apply (encoded_frame_holds_no_string (L := plain_literals)
           (mkDataFrame 2 [("age", IntCol [48%Z; 62%Z]);
                           ("pc", StrCol [Some "normal"; Some "abnormal"]);
                           ("class", StrCol [Some "ckd"; Some "notckd"])])
           (mkDataFrame 2 [("age", IntCol [48%Z; 62%Z]);
                           ("pc_normal", BoolCol [true; false]);
                           ("class_notckd", BoolCol [false; true])])
           ["pc"; "class"] _ _ ["age"; "pc_normal"; "class_notckd"]).
  - intros f xs [H|[H|[H|[]]]]; inversion H; subst; simpl; tauto.
  - reflexivity.
  - reflexivity.
Defined.

(** ** Names without underscore *)

Lemma underscore_split (f g r w : string) :
  has_underscore f = false -> has_underscore g = false ->
  (f ++ "_" ++ r)%string = (g ++ "_" ++ w)%string -> f = g /\ r = w.
Proof.
  revert g. induction f as [|x f IH]; intros [|y g]; simpl;
    intros Hf Hg H.
  - now inversion H.
  - inversion H; subst. discriminate Hg.
  - inversion H; subst. discriminate Hf.
  - apply orb_false_iff in Hf as [_ Hf]. apply orb_false_iff in Hg as [_ Hg].
    inversion H; subst. destruct (IH g Hf Hg) as [-> ->]; auto.
Qed.

Lemma NoDup_fst_filter {B} (p : string * B -> bool) (l : list (string * B)) :
  NoDup (map fst l) -> NoDup (map fst (filter p l)).
Proof.
  induction l as [|c l IH]; simpl; intros H; [constructor|].
  inversion H as [|? ? Hc Hl]; subst.
  destruct (p c); simpl; [|now apply IH].
  constructor; [|now apply IH]. intros Hin. apply Hc.
  apply in_map_iff in Hin as (c' & E & Hc').
  apply filter_In in Hc' as [Hc' _]. rewrite <- E. now apply in_map.
Qed.

Lemma encode_feature_invariant {L : Literals} (done : list string)
  (df df' : DataFrame) (f : string) :
  encoding_invariant done df ->
  has_underscore f = false ->
  Forall (fun g => has_underscore g = false) done ->
  encode_feature df f = OK df' ->
  encoding_invariant (f :: done) df'.
Proof.
  intros (Hnd & Hnames & Hdone) Hf Hund H.
  destruct (encode_feature_names _ _ _ H) as [Hin Hstep].
  pose proof H as H0. unfold encode_feature in H.
  apply bind_OK in H as (sel & Hsel & H).
  apply bind_OK in H as (df1 & H1 & H).
  apply bind_OK in H as (d0 & _ & H).
  assert (Hfresh : ~ In f done).
  { intros Hd. now apply (Hdone f Hd). }
  assert (Hnew : forall r, ~ In (f ++ "_" ++ r)%string (columns df)).
  { intros r Hr. destruct (Hnames _ Hr) as [Hu|(g & w & Hg & E)].
    - now rewrite has_underscore_append in Hu.
    - rewrite Forall_forall in Hund.
      destruct (underscore_split f g r w Hf (Hund g Hg) E) as [-> _].
      now apply Hfresh. }
  split; [|split].
  - unfold columns.
    apply drop_OK in H as (_ & _ & ->). apply drop_OK in H1 as (_ & _ & ->).
    apply NoDup_fst_filter, NoDup_fst_filter. simpl.
    rewrite map_app. apply NoDup_app; [exact Hnd | |].
    + pose proof Hin as Hin'. unfold columns in Hin'.
      apply in_map_iff in Hin' as ([f' s] & Ef & Hc). simpl in Ef. subst f'.
      pose proof (filter_labelled_NoDup _ _ _ Hnd Hc) as Hone.
      rewrite (getitem_one _ _ _ Hone) in Hsel. inversion Hsel; subst sel.
      simpl. now destruct (get_dummies_1d_spec s f) as (Hd & _).
    + intros name Hold Hdum. apply in_map_iff in Hdum as (c & <- & Hc).
      destruct (pd_get_dummies_names _ _ _ _ Hsel Hc) as [E|[r E]].
      * pose proof Hin as Hin'. unfold columns in Hin'.
        apply in_map_iff in Hin' as ([f' s] & Ef & Hc'). simpl in Ef.
        subst f'.
        pose proof (filter_labelled_NoDup _ _ _ Hnd Hc') as Hone.
        rewrite (getitem_one _ _ _ Hone) in Hsel. inversion Hsel; subst sel.
        simpl in Hc. destruct (get_dummies_1d_spec s f) as (_ & Hall & _).
        rewrite Forall_forall in Hall.
        destruct (Hall c Hc) as (r & _ & _ & Er & _).
        rewrite E in Er. symmetry in Er.
        now apply prefixed_label_differs in Er.
      * rewrite E in Hold. now apply (Hnew r).
  - intros name Hn. destruct (Hstep name Hn) as [Hold|[r E]].
    + destruct (Hnames _ Hold) as [Hu|(g & w & Hg & E)]; [now left|].
      right. exists g, w. split; [now right | exact E].
    + right. exists f, r. split; [now left | exact E].
  - intros g [<-|Hg] Hcol.
    + apply (drop_absent _ _ _ H1).
      unfold columns in *. apply in_map_iff in Hcol as (c & E & Hc).
      apply in_map_iff. exists c. split; [exact E|].
      now apply (drop_incl _ _ _ H).
    + destruct (Hstep g Hcol) as [Hold|[r E]].
      * now apply (Hdone g Hg).
      * rewrite Forall_forall in Hund. specialize (Hund g Hg).
        rewrite E, has_underscore_append in Hund. discriminate Hund.
Qed.

Lemma encode_all_invariant {L : Literals} (fs : list string) :
  forall done df df',
  encoding_invariant done df ->
  Forall (fun g => has_underscore g = false) fs ->
  Forall (fun g => has_underscore g = false) done ->
  for_each encode_feature fs df = OK df' ->
  NoDup (columns df').
Proof.
  induction fs as [|f rest IH]; intros done df df' Hinv Hfs Hdone H;
    simpl in H.
  - inversion H; subst. exact (proj1 Hinv).
  - apply bind_OK in H as (df1 & H1 & H).
    inversion Hfs as [|? ? Hf Hrest]; subst.
    apply (IH (f :: done) df1 df'); try assumption.
    + now apply (encode_feature_invariant done df).
    + now constructor.
Qed.

(** X24.  When no label of the frame and no categorical feature holds an
    underscore, the indicator columns can take the name of no other
    column: a run of lines 69-104 that returns gives pairwise distinct
    names, a label that is a vector with one entry per row of the matrix,
    and a matrix with one column less than there are names. *)
Theorem names_distinct_without_underscore {L : Literals} {F : Arithmetic}
  (df : DataFrame)
  (irrelevant_features chars categorical_features : list string)
  (data label : ndarray) (names : list string) :
  frame_ok df ->
  Forall (fun name => has_underscore name = false) (columns df) ->
  Forall (fun f => has_underscore f = false) categorical_features ->
  clean df irrelevant_features chars categorical_features
  = OK (Datalist data label names) ->
  NoDup names
  /\ exists v, label = Arr1 v
       /\ shape data = [List.length v; List.length names - 1].
Proof.
  intros Hok Hcols Hcats H.
  destruct (clean_tidy _ _ _ _ _ Hok H) as (d & e & _ & _ & Ht & Hs).
  apply clean_OK in H as (d1 & fs & d2 & d3 & d4 & H1 & Hfs & H2 & H3 & H4 & H).
  apply drops_spec in H1 as (_ & _ & _ & Hc1).
  destruct (str_features_NoDup _ _ Hfs) as [Hnd1 Hndfs].
  destruct (remove_chars_spec _ Hndfs _ _ _ H2) as [_ Hc2].
  apply Forall2_fst_eq in Hc2.
  assert (H3' : fill_missing (columns d2) d2 = OK d3)
    by (unfold columns; now rewrite Hc2).
  destruct (fill_missing_imputed _ _ H3') as [_ Hc3].
  apply Forall2_fst_eq in Hc3.
  assert (E3 : columns d3 = columns d1) by (unfold columns; congruence).
  assert (Hinv : encoding_invariant [] d3).
  { split; [now rewrite E3|]. split; [|easy].
    intros name Hn. left. rewrite E3 in Hn. unfold columns in Hn.
    rewrite Hc1 in Hn. apply in_map_iff in Hn as (c & <- & Hc).
    apply filter_In in Hc as [Hc _]. rewrite Forall_forall in Hcols.
    apply Hcols. now apply in_map. }
  pose proof (encode_all_invariant _ _ _ _ Hinv Hcats (Forall_nil _) H4)
    as Hnd4.
  apply separate_OK in H as (l & sel & rest & Hl & _ & _ & E).
  inversion E; subst data label names; clear E.
  split; [exact Hnd4|].
  destruct (separate_shape _ _ _ _ _ Ht Hs) as (l' & Hl' & Hshape & Hlabel).
  assert (Hone : count_occ string_dec (columns d4) l' = 1).
  { apply NoDup_count_one; [exact Hnd4|].
    apply last_item_OK in Hl' as [front ->]. apply in_or_app.
    right. now left. }
  destruct (Hlabel Hone) as (v & Ev & Hv).
  exists v. split; [exact Ev|]. now rewrite Hshape, Hone, Hv.
Qed.

Lemma names_distinct_without_underscore_witness :
  NoDup ["age"; "class_yes"]
  /\ exists v, Arr1 [Bool true; Bool false] = Arr1 v
       /\ shape (Arr2 2 1 [[Float (25 # 1)%Q]; [Float (25 # 1)%Q]])
          = [List.length v; List.length ["age"; "class_yes"] - 1].
Proof.
  apply (names_distinct_without_underscore (L := plain_literals)
           example_frame ["id"] [] ["class"] _ _ _ example_frame_ok).
  - repeat constructor.
  - repeat constructor.
  - reflexivity.
Defined.
